(** * agent-datasource: the data-access layer of the admin console

    A shallow embedding of the query builder ([dataProvider]), the remote
    executor and table operations ([sqlDatabase.ts]), the CSV codec
    ([utils/csv.ts]), the importer ([components/ImportModal.tsx]), the
    dialog that creates a table ([components/AddTableModal]) and the
    search box and sorters of the list screen
    ([components/ResourceList.tsx]), followed by the properties of the
    specification that concern them and by further properties of the code.

    Modelling conventions.
    - A JavaScript string is a [string] of 8-bit characters; case mapping
      and white space are those of the ASCII range.  A property that
      depends on white space or on letter case is stated for texts of
      that range ([asciiText]), on which the model and the code agree.
    - A JavaScript number is an integer [Z]; it is rendered in decimal.
      The code computes with doubles: a property that depends on the
      arithmetic or on the digits of a number is stated for whole numbers
      of the safe range ([safeInteger], [exactText], [exactPagination]),
      on which both are exact.
    - A JavaScript value of type [any] is a [value]; an object keeps its
      properties in enumeration order.
    - The row objects of the CSV codec are used as dictionaries and are
      finite maps from header to cell: the own properties of a plain
      object.  A property that reads a row is stated for keys that no
      object inherits ([ordinaryKey]).
    - The remote service is a state machine [respond]; a computation that
      talks to it records every request it sends. *)

From Stdlib Require Import ZArith Ascii String.
From stdpp Require Import base option list strings gmap pretty.

Local Open Scope Z_scope.
Set Warnings "-register-all".

(* ================================================================== *)
(** ** Characters and strings *)

Definition DQ : ascii := "034"%char.
Definition COMMA : ascii := ","%char.
Definition LF : ascii := "010"%char.
Definition CR : ascii := "013"%char.

Definition str (c : ascii) : string := String c EmptyString.

(** [s.length === 0] *)
Definition isEmpty (s : string) : bool :=
  match s with EmptyString => true | String _ _ => false end.

(** White space and line terminators removed by [String.prototype.trim]. *)
Definition isWhite (c : ascii) : bool :=
  let n := nat_of_ascii c in
  ((9 <=? n)%nat && (n <=? 13)%nat) || (n =? 32)%nat.

Fixpoint trimStart (s : string) : string :=
  match s with
  | EmptyString => EmptyString
  | String c s' => if isWhite c then trimStart s' else s
  end.

Fixpoint trimEnd (s : string) : string :=
  match s with
  | EmptyString => EmptyString
  | String c s' =>
      let t := trimEnd s' in
      if isWhite c && isEmpty t then EmptyString else String c t
  end.

Definition trim (s : string) : string := trimEnd (trimStart s).

Definition upperChar (c : ascii) : ascii :=
  let n := nat_of_ascii c in
  if ((97 <=? n)%nat && (n <=? 122)%nat)%bool then ascii_of_nat (n - 32) else c.

Definition lowerChar (c : ascii) : ascii :=
  let n := nat_of_ascii c in
  if ((65 <=? n)%nat && (n <=? 90)%nat)%bool then ascii_of_nat (n + 32) else c.

Fixpoint mapChars (f : ascii -> ascii) (s : string) : string :=
  match s with
  | EmptyString => EmptyString
  | String c s' => String (f c) (mapChars f s')
  end.

Definition toUpperCase : string -> string := mapChars upperChar.
Definition toLowerCase : string -> string := mapChars lowerChar.

(** [s.includes(needle)] *)
Fixpoint includes (needle s : string) : bool :=
  String.prefix needle s ||
  match s with
  | EmptyString => false
  | String _ s' => includes needle s'
  end.

(** [s.includes(c)] for a one-character needle. *)
Fixpoint hasChar (c : ascii) (s : string) : bool :=
  match s with
  | EmptyString => false
  | String d s' => Ascii.eqb d c || hasChar c s'
  end.

(** [s.replace(/DQ/g, DQ DQ)]: every double quote is doubled. *)
Fixpoint doubleQuotes (s : string) : string :=
  match s with
  | EmptyString => EmptyString
  | String c s' =>
      if Ascii.eqb c DQ then String DQ (String DQ (doubleQuotes s'))
      else String c (doubleQuotes s')
  end.

(** [parts.join(sep)] *)
Definition join (sep : string) (parts : list string) : string :=
  String.concat sep parts.

(* ================================================================== *)
(** ** Values *)

Inductive value : Type :=
| VUndefined
| VNull
| VBool (b : bool)
| VNumber (n : Z)
| VString (s : string)
| VArray (items : list value)
| VObject (props : list (string * value)).

(** Truthiness, as [&&], [||] and [?:] test it. *)
Definition truthy (v : value) : bool :=
  match v with
  | VUndefined | VNull => false
  | VBool b => b
  | VNumber n => negb (n =? 0)
  | VString s => negb (isEmpty s)
  | VArray _ | VObject _ => true
  end.

(** [a || b] *)
Definition orElse (a b : value) : value := if truthy a then a else b.

Fixpoint lookupProp (key : string) (props : list (string * value)) : value :=
  match props with
  | [] => VUndefined
  | (k, v) :: rest => if String.eqb k key then v else lookupProp key rest
  end.

(** [v?.[key]]: undefined on [null] and [undefined]; the keys read by
    this code are no properties of a primitive or of an array. *)
Definition getProp (key : string) (v : value) : value :=
  match v with
  | VObject props => lookupProp key props
  | _ => VUndefined
  end.

(** [String(v)] and template interpolation. *)
Fixpoint toText (v : value) : string :=
  match v with
  | VUndefined => "undefined"
  | VNull => "null"
  | VBool true => "true"
  | VBool false => "false"
  | VNumber n => pretty n
  | VString s => s
  | VArray items =>
      join ","
        (map (fun item =>
                match item with
                | VUndefined | VNull => EmptyString
                | _ => toText item
                end) items)
  | VObject _ => "[object Object]"
  end.

(* ================================================================== *)
(** ** Identifier quoting (dataProvider, line 4) *)

(** [quote(name)]: the name with its double quotes doubled, between two
    double quotes. *)
Definition quote (name : string) : string :=
  str DQ +:+ doubleQuotes name +:+ str DQ.

(** The inverse reading of a quoted identifier: the text must open and
    close with one double quote, and every double quote between them must
    come in a pair, which stands for one. *)
Fixpoint undouble (body : string) : option string :=
  match body with
  | EmptyString => None
  | String c rest =>
      if Ascii.eqb c DQ then
        match rest with
        | EmptyString => Some EmptyString
        | String d rest' =>
            if Ascii.eqb d DQ
            then option_map (String DQ) (undouble rest')
            else None
        end
      else option_map (String c) (undouble rest)
  end.

Definition unquote (text : string) : option string :=
  match text with
  | String c body => if Ascii.eqb c DQ then undouble body else None
  | EmptyString => None
  end.

(** Number of occurrences of a character. *)
Fixpoint countChar (c : ascii) (s : string) : nat :=
  match s with
  | EmptyString => O
  | String d s' => ((if Ascii.eqb d c then 1 else 0) + countChar c s')%nat
  end.

(* ================================================================== *)
(** ** The remote service (sqlDatabase.ts) *)

Record File := mkFile { fileName : string; fileText : string }.

(** [mode: 'create' | 'append'] of the upload endpoint. *)
Inductive UploadMode := UploadCreate | UploadAppend.

(** The two requests of the program: [POST API_URL] with the JSON body
    [{sql, params}], and [POST UPLOAD_URL] with the multipart fields
    [file], [table] and [mode]. *)
Inductive request :=
| Execute (sql : string) (params : list value)
| Upload (file : File) (table : string) (mode : UploadMode).

Module Response.
(** What the code reads of a fetch response: [ok], [status], the body as
    text, and the body parsed as JSON when it parses. *)
Record t := mk { ok : bool; status : Z; text : string; json : option value }.
End Response.

(** The exceptions of the layer.  [DbError] is the
    [DB Error: status - text] of [remoteExecute], [UploadFailed] the
    [Upload failed: status - text] of [uploadCSV], [RecordNotFound] the
    [Record with id ... not found in ...] of [getOne]; [TypeError] is a
    method call on a value that has no such method, [FetchFailed] a
    rejected fetch or a body that is not JSON. *)
Inductive error :=
| DbError (status : Z) (errorText : string)
| UploadFailed (status : Z) (errorText : string)
| RecordNotFound (id : value) (resource : string)
| TypeError
| FetchFailed.

(** The outcome of a computation: what it returned or threw, the state it
    left the remote service in, and the requests it sent, in order. *)
Record run (W A : Type) := Run {
  outcome : error + A;
  world : W;
  sent : list request
}.
Arguments Run {W A} _ _ _.
Arguments outcome {W A} _.
Arguments world {W A} _.
Arguments sent {W A} _.

Definition M (W A : Type) : Type := W -> run W A.

Definition ret {W A} (a : A) : M W A := fun w => Run (inr a) w [].

Definition throw {W A} (e : error) : M W A := fun w => Run (inl e) w [].

(** [await m] followed by [k]: an exception of [m] skips [k]. *)
Definition bind {W A B} (m : M W A) (k : A -> M W B) : M W B := fun w =>
  match m w with
  | Run (inl e) w1 t1 => Run (inl e) w1 t1
  | Run (inr a) w1 t1 =>
      match k a w1 with
      | Run r w2 t2 => Run r w2 (t1 ++ t2)
      end
  end.

(** A pure step that may throw. *)
Definition lift {W A} (r : error + A) : M W A :=
  match r with
  | inl e => throw e
  | inr a => ret a
  end.

Notation "x <- m ;; k" := (bind m (fun x => k))
  (at level 65, m at next level, right associativity).
Notation "m ;;; k" := (bind m (fun _ => k))
  (at level 65, right associativity).

(** [for (const x of xs) await body(x)] *)
Fixpoint forEach {W A} (body : A -> M W unit) (xs : list A) : M W unit :=
  match xs with
  | [] => ret tt
  | x :: rest => body x ;;; forEach body rest
  end.

(** [for (const x of xs) acc = await step(acc, x)] *)
Fixpoint foldM {W A S} (step : S -> A -> M W S) (xs : list A) (acc : S) : M W S :=
  match xs with
  | [] => ret acc
  | x :: rest => acc' <- step acc x ;; foldM step rest acc'
  end.

(** [xs.map(f)] where [f] may throw: the first exception wins. *)
Fixpoint mapE {A B} (f : A -> error + B) (xs : list A) : error + list B :=
  match xs with
  | [] => inr []
  | x :: rest =>
      match f x with
      | inl e => inl e
      | inr y =>
          match mapE f rest with
          | inl e => inl e
          | inr ys => inr (y :: ys)
          end
      end
  end.

(** [xs.filter(p)] where [p] may throw. *)
Fixpoint filterE {A} (p : A -> error + bool) (xs : list A) : error + list A :=
  match xs with
  | [] => inr []
  | x :: rest =>
      match p x with
      | inl e => inl e
      | inr b =>
          match filterE p rest with
          | inl e => inl e
          | inr ys => inr (if b then x :: ys else ys)
          end
      end
  end.

Definition isArray (v : value) : bool :=
  match v with VArray _ => true | _ => false end.

(** The rows of a normalised body. *)
Definition arrayItems (v : value) : list value :=
  match v with VArray items => items | _ => [] end.

(** Lines 26-36 of [remoteExecute]: the normalisation of a response body.
    [Object.keys(data).length > 0] is [props] being non-empty. *)
Definition normalize (data : value) : value :=
  match data with
  | VArray _ => data
  | VObject props =>
      let finalData :=
        orElse (getProp "results" data)
          (orElse (getProp "data" data)
             (if truthy (getProp "rows" data) then getProp "rows" data
              else VArray [])) in
      if negb (isArray finalData) && (0 <? length props)%nat
      then VArray [data]
      else finalData
  | _ => VArray []
  end.

Module ColumnMetadata.
Record t := mk {
  cid : Z; name : string; type : string;
  notnull : Z; dflt_value : value; pk : Z
}.

(** The row of [PRAGMA table_info] that carries a column. *)
Definition toRow (c : t) : value :=
  VObject [("cid", VNumber (cid c)); ("name", VString (name c));
           ("type", VString (type c)); ("notnull", VNumber (notnull c));
           ("dflt_value", dflt_value c); ("pk", VNumber (pk c))].
End ColumnMetadata.

Module ColumnDefinition.
(** [{ name: string, type: string }] *)
Record t := mk { name : string; type : string }.
End ColumnDefinition.

Section Remote.
Context {W : Type}.
(** The service: the response to a request (or none, when the fetch is
    rejected) and the state after it. *)
Variable respond : request -> W -> option Response.t * W.

Definition remoteExecute (sql : string) (params : list value) : M W (list value) :=
  fun w =>
    let (r, w') := respond (Execute sql params) w in
    Run (match r with
         | None => inl FetchFailed
         | Some response =>
             if negb (Response.ok response)
             then inl (DbError (Response.status response) (Response.text response))
             else match Response.json response with
                  | None => inl FetchFailed
                  | Some data => inr (arrayItems (normalize data))
                  end
         end) w' [Execute sql params].

Definition execQuery := remoteExecute.
Definition runQuery := remoteExecute.

(** The result is cast to [ColumnMetadata[]] unchecked: the rows stay
    what the service sent. *)
Definition getTableColumns (tableName : string) : M W (list value) :=
  let sql := "PRAGMA table_info(" +:+ str DQ +:+ doubleQuotes tableName
             +:+ str DQ +:+ ")" in
  remoteExecute sql [].

Definition dropTable (tableName : string) : M W unit :=
  let sql := "DROP TABLE IF EXISTS " +:+ str DQ +:+ doubleQuotes tableName
             +:+ str DQ in
  remoteExecute sql [] ;;; ret tt.

Definition uploadCSV (file : File) (tableName : string) (mode : UploadMode)
  : M W value :=
  fun w =>
    let (r, w') := respond (Upload file tableName mode) w in
    Run (match r with
         | None => inl FetchFailed
         | Some response =>
             if negb (Response.ok response)
             then inl (UploadFailed (Response.status response)
                         (Response.text response))
             else match Response.json response with
                  | None => inl FetchFailed
                  | Some data => inr data
                  end
         end) w' [Upload file tableName mode].

(** [createTable]: the columns after the renaming of [id]. *)
Definition processedCols (columns : list ColumnDefinition.t)
  : list ColumnDefinition.t :=
  map (fun c =>
         let cleanName := toLowerCase (trim (ColumnDefinition.name c)) in
         if String.eqb cleanName "id"
         then ColumnDefinition.mk "original_id" (ColumnDefinition.type c)
         else c) columns.

Definition colDefs (columns : list ColumnDefinition.t) : list string :=
  map (fun c => str DQ +:+ doubleQuotes (ColumnDefinition.name c) +:+ str DQ
                +:+ " " +:+ ColumnDefinition.type c)
      (processedCols columns).

Definition createTableSql (tableName : string)
    (columns : list ColumnDefinition.t) : string :=
  "CREATE TABLE " +:+ str DQ +:+ doubleQuotes tableName +:+ str DQ
  +:+ " (id INTEGER PRIMARY KEY AUTOINCREMENT, "
  +:+ join ", " (colDefs columns) +:+ ")".

Definition createTable (tableName : string)
    (columns : list ColumnDefinition.t) : M W unit :=
  remoteExecute (createTableSql tableName columns) [] ;;; ret tt.

(** [createTableFromCSV]: the headers after the renaming of [id]. *)
Definition processedHeaders (headers : list string) : list string :=
  map (fun h =>
         let clean := toLowerCase (trim h) in
         if String.eqb clean "id" then "id_original" else trim h) headers.

Definition safeHeaderNames (headers : list string) : list string :=
  map (fun h => str DQ +:+ doubleQuotes h +:+ str DQ) (processedHeaders headers).

Definition createQuery (tableName : string) (headers : list string) : string :=
  let safeTableName := str DQ +:+ doubleQuotes tableName +:+ str DQ in
  let colDefs := map (fun h => h +:+ " TEXT") (safeHeaderNames headers) in
  "CREATE TABLE " +:+ safeTableName
  +:+ " (id INTEGER PRIMARY KEY AUTOINCREMENT, "
  +:+ join ", " colDefs +:+ ")".

(** [row[h]] for an own property of the row, and for a key that the row
    has not and that no object inherits ([ordinaryKey], below). *)
Definition cell (row : gmap string value) (h : string) : value :=
  default VUndefined (row !! h).

Definition createTableFromCSV (tableName : string) (headers : list string)
    (rows : list (gmap string value)) : M W unit :=
  let safeTableName := str DQ +:+ doubleQuotes tableName +:+ str DQ in
  remoteExecute (createQuery tableName headers) [] ;;;
  forEach (fun row =>
             let placeholders := join ", " (map (fun _ => "?") headers) in
             let insertQuery :=
               "INSERT INTO " +:+ safeTableName +:+ " ("
               +:+ join ", " (safeHeaderNames headers)
               +:+ ") VALUES (" +:+ placeholders +:+ ")" in
             let vals := map (fun h => cell row h) headers in
             remoteExecute insertQuery vals ;;; ret tt) rows.
End Remote.

(** [t.name]: reading a property of [null] or of [undefined] is a
    [TypeError]; any other value has the property or gives [undefined]. *)
Definition member (key : string) (v : value) : error + value :=
  match v with
  | VNull | VUndefined => inl TypeError
  | _ => inr (getProp key v)
  end.

(** The statement of [getTableNames] (line 71). *)
Definition tableNamesSql : string :=
  "SELECT name FROM sqlite_master WHERE type=" +:+ str DQ +:+ "table" +:+ str DQ
  +:+ " AND name NOT LIKE " +:+ str DQ +:+ "sqlite_%" +:+ str DQ
  +:+ " AND name NOT LIKE " +:+ str DQ +:+ "_cf_%" +:+ str DQ.

(** The statement that the loop of [createTableFromCSV] sends for every
    row (lines 114-115). *)
Definition insertQuery (tableName : string) (headers : list string) : string :=
  let safeTableName := str DQ +:+ doubleQuotes tableName +:+ str DQ in
  let placeholders := join ", " (map (fun _ => "?") headers) in
  "INSERT INTO " +:+ safeTableName +:+ " ("
  +:+ join ", " (safeHeaderNames headers)
  +:+ ") VALUES (" +:+ placeholders +:+ ")".

Section Catalogue.
Context {W : Type}.
Variable respond : request -> W -> option Response.t * W.

Definition initDatabase : M W bool :=
  remoteExecute respond "SELECT 1" [] ;;; ret true.

(** [results] holds the rows of an array; the guard of line 74 is kept
    as it is written. *)
Definition getTableNames : M W (list value) :=
  results <- remoteExecute respond tableNamesSql [] ;;
  if negb (isArray (VArray results)) then ret []
  else lift (mapE (member "name") results).
End Catalogue.

(* ================================================================== *)
(** ** The data provider (dataProvider) *)

(** [CrudFilter]: a logical filter has a [field] and an [operator], a
    conditional filter ([or], [and]) has no [field]. *)
Inductive CrudFilter :=
| LogicalFilter (field operator : string) (value : value)
| ConditionalFilter (operator : string) (value : list CrudFilter).

(** [order: 'asc' | 'desc'] *)
Inductive SortOrder := asc | desc.

Definition orderText (o : SortOrder) : string :=
  match o with asc => "asc" | desc => "desc" end.

Module CrudSort.
Record t := mk { field : string; order : SortOrder }.
End CrudSort.

Module Pagination.
(** Both fields are optional numbers. *)
Record t := mk { currentPage : option Z; pageSize : option Z }.
End Pagination.

(** [n || d] for an optional number: [undefined] and [0] give [d]. *)
Definition numberOr (n : option Z) (d : Z) : Z :=
  match n with
  | Some k => if k =? 0 then d else k
  | None => d
  end.

(** [col.type.toUpperCase()] and [name.replace(...)] on a value that the
    unchecked cast calls a string: a [TypeError] on anything else. *)
Definition asString (v : value) : error + string :=
  match v with
  | VString s => inr s
  | _ => inl TypeError
  end.

(** The predicate of [tableCols.filter] (lines 21-24). *)
Definition isTextType (type : string) : bool :=
  let type := toUpperCase type in
  includes "TEXT" type || includes "CHAR" type || includes "CLOB" type.

Definition isSearchable (col : value) : error + bool :=
  match asString (getProp "type" col) with
  | inl e => inl e
  | inr type => inr (isTextType type)
  end.

Definition likeClause (col : value) : error + string :=
  match asString col with
  | inl e => inl e
  | inr name => inr (quote name +:+ " LIKE ?")
  end.

(** Lines 45-51. *)
Definition orderClause (sorters : option (list CrudSort.t)) : string :=
  match sorters with
  | Some ((_ :: _) as sorters) =>
      let sortParts :=
        map (fun s => quote (CrudSort.field s) +:+ " "
                      +:+ toUpperCase (orderText (CrudSort.order s))) sorters in
      " ORDER BY " +:+ join ", " sortParts
  | _ => " ORDER BY id DESC"
  end.

(** Lines 53-59. *)
Definition limitClause (pagination : option Pagination.t) : string :=
  match pagination with
  | Some pagination =>
      let currentPage := numberOr (Pagination.currentPage pagination) 1 in
      let pageSize := numberOr (Pagination.pageSize pagination) 10 in
      let offset := (currentPage - 1) * pageSize in
      " LIMIT " +:+ pretty pageSize +:+ " OFFSET " +:+ pretty offset
  | None => EmptyString
  end.

(** Lines 35-37. *)
Definition baseWhere (whereClauses : list string) : string :=
  match whereClauses with
  | [] => EmptyString
  | _ => " WHERE " +:+ join " AND " whereClauses
  end.

(** Line 43: the first truthy of [total], [count] and [COUNT( * )] of the
    first row, or [0]. *)
Definition totalOf (countResult : list value) : value :=
  let first := default VUndefined (head countResult) in
  orElse (getProp "total" first)
    (orElse (getProp "count" first)
       (orElse (getProp "COUNT(*)" first) (VNumber 0))).

Module GetListResponse.
Record t := mk { data : list value; total : value }.
End GetListResponse.

Module sqlDataProvider.
Section Remote.
Context {W : Type}.
Variable respond : request -> W -> option Response.t * W.

(** The body of the loop over the filters (lines 15-33); [acc] is the
    pair of [whereClauses] and [params]. *)
Definition filterStep (resource : string)
    (acc : list string * list value) (filter : CrudFilter)
  : M W (list string * list value) :=
  match filter with
  | LogicalFilter field _ value =>
      if String.eqb field "q" && truthy value then
        tableCols <- getTableColumns respond resource ;;
        searchable <- lift (filterE isSearchable tableCols) ;;
        let searchableCols := map (getProp "name") searchable in
        match searchableCols with
        | [] => ret acc
        | _ =>
            searchClauses <- lift (mapE likeClause searchableCols) ;;
            ret (fst acc ++ ["(" +:+ join " OR " searchClauses +:+ ")"],
                 snd acc ++ map (fun _ => VString ("%" +:+ toText value +:+ "%"))
                                searchableCols)
        end
      else ret acc
  | ConditionalFilter _ _ => ret acc
  end.

Definition getList (resource : string) (filters : option (list CrudFilter))
    (sorters : option (list CrudSort.t)) (pagination : option Pagination.t)
  : M W GetListResponse.t :=
  let safeResource := quote resource in
  acc <- foldM (filterStep resource) (default [] filters) ([], []) ;;
  let baseWhere := baseWhere (fst acc) in
  let params := snd acc in
  let countQuery :=
    "SELECT COUNT(*) as total FROM " +:+ safeResource +:+ baseWhere in
  countResult <- execQuery respond countQuery params ;;
  let total := totalOf countResult in
  let finalQuery :=
    "SELECT * FROM " +:+ safeResource +:+ baseWhere
    +:+ orderClause sorters +:+ limitClause pagination in
  data <- execQuery respond finalQuery params ;;
  ret (GetListResponse.mk data total).

Definition getOne (resource : string) (id : value) : M W value :=
  let safeResource := quote resource in
  data <- execQuery respond
            ("SELECT * FROM " +:+ safeResource +:+ " WHERE id = ?") [id] ;;
  match data with
  | [] => throw (RecordNotFound id resource)
  | first :: _ => ret first
  end.

(** [variables] is an object: its properties in enumeration order give
    [Object.keys] and [Object.values]. *)
Definition create (resource : string) (variables : list (string * value))
  : M W value :=
  let safeResource := quote resource in
  let keys := map fst variables in
  let cols := join ", " (map (fun c => quote c) keys) in
  let placeholders := join ", " (map (fun _ => "?") keys) in
  let vals := map snd variables in
  execQuery respond
    ("INSERT INTO " +:+ safeResource +:+ " (" +:+ cols +:+ ") VALUES ("
     +:+ placeholders +:+ ")") vals ;;;
  result <- execQuery respond
              ("SELECT * FROM " +:+ safeResource +:+ " ORDER BY id DESC LIMIT 1")
              [] ;;
  ret (default VUndefined (head result)).

Definition update (resource : string) (id : value)
    (variables : list (string * value)) : M W value :=
  let safeResource := quote resource in
  let keys := map fst variables in
  let setClause := join ", " (map (fun key => quote key +:+ " = ?") keys) in
  let vals := map snd variables ++ [id] in
  execQuery respond
    ("UPDATE " +:+ safeResource +:+ " SET " +:+ setClause +:+ " WHERE id = ?")
    vals ;;;
  result <- execQuery respond
              ("SELECT * FROM " +:+ safeResource +:+ " WHERE id = ?") [id] ;;
  ret (default VUndefined (head result)).

Definition deleteOne (resource : string) (id : value) : M W value :=
  let safeResource := quote resource in
  execQuery respond ("DELETE FROM " +:+ safeResource +:+ " WHERE id = ?") [id] ;;;
  ret (VObject [("id", id)]).

Definition deleteMany (resource : string) (ids : list value) : M W (list value) :=
  let safeResource := quote resource in
  let placeholders := join ", " (map (fun _ => "?") ids) in
  execQuery respond
    ("DELETE FROM " +:+ safeResource +:+ " WHERE id IN (" +:+ placeholders +:+ ")")
    ids ;;;
  ret (map (fun id => VObject [("id", id)]) ids).

Definition getApiUrl : string := EmptyString.
End Remote.
End sqlDataProvider.

(* ================================================================== *)
(** ** The CSV codec (utils/csv.ts) *)

(** [escape] of [generateCSV]. *)
Definition escape (val : value) : string :=
  match val with
  | VNull | VUndefined => EmptyString
  | _ =>
      let s := toText val in
      if hasChar COMMA s || hasChar DQ s || hasChar LF s
      then str DQ +:+ doubleQuotes s +:+ str DQ
      else s
  end.

Definition headerRow (headers : list string) : string := join "," headers.

Definition bodyRow (headers : list string) (row : gmap string value) : string :=
  join "," (map (fun header => escape (cell row header)) headers).

Definition generateCSV (data : list (gmap string value)) (headers : list string)
  : string :=
  let bodyRows := join (str LF) (map (bodyRow headers) data) in
  headerRow headers +:+ str LF +:+ bodyRows.

(** Puts a character in front of the first line. *)
Definition consLine (c : ascii) (lines : list string) : list string :=
  match lines with
  | [] => [str c]
  | line :: rest => String c line :: rest
  end.

(** [text.split(/\r?\n/)]: a line ends at a line feed, and a carriage
    return just before that line feed goes with it. *)
Fixpoint splitLines (text : string) : list string :=
  match text with
  | EmptyString => [EmptyString]
  | String c rest =>
      if Ascii.eqb c LF then EmptyString :: splitLines rest
      else if Ascii.eqb c CR then
        match rest with
        | String d rest' =>
            if Ascii.eqb d LF then EmptyString :: splitLines rest'
            else consLine c (splitLines rest)
        | EmptyString => consLine c (splitLines rest)
        end
      else consLine c (splitLines rest)
  end.

(** The loop of [parseLine] from position [i] on: [line] is what is left
    from [i], [cur], [inQuote] and [result] are the loop's variables. *)
Fixpoint parseLineFrom (line cur : string) (inQuote : bool)
    (result : list string) : list string :=
  match line with
  | EmptyString => result ++ [cur]
  | String char rest =>
      if Ascii.eqb char DQ then
        match rest with
        | String next rest' =>
            if Ascii.eqb next DQ
            then parseLineFrom rest' (cur +:+ str DQ) inQuote result
            else parseLineFrom rest cur (negb inQuote) result
        | EmptyString => parseLineFrom rest cur (negb inQuote) result
        end
      else if Ascii.eqb char COMMA && negb inQuote
      then parseLineFrom rest EmptyString inQuote (result ++ [cur])
      else parseLineFrom rest (cur +:+ str char) inQuote result
  end.

Definition parseLine (line : string) : list string :=
  parseLineFrom line EmptyString false [].

(** [headers.forEach((h, i) => obj[h] = values[i]?.trim())] from index [i].
    The key [__proto__] is an accessor that every object inherits and
    that ignores a text and [undefined]: the assignment stores nothing
    under it.  Under any other key it makes an own property. *)
Fixpoint fillRow (headers : list string) (i : nat) (values : list string)
    (obj : gmap string value) : gmap string value :=
  match headers with
  | [] => obj
  | h :: rest =>
      let v := match values !! i with
               | Some s => VString (trim s)
               | None => VUndefined
               end in
      fillRow rest (S i) values
        (if String.eqb h "__proto__" then obj else <[h := v]> obj)
  end.

Module ParsedCSV.
Record t := mk { headers : list string; rows : list (gmap string value) }.
End ParsedCSV.

Definition parseCSV (text : string) : ParsedCSV.t :=
  let lines := filter (fun line => trim line <> EmptyString) (splitLines text) in
  match lines with
  | [] => ParsedCSV.mk [] []
  | first :: others =>
      let headers := map trim (parseLine first) in
      let rows := map (fun line => fillRow headers 0 (parseLine line) ∅) others in
      ParsedCSV.mk headers rows
  end.

(* ================================================================== *)
(** ** The importer (components/ImportModal.tsx) *)

(** [mode: 'append' | 'replace'] of the modal. *)
Inductive ImportMode := ImportAppend | ImportReplace.

(** How [validateAndImport] ends: it returns at once without a file, calls
    [onSuccess] with the number of rows, or shows the error. *)
Inductive ImportResult :=
| NothingToImport
| OnSuccess (count : value)
| Alert (err : error).

(** [try { body } catch (err) { handler(err) }] *)
Definition tryCatch {W A} (body : M W A) (handler : error -> M W A) : M W A :=
  fun w =>
    match body w with
    | Run (inl e) w1 t1 =>
        match handler e w1 with
        | Run r w2 t2 => Run r w2 (t1 ++ t2)
        end
    | r => r
    end.

Section ImportModal.
Context {W : Type}.
Variable respond : request -> W -> option Response.t * W.

Definition validateAndImport (resource : string) (file : option File)
    (fileData : option ParsedCSV.t) (mode : ImportMode) : M W ImportResult :=
  match file, fileData with
  | Some file, Some _ =>
      tryCatch
        ((match mode with
          | ImportReplace =>
              let safeResource := str DQ +:+ doubleQuotes resource +:+ str DQ in
              execQuery respond ("DELETE FROM " +:+ safeResource) [] ;;; ret tt
          | ImportAppend => ret tt
          end) ;;;
         result <- uploadCSV respond file resource UploadAppend ;;
         match result with
         | VNull | VUndefined => throw TypeError
         | _ => ret (OnSuccess (getProp "rows_inserted" result))
         end)
        (fun err => ret (Alert err))
  | _, _ => ret NothingToImport
  end.
End ImportModal.

(* ================================================================== *)
(** ** The dialog that creates a table (components/AddTableModal) *)

Definition isLetter (c : ascii) : bool :=
  let n := nat_of_ascii c in
  ((65 <=? n)%nat && (n <=? 90)%nat) || ((97 <=? n)%nat && (n <=? 122)%nat).

Definition isDigit (c : ascii) : bool :=
  let n := nat_of_ascii c in (48 <=? n)%nat && (n <=? 57)%nat.

Definition isUnderscore (c : ascii) : bool := Ascii.eqb c "_"%char.

(** The class [[a-zA-Z0-9_]]. *)
Definition isWordChar (c : ascii) : bool :=
  isLetter c || isDigit c || isUnderscore c.

Fixpoint allChars (p : ascii -> bool) (s : string) : bool :=
  match s with
  | EmptyString => true
  | String c s' => p c && allChars p s'
  end.

(** The test of line 43: a letter or an underscore, then letters, digits
    and underscores up to the end of the text. *)
Definition isIdentifier (s : string) : bool :=
  match s with
  | EmptyString => false
  | String c rest => (isLetter c || isUnderscore c) && allChars isWordChar rest
  end.

(** The first of the parts that the dots of a text separate. *)
Fixpoint beforeDot (s : string) : string :=
  match s with
  | EmptyString => EmptyString
  | String c s' =>
      if Ascii.eqb c "."%char then EmptyString else String c (beforeDot s')
  end.

(** The replacement of line 90: an underscore goes in front of a text
    that starts with a digit. *)
Definition prefixDigit (s : string) : string :=
  match s with
  | String c _ => if isDigit c then String "_"%char s else s
  | EmptyString => s
  end.

Module AddTableModal.

(** How a handler of the dialog ends: with an alert that shows a message,
    with an alert that shows the message of an exception after some words,
    or with a call of [onSuccess]. *)
Inductive Outcome :=
| Alerted (message : string)
| Failed (words : string) (err : error)
| Created (finalName : string).

(** What [handleFileChange] does with a file: an alert, or a new state of
    [csvData] and [tableName]. *)
Inductive FileChange :=
| FileRefused (message : string)
| FileLoaded (csvData : ParsedCSV.t) (tableName : string).

Definition handleAddColumn (columns : list ColumnDefinition.t)
  : list ColumnDefinition.t :=
  columns ++ [ColumnDefinition.mk EmptyString "TEXT"].

(** [columns.filter((_, i) => i !== index)], when there are two columns
    or more. *)
Definition handleRemoveColumn (index : nat) (columns : list ColumnDefinition.t)
  : list ColumnDefinition.t :=
  if (1 <? length columns)%nat then delete index columns else columns.

(** Lines 88-91. *)
Definition suggestedName (fileName : string) : string :=
  toLowerCase
    (prefixDigit
       (mapChars (fun c => if isWordChar c then c else "_"%char)
          (beforeDot fileName))).

Definition handleFileChange (file : option File) : option FileChange :=
  match file with
  | None => None
  | Some file =>
      let parsed := parseCSV (fileText file) in
      match ParsedCSV.headers parsed with
      | [] => Some (FileRefused "Invalid CSV: No headers found")
      | _ => Some (FileLoaded parsed (suggestedName (fileName file)))
      end
  end.

Section Remote.
Context {W : Type}.
Variable respond : request -> W -> option Response.t * W.

(** The message of the error, or [None] for [null]. *)
Definition validateTableName (name : string) : M W (option string) :=
  let trimmedName := trim name in
  if isEmpty trimmedName then ret (Some "Table name is required")
  else if negb (isIdentifier trimmedName)
  then ret (Some "Invalid name (use letters/numbers/underscores only)")
  else
    tables <- getTableNames respond ;;
    lowered <- lift (mapE (fun t => match asString t with
                                    | inl e => inl e
                                    | inr s => inr (toLowerCase s)
                                    end) tables) ;;
    if bool_decide (toLowerCase trimmedName ∈ lowered)
    then ret (Some "Table already exists")
    else ret None.

Definition handleManualCreate (tableName : string)
    (columns : list ColumnDefinition.t) : M W Outcome :=
  error <- validateTableName tableName ;;
  match error with
  | Some message => ret (Alerted message)
  | None =>
      let validCols :=
        filter (fun c => trim (ColumnDefinition.name c) <> EmptyString) columns in
      match validCols with
      | [] => ret (Alerted "At least one column name is required")
      | _ =>
          let finalName := toLowerCase (trim tableName) in
          tryCatch
            (createTable respond finalName validCols ;;; ret (Created finalName))
            (fun err => ret (Failed "Error creating table: " err))
      end
  end.

Definition handleCsvCreate (tableName : string) (csvData : option ParsedCSV.t)
  : M W Outcome :=
  error <- validateTableName tableName ;;
  match error with
  | Some message => ret (Alerted message)
  | None =>
      match csvData with
      | None => ret (Alerted "Please upload a CSV file first")
      | Some csvData =>
          let finalName := toLowerCase (trim tableName) in
          tryCatch
            (createTableFromCSV respond finalName (ParsedCSV.headers csvData)
               (ParsedCSV.rows csvData) ;;;
             ret (Created finalName))
            (fun err => ret (Failed "Error creating table from CSV: " err))
      end
  end.
End Remote.
End AddTableModal.

(* ================================================================== *)
(** ** The list screen (components/ResourceList.tsx) *)

Module ResourceList.

Definition PAGE_SIZE : Z := 25.

(** The filters that the search box sets (line 95). *)
Definition searchFilters (searchValue : string) : list CrudFilter :=
  if truthy (VString searchValue)
  then [LogicalFilter "q" "contains" (VString searchValue)]
  else [].

(** The sorters after a click on the header of [field] (lines 149-160). *)
Definition handleSort (field : string) (prev : list CrudSort.t)
  : list CrudSort.t :=
  let existingSort :=
    List.find (fun s => String.eqb (CrudSort.field s) field) prev in
  match option_map CrudSort.order existingSort with
  | Some asc => [CrudSort.mk field desc]
  | Some desc => []
  | None => [CrudSort.mk field asc]
  end.
End ResourceList.

(* ================================================================== *)
(** * Specification vocabulary

    Definitions that follow the words of the specification, to state its
    properties against the code above. *)

(** The normalisation as the specification words it: the body when it is
    an array; for an object, the array under the first of [results],
    [data], [rows] that holds one; failing that the object itself as a
    single row when it has a property; the empty sequence otherwise. *)
Definition normalizeAsSpecified (data : value) : value :=
  match data with
  | VArray _ => data
  | VObject props =>
      match filter (fun v => isArray v = true)
              [getProp "results" data; getProp "data" data; getProp "rows" data]
      with
      | rows :: _ => rows
      | [] => match props with [] => VArray [] | _ => VArray [data] end
      end
  | _ => VArray []
  end.

(** A column is named [id] when its name is [id] in any letter case, as
    SQL compares identifiers. *)
Definition namedId (name : string) : Prop := toLowerCase name = "id".

#[global] Instance namedId_dec (name : string) : Decision (namedId name).
Proof. unfold namedId. apply _. Defined.

(** The columns that the CREATE TABLE statement of [createTable]
    declares: the surrogate key, then one column per processed column. *)
Definition createTableColumns (columns : list ColumnDefinition.t) : list string :=
  "id" :: map ColumnDefinition.name (processedCols columns).

(** The columns that the CREATE TABLE statement of [createTableFromCSV]
    declares: the surrogate key, then one column per processed header. *)
Definition createTableFromCSVColumns (headers : list string) : list string :=
  "id" :: processedHeaders headers.

(** The phase of [getList] that builds the WHERE clauses and the
    parameters (lines 12-34). *)
Definition whereOf {W : Type} (respond : request -> W -> option Response.t * W)
    (resource : string) (filters : option (list CrudFilter))
  : M W (list string * list value) :=
  foldM (sqlDataProvider.filterStep respond resource) (default [] filters) ([], []).

(** A service with one table of three columns, two of them of a text
    type: it answers the column query with the three columns, a COUNT
    query with the row [{total: 3}], and any other statement with the row
    [{id: 1}] when its text has [OFFSET 0] and with no row otherwise. *)
Definition demoColumns : list ColumnMetadata.t :=
  [ColumnMetadata.mk 0 "title" "TEXT" 0 VNull 0;
   ColumnMetadata.mk 1 "price" "INTEGER" 0 VNull 0;
   ColumnMetadata.mk 2 "note" "varchar(20)" 0 VNull 0].

Definition demoService (req : request) (w : unit) : option Response.t * unit :=
  let rows :=
    match req with
    | Execute sql _ =>
        if includes "PRAGMA" sql then map ColumnMetadata.toRow demoColumns
        else if includes "COUNT" sql then [VObject [("total", VNumber 3)]]
        else if includes "OFFSET 0" sql then [VObject [("id", VNumber 1)]]
        else []
    | Upload _ _ _ => []
    end in
  (Some (Response.mk true 200 EmptyString (Some (VArray rows))), w).

(** A service that refuses every request with the status 500. *)
Definition failingService (req : request) (w : unit) : option Response.t * unit :=
  (Some (Response.mk false 500 "no such table" None), w).

(** The columns of a text-like type: the declared type has TEXT, CHAR or
    CLOB in it, in any letter case. *)
Definition textColumns (cols : list ColumnMetadata.t) : list ColumnMetadata.t :=
  List.filter (fun c => isTextType (ColumnMetadata.type c)) cols.

(** One LIKE predicate per text-like column. *)
Definition likePredicates (cols : list ColumnMetadata.t) : list string :=
  map (fun c => quote (ColumnMetadata.name c) +:+ " LIKE ?") (textColumns cols).

(** The WHERE text of a free-text search: the predicates joined with OR,
    and no WHERE at all for a table without a text-like column. *)
Definition searchWhere (cols : list ColumnMetadata.t) : string :=
  match textColumns cols with
  | [] => EmptyString
  | _ => " WHERE (" +:+ join " OR " (likePredicates cols) +:+ ")"
  end.

(** The parameters of a free-text search for [v]: the pattern [%v%], once
    per predicate. *)
Definition searchParams (cols : list ColumnMetadata.t) (v : value) : list value :=
  map (fun _ => VString ("%" +:+ toText v +:+ "%")) (textColumns cols).

(** A row of the column query describes a column when it carries its
    name and its declared type. *)
Definition describes (row : value) (c : ColumnMetadata.t) : Prop :=
  getProp "name" row = VString (ColumnMetadata.name c) /\
  getProp "type" row = VString (ColumnMetadata.type c).

(** The service, in state [w], reports the columns [cols] for a table. *)
Definition columnsOf {W : Type} (respond : request -> W -> option Response.t * W)
    (resource : string) (w : W) (cols : list ColumnMetadata.t) : Prop :=
  exists rows,
    outcome (getTableColumns respond resource w) = inr rows /\
    Forall2 describes rows cols.

(** The text of a statement. *)
Definition sqlOf (req : request) : string :=
  match req with
  | Execute sql _ => sql
  | Upload _ _ _ => EmptyString
  end.

(** The bound parameters of a statement. *)
Definition paramsOf (req : request) : list value :=
  match req with
  | Execute _ params => params
  | Upload _ _ _ => []
  end.

(** *** Parameterised statements

    The text of a parameterised statement is made of four kinds of
    pieces: a keyword, which is a fixed fragment of the program text; a
    name, which is written quoted; a placeholder for a bound parameter;
    and a number written in decimal. *)
Inductive piece :=
| Keyword (text : string)
| Name (name : string)
| Placeholder
| Number (n : Z).

Definition renderPiece (p : piece) : string :=
  match p with
  | Keyword text => text
  | Name name => quote name
  | Placeholder => "?"
  | Number n => pretty n
  end.

Fixpoint render (tpl : list piece) : string :=
  match tpl with
  | [] => EmptyString
  | p :: rest => renderPiece p +:+ render rest
  end.

Definition isPlaceholder (p : piece) : bool :=
  match p with Placeholder => true | _ => false end.

Definition placeholders (tpl : list piece) : nat :=
  length (List.filter isPlaceholder tpl).

(** Groups of pieces with a separator keyword between them. *)
Fixpoint joinPieces (sep : string) (groups : list (list piece)) : list piece :=
  match groups with
  | [] => []
  | [g] => g
  | g :: rest => g ++ Keyword sep :: joinPieces sep rest
  end.

(** The fixed fragments of SQL in the text of the data provider. *)
Definition sqlKeywords : list string :=
  ["SELECT * FROM "; "SELECT COUNT(*) as total FROM "; "PRAGMA table_info(";
   " WHERE "; " AND "; " OR "; "("; ")"; " LIKE "; ", "; " = ";
   " ORDER BY "; " ORDER BY id DESC"; " ASC"; " DESC"; " LIMIT "; " OFFSET ";
   " WHERE id = "; " WHERE id IN ("; " ORDER BY id DESC LIMIT 1";
   "INSERT INTO "; " ("; ") VALUES ("; "UPDATE "; " SET "; "DELETE FROM "].

(** A call of the data provider. *)
Inductive operation :=
| GetList (resource : string) (filters : option (list CrudFilter))
    (sorters : option (list CrudSort.t)) (pagination : option Pagination.t)
| GetOne (resource : string) (id : value)
| Create (resource : string) (variables : list (string * value))
| Update (resource : string) (id : value) (variables : list (string * value))
| DeleteOne (resource : string) (id : value)
| DeleteMany (resource : string) (ids : list value).

(** The requests that a call sends. *)
Definition requestsOf {W : Type} (respond : request -> W -> option Response.t * W)
    (op : operation) (w : W) : list request :=
  match op with
  | GetList resource filters sorters pagination =>
      sent (sqlDataProvider.getList respond resource filters sorters pagination w)
  | GetOne resource id => sent (sqlDataProvider.getOne respond resource id w)
  | Create resource variables =>
      sent (sqlDataProvider.create respond resource variables w)
  | Update resource id variables =>
      sent (sqlDataProvider.update respond resource id variables w)
  | DeleteOne resource id => sent (sqlDataProvider.deleteOne respond resource id w)
  | DeleteMany resource ids =>
      sent (sqlDataProvider.deleteMany respond resource ids w)
  end.

Definition resourceOf (op : operation) : string :=
  match op with
  | GetList resource _ _ _ | GetOne resource _ | Create resource _
  | Update resource _ _ | DeleteOne resource _ | DeleteMany resource _ => resource
  end.

(** The table and column names that a call carries. *)
Definition identifiers (op : operation) : list string :=
  resourceOf op ::
  match op with
  | GetList _ _ sorters _ => map CrudSort.field (default [] sorters)
  | Create _ variables | Update _ _ variables => map fst variables
  | _ => []
  end.

(** The values of the filters that the loop of [getList] looks at. *)
Definition filterValues (filters : list CrudFilter) : list value :=
  flat_map (fun f => match f with
                     | LogicalFilter _ _ v => [v]
                     | ConditionalFilter _ _ => []
                     end) filters.

(** The values that a call carries, as they are bound: an id, the value
    of a field, the pattern [%v%] of a filter value [v]. *)
Definition boundValues (op : operation) : list value :=
  match op with
  | GetList _ filters _ _ =>
      map (fun v => VString ("%" +:+ toText v +:+ "%"))
        (filterValues (default [] filters))
  | GetOne _ id | DeleteOne _ id => [id]
  | Create _ variables => map snd variables
  | Update _ id variables => id :: map snd variables
  | DeleteMany _ ids => ids
  end.

(** The numbers derived from the pagination of a list. *)
Definition pageNumbers (op : operation) : list Z :=
  match op with
  | GetList _ _ _ (Some pagination) =>
      let currentPage := numberOr (Pagination.currentPage pagination) 1 in
      let pageSize := numberOr (Pagination.pageSize pagination) 10 in
      [pageSize; (currentPage - 1) * pageSize]
  | _ => []
  end.

(** A column name that the service reports for a table. *)
Definition reportedColumn {W : Type}
    (respond : request -> W -> option Response.t * W)
    (resource name : string) : Prop :=
  exists w cols col,
    outcome (getTableColumns respond resource w) = inr cols /\
    col ∈ cols /\ getProp "name" col = VString name.

Definition allowedPiece {W : Type}
    (respond : request -> W -> option Response.t * W)
    (op : operation) (p : piece) : Prop :=
  match p with
  | Keyword text => text ∈ sqlKeywords
  | Name name =>
      name ∈ identifiers op \/ reportedColumn respond (resourceOf op) name
  | Placeholder => True
  | Number n => n ∈ pageNumbers op
  end.

(** A request of a call is parameterised when it is a statement whose
    text is made of keywords, of quoted names that are identifiers of the
    call or columns of its table, of placeholders, and of page numbers,
    and whose parameters are values of the call, one per placeholder. *)
Definition parameterised {W : Type}
    (respond : request -> W -> option Response.t * W)
    (op : operation) (req : request) : Prop :=
  exists tpl params,
    req = Execute (render tpl) params /\
    Forall (allowedPiece respond op) tpl /\
    placeholders tpl = length params /\
    Forall (fun v => v ∈ boundValues op) params.

(** The pieces of the clauses of [getList]. *)
Definition groupPieces (names : list string) : list piece :=
  Keyword "(" ::
  joinPieces " OR " (map (fun n => [Name n; Keyword " LIKE "; Placeholder]) names)
  ++ [Keyword ")"].

Definition wherePieces (groups : list (list string)) : list piece :=
  match groups with
  | [] => []
  | _ => Keyword " WHERE " :: joinPieces " AND " (map groupPieces groups)
  end.

Definition orderPieces (sorters : option (list CrudSort.t)) : list piece :=
  match sorters with
  | Some ((_ :: _) as sorters) =>
      Keyword " ORDER BY " ::
      joinPieces ", "
        (map (fun s => [Name (CrudSort.field s);
                        Keyword (match CrudSort.order s with
                                 | asc => " ASC"
                                 | desc => " DESC"
                                 end)]) sorters)
  | _ => [Keyword " ORDER BY id DESC"]
  end.

Definition limitPieces (pagination : option Pagination.t) : list piece :=
  match pagination with
  | Some pagination =>
      let currentPage := numberOr (Pagination.currentPage pagination) 1 in
      let pageSize := numberOr (Pagination.pageSize pagination) 10 in
      [Keyword " LIMIT "; Number pageSize;
       Keyword " OFFSET "; Number ((currentPage - 1) * pageSize)]
  | None => []
  end.

(** What the loop over the filters keeps true of its accumulator: the
    clauses are the groups of LIKE predicates of reported columns, and the
    parameters are filter patterns, one per predicate. *)
Definition whereInvariant {W : Type}
    (respond : request -> W -> option Response.t * W)
    (op : operation) (acc : list string * list value) : Prop :=
  exists groups : list (list string),
    fst acc = map (fun g => render (groupPieces g)) groups /\
    Forall (Forall (reportedColumn respond (resourceOf op))) groups /\
    length (snd acc) = sum_list_with length groups /\
    Forall (fun v => v ∈ boundValues op) (snd acc).

(** *** The CSV codec *)

(** The text of a cell: nothing for [null] and [undefined], [String(v)]
    for another value. *)
Definition textOf (v : value) : string :=
  match v with
  | VNull | VUndefined => EmptyString
  | _ => toText v
  end.

Definition cellText (row : gmap string value) (h : string) : string :=
  textOf (cell row h).

(** A field as [generateCSV] writes it: between double quotes, with its
    double quotes doubled, when it has a comma, a double quote or a line
    feed, and as it is otherwise. *)
Definition quoteField (s : string) : string :=
  if hasChar COMMA s || hasChar DQ s || hasChar LF s
  then str DQ +:+ doubleQuotes s +:+ str DQ
  else s.

(** A text made of double quotes only, and of one at least. *)
Fixpoint onlyQuotes (s : string) : bool :=
  match s with
  | EmptyString => false
  | String c EmptyString => Ascii.eqb c DQ
  | String c s' => Ascii.eqb c DQ && onlyQuotes s'
  end.

(** A text whose first character is a double quote. *)
Definition startsWithDQ (s : string) : bool :=
  match s with
  | String c _ => Ascii.eqb c DQ
  | EmptyString => false
  end.

(** A text whose last character is a carriage return. *)
Fixpoint endsWithCR (s : string) : bool :=
  match s with
  | EmptyString => false
  | String c EmptyString => Ascii.eqb c CR
  | String _ s' => endsWithCR s'
  end.

(** No white space in front and none at the end. *)
Definition trimmed (s : string) : Prop := trimStart s = s /\ trimEnd s = s.

(** A header that the codec carries over: no comma, double quote or line
    feed, no white space around it. *)
Definition headerOk (h : string) : Prop :=
  hasChar COMMA h = false /\ hasChar DQ h = false /\ hasChar LF h = false /\
  trimmed h.

(** A cell text that the codec carries over; it may have commas and
    double quotes. *)
Definition cellOk (s : string) : Prop :=
  hasChar LF s = false /\ trimmed s /\ onlyQuotes s = false.

(** Rows for the examples. *)
Definition rowOf (cells : list (string * value)) : gmap string value :=
  list_to_map cells.

(** *** The statements of a table creation *)

(** The requests of a complete run of [createTableFromCSV]: the CREATE
    TABLE statement, then one INSERT per row, which binds the cells of the
    row in the order of the headers. *)
Definition createTableFromCSVStatements (tableName : string)
    (headers : list string) (rows : list (gmap string value)) : list request :=
  Execute (createQuery tableName headers) [] ::
  map (fun row => Execute (insertQuery tableName headers)
                    (map (fun h => cell row h) headers)) rows.

(** A service with the two tables [Users] and [orders]: it answers the
    query for the table names with their rows under the key [results],
    and any other request with no row. *)
Definition tablesService (req : request) (w : unit) : option Response.t * unit :=
  let body :=
    match req with
    | Execute sql _ =>
        if String.eqb sql tableNamesSql
        then VObject [("results", VArray [VObject [("name", VString "Users")];
                                          VObject [("name", VString "orders")]])]
        else VArray []
    | Upload _ _ _ => VArray []
    end in
  (Some (Response.mk true 200 EmptyString (Some body)), w).

(** *** The range on which the model is exact *)

(** A character of the ASCII range. *)
Definition isAscii (c : ascii) : bool := (nat_of_ascii c <? 128)%nat.

(** A text of the ASCII range.  On such a text the white space that
    [trim] removes and the letters that [toLowerCase] and [toUpperCase]
    change are those of the code. *)
Definition asciiText (s : string) : Prop := allChars isAscii s = true.

(** A whole number of the safe range: the code computes it exactly and
    prints it in decimal digits. *)
Definition safeInteger (n : Z) : Prop := - 2 ^ 53 < n < 2 ^ 53.

(** A value whose text [String(v)] is the one of [toText]: a text, a
    boolean, [null], [undefined], a whole number of the safe range. *)
Definition exactText (v : value) : Prop :=
  match v with
  | VNumber n => safeInteger n
  | VArray _ | VObject _ => False
  | _ => True
  end.

(** A pagination whose page, size and offset are whole numbers of the
    safe range. *)
Definition exactPagination (pagination : option Pagination.t) : Prop :=
  match pagination with
  | Some pagination =>
      let currentPage := numberOr (Pagination.currentPage pagination) 1 in
      let pageSize := numberOr (Pagination.pageSize pagination) 10 in
      safeInteger currentPage /\ safeInteger pageSize /\
      safeInteger ((currentPage - 1) * pageSize)
  | None => True
  end.

(** A call whose numbers and filter values are in that range. *)
Definition exactOperation (op : operation) : Prop :=
  match op with
  | GetList _ filters _ pagination =>
      Forall exactText (filterValues (default [] filters)) /\
      exactPagination pagination
  | _ => True
  end.

(** The keys that every object inherits from [Object.prototype]. *)
Definition objectPrototypeKeys : list string :=
  ["__proto__"; "constructor"; "hasOwnProperty"; "isPrototypeOf";
   "propertyIsEnumerable"; "toLocaleString"; "toString"; "valueOf";
   "__defineGetter__"; "__defineSetter__"; "__lookupGetter__";
   "__lookupSetter__"].

(** A key that no object inherits: reading it gives the own property, or
    [undefined]. *)
Definition ordinaryKey (h : string) : Prop := h ∉ objectPrototypeKeys.

(** *** Reading a CREATE TABLE statement

    The columns that a statement declares are read off its text, as SQL
    reads it: after [CREATE TABLE] and the quoted name of the table, the
    list between the outer parentheses is cut at the commas that stand
    outside quotes and parentheses, and every part begins with the name
    of its column, which is a word or a quoted identifier. *)

Fixpoint stripPrefix (prefix s : string) : option string :=
  match prefix, s with
  | EmptyString, _ => Some s
  | String c p, String d s' => if Ascii.eqb c d then stripPrefix p s' else None
  | String _ _, EmptyString => None
  end.

(** The text without its last character, which must be [c]. *)
Fixpoint stripLast (c : ascii) (s : string) : option string :=
  match s with
  | EmptyString => None
  | String d EmptyString => if Ascii.eqb d c then Some EmptyString else None
  | String d s' => option_map (String d) (stripLast c s')
  end.

(** The identifier up to the closing quote, a pair of quotes standing for
    one, and the text after the closing quote. *)
Fixpoint readQuotedBody (s : string) : option (string * string) :=
  match s with
  | EmptyString => None
  | String c rest =>
      if Ascii.eqb c DQ then
        match rest with
        | String d rest' =>
            if Ascii.eqb d DQ
            then match readQuotedBody rest' with
                 | Some (name, k) => Some (String DQ name, k)
                 | None => None
                 end
            else Some (EmptyString, rest)
        | EmptyString => Some (EmptyString, EmptyString)
        end
      else match readQuotedBody rest with
           | Some (name, k) => Some (String c name, k)
           | None => None
           end
  end.

(** A quoted identifier at the head of a text, and the text after it. *)
Definition readQuoted (s : string) : option (string * string) :=
  match s with
  | String c body => if Ascii.eqb c DQ then readQuotedBody body else None
  | EmptyString => None
  end.

(** The parts of a list, cut at the commas that stand outside quotes and
    outside parentheses; [cur] is the part being read. *)
Fixpoint cutAtCommas (s cur : string) (inQuote : bool) (depth : nat)
  : list string :=
  match s with
  | EmptyString => [cur]
  | String c rest =>
      if Ascii.eqb c DQ
      then cutAtCommas rest (cur +:+ str c) (negb inQuote) depth
      else if inQuote then cutAtCommas rest (cur +:+ str c) inQuote depth
      else if Ascii.eqb c "("%char
      then cutAtCommas rest (cur +:+ str c) inQuote (S depth)
      else if Ascii.eqb c ")"%char
      then cutAtCommas rest (cur +:+ str c) inQuote (Nat.pred depth)
      else if Ascii.eqb c COMMA && (depth =? 0)%nat
      then cur :: cutAtCommas rest EmptyString inQuote depth
      else cutAtCommas rest (cur +:+ str c) inQuote depth
  end.

Fixpoint dropSpaces (s : string) : string :=
  match s with
  | String c s' => if Ascii.eqb c " "%char then dropSpaces s' else s
  | EmptyString => EmptyString
  end.

Fixpoint upToSpace (s : string) : string :=
  match s with
  | String c s' =>
      if Ascii.eqb c " "%char then EmptyString else String c (upToSpace s')
  | EmptyString => EmptyString
  end.

(** The name of the column that a part of the list defines. *)
Definition columnNameOf (def : string) : option string :=
  match dropSpaces def with
  | EmptyString => None
  | String c rest =>
      if Ascii.eqb c DQ then option_map fst (readQuoted (String c rest))
      else Some (upToSpace (String c rest))
  end.

Fixpoint columnNames (defs : list string) : option (list string) :=
  match defs with
  | [] => Some []
  | def :: rest =>
      match columnNameOf def, columnNames rest with
      | Some name, Some names => Some (name :: names)
      | _, _ => None
      end
  end.

(** The columns that a CREATE TABLE statement declares, in order. *)
Definition declaredColumns (sql : string) : option (list string) :=
  match stripPrefix "CREATE TABLE " sql with
  | None => None
  | Some afterKeyword =>
      match readQuoted afterKeyword with
      | None => None
      | Some (_, afterName) =>
          match stripPrefix " (" afterName with
          | None => None
          | Some body =>
              match stripLast ")"%char body with
              | None => None
              | Some list => columnNames (cutAtCommas list EmptyString false 0)
              end
          end
      end
  end.

(** The name of a type, as the dialog offers them: letters, digits,
    underscores and spaces. *)
Definition plainType (type : string) : Prop :=
  allChars (fun c => isWordChar c || Ascii.eqb c " "%char) type = true.

(** The definition of a column: its quoted name and its type. *)
Definition columnDef (column : string * string) : string :=
  quote column.1 +:+ " " +:+ column.2.

(* ================================================================== *)
(** * Properties *)

(** ** The model at work *)

Example quote_example :
  quote ("my" +:+ str DQ +:+ "table")
  = str DQ +:+ "my" +:+ str DQ +:+ str DQ +:+ "table" +:+ str DQ.
Proof. reflexivity. Qed.

Example trim_example :
  trim ("  a b " +:+ str CR +:+ str LF) = "a b".
Proof. reflexivity. Qed.

Example isTextType_example :
  map isTextType ["TEXT"; "varchar(20)"; "Clob"; "INTEGER"; "REAL"; EmptyString]
  = [true; true; true; false; false; false].
Proof. reflexivity. Qed.

Example orderClause_example :
  orderClause (Some [CrudSort.mk "name" asc; CrudSort.mk "age" desc])
  = " ORDER BY " +:+ quote "name" +:+ " ASC, " +:+ quote "age" +:+ " DESC".
Proof. reflexivity. Qed.

Example limitClause_example :
  map limitClause
    [None; Some (Pagination.mk None None); Some (Pagination.mk (Some 3) (Some 25));
     Some (Pagination.mk (Some 0) (Some 0))]
  = [EmptyString; " LIMIT 10 OFFSET 0"; " LIMIT 25 OFFSET 50";
     " LIMIT 10 OFFSET 0"].
Proof. vm_compute. reflexivity. Qed.

Example totalOf_example :
  map totalOf
    [[VObject [("total", VNumber 7)]]; [VObject [("count", VNumber 4)]];
     [VObject [("COUNT(*)", VNumber 2)]]; [VObject [("total", VNumber 0)]]; []]
  = [VNumber 7; VNumber 4; VNumber 2; VNumber 0; VNumber 0].
Proof. reflexivity. Qed.

Example getList_example :
  sent (sqlDataProvider.getList demoService "t"
          (Some [LogicalFilter "q" "contains" (VString "ab");
                 LogicalFilter "price" "eq" (VNumber 3)])
          (Some [CrudSort.mk "title" asc])
          (Some (Pagination.mk (Some 2) None)) tt)
  = [Execute ("PRAGMA table_info(" +:+ quote "t" +:+ ")") [];
     Execute ("SELECT COUNT(*) as total FROM " +:+ quote "t" +:+ " WHERE ("
              +:+ quote "title" +:+ " LIKE ? OR " +:+ quote "note" +:+ " LIKE ?)")
       [VString "%ab%"; VString "%ab%"];
     Execute ("SELECT * FROM " +:+ quote "t" +:+ " WHERE ("
              +:+ quote "title" +:+ " LIKE ? OR " +:+ quote "note"
              +:+ " LIKE ?) ORDER BY " +:+ quote "title"
              +:+ " ASC LIMIT 10 OFFSET 10")
       [VString "%ab%"; VString "%ab%"]].
Proof. vm_compute. reflexivity. Qed.

Example update_example :
  sent (sqlDataProvider.update demoService "t" (VNumber 4)
          [("title", VString "x"); ("price", VNumber 2)] tt)
  = [Execute ("UPDATE " +:+ quote "t" +:+ " SET " +:+ quote "title" +:+ " = ?, "
              +:+ quote "price" +:+ " = ? WHERE id = ?")
       [VString "x"; VNumber 2; VNumber 4];
     Execute ("SELECT * FROM " +:+ quote "t" +:+ " WHERE id = ?") [VNumber 4]].
Proof. vm_compute. reflexivity. Qed.

Example generateCSV_example :
  generateCSV [rowOf [("a", VString "x,y"); ("b", VNumber 2)];
               rowOf [("a", VNull)]] ["a"; "b"]
  = "a,b" +:+ str LF +:+ str DQ +:+ "x,y" +:+ str DQ +:+ ",2" +:+ str LF +:+ ",".
Proof. vm_compute. reflexivity. Qed.

Example parseCSV_example :
  let parsed :=
    parseCSV (" name , n " +:+ str CR +:+ str LF +:+ str LF
              +:+ str DQ +:+ "a,b" +:+ str DQ +:+ ", 1" +:+ str LF +:+ "c") in
  ParsedCSV.headers parsed = ["name"; "n"] /\
  map (fun r => (r !! "name", r !! "n")) (ParsedCSV.rows parsed)
  = [(Some (VString "a,b"), Some (VString "1"));
     (Some (VString "c"), Some VUndefined)].
Proof. vm_compute. split; reflexivity. Qed.

(** ** Identifier quoting *)

Lemma append_cons (c : ascii) (s t : string) :
  String c s +:+ t = String c (s +:+ t).
Proof. reflexivity. Qed.

Lemma append_nil (t : string) : EmptyString +:+ t = t.
Proof. reflexivity. Qed.

Lemma append_nil_r (s : string) : s +:+ EmptyString = s.
Proof. induction s as [|c s IH]; [reflexivity|]. by rewrite append_cons, IH. Qed.

Lemma append_assoc (s t u : string) : (s +:+ t) +:+ u = s +:+ (t +:+ u).
Proof.
  induction s as [|c s IH]; [reflexivity|]. by rewrite !append_cons, IH.
Qed.

Lemma str_append (c : ascii) (s : string) : str c +:+ s = String c s.
Proof. reflexivity. Qed.

Lemma undouble_doubleQuotes (s : string) :
  undouble (doubleQuotes s +:+ str DQ) = Some s.
Proof.
  induction s as [|c s IH]; [reflexivity|].
  cbn [doubleQuotes]. destruct (Ascii.eqb c DQ) eqn:Hc.
  - apply Ascii.eqb_eq in Hc. subst c.
    rewrite !append_cons. cbn [undouble]. rewrite Ascii.eqb_refl.
    rewrite IH. reflexivity.
  - rewrite append_cons. cbn [undouble]. rewrite Hc, IH. reflexivity.
Qed.

Lemma countChar_doubleQuotes (s : string) :
  countChar DQ (doubleQuotes s) = (2 * countChar DQ s)%nat.
Proof.
  induction s as [|c s IH]; [reflexivity|].
  cbn [doubleQuotes countChar]. destruct (Ascii.eqb c DQ) eqn:Hc.
  - cbn [countChar]. rewrite Ascii.eqb_refl, IH. lia.
  - cbn [countChar]. rewrite Hc, IH. lia.
Qed.

Lemma length_doubleQuotes (s : string) :
  String.length (doubleQuotes s) = (String.length s + countChar DQ s)%nat.
Proof.
  induction s as [|c s IH]; [reflexivity|].
  cbn [doubleQuotes countChar String.length].
  destruct (Ascii.eqb c DQ); cbn [String.length]; rewrite IH; lia.
Qed.

Lemma countChar_app (c : ascii) (s t : string) :
  countChar c (s +:+ t) = (countChar c s + countChar c t)%nat.
Proof.
  induction s as [|d s IH]; [reflexivity|].
  rewrite append_cons. cbn [countChar]. rewrite IH. lia.
Qed.

Lemma length_append (s t : string) :
  String.length (s +:+ t) = (String.length s + String.length t)%nat.
Proof.
  induction s as [|d s IH]; [reflexivity|].
  rewrite append_cons. cbn [String.length]. rewrite IH. reflexivity.
Qed.

Lemma quote_unfold (s : string) :
  quote s = String DQ (doubleQuotes s +:+ str DQ).
Proof. reflexivity. Qed.

Lemma unquote_quote (s : string) : unquote (quote s) = Some s.
Proof.
  rewrite quote_unfold. cbn [unquote]. rewrite Ascii.eqb_refl.
  apply undouble_doubleQuotes.
Qed.

Lemma quote_append (name rest : string) :
  quote name +:+ rest = str DQ +:+ doubleQuotes name +:+ str DQ +:+ rest.
Proof. unfold quote. by rewrite !append_assoc. Qed.

(** Two names with the same quoted text are the same name. *)
Lemma quote_inj (s t : string) : quote s = quote t -> s = t.
Proof.
  intros H. pose proof (unquote_quote s) as Hs.
  rewrite H, unquote_quote in Hs. congruence.
Qed.

(** C3. For every identifier [s], also one with double quotes in it,
    [quote s] is [s] with each of its double quotes doubled, between one
    opening and one closing double quote: reading it back (the outer pair
    stripped, each inner pair taken for one quote, a lone inner quote
    refused) gives [s] again; the quoted text has two quotes for each
    quote of [s] and the two that wrap it, and no other character is
    added. *)
Theorem quote_roundtrip (s : string) :
  unquote (quote s) = Some s /\
  countChar DQ (quote s) = (2 * countChar DQ s + 2)%nat /\
  String.length (quote s) = (String.length s + countChar DQ s + 2)%nat.
Proof.
  split; [apply unquote_quote|]. rewrite quote_unfold. split.
  - change (countChar DQ (String DQ (doubleQuotes s +:+ str DQ)))
      with (S (countChar DQ (doubleQuotes s +:+ str DQ))).
    rewrite countChar_app, countChar_doubleQuotes.
    change (countChar DQ (str DQ)) with 1%nat. lia.
  - cbn [String.length]. rewrite length_append, length_doubleQuotes.
    change (String.length (str DQ)) with 1%nat. lia.
Qed.

(** ** Running a computation *)

Section RunLemmas.
Context {W : Type}.

Lemma outcome_bind {A B} (m : M W A) (k : A -> M W B) (w : W) :
  outcome (bind m k w) =
  match outcome (m w) with
  | inl e => inl e
  | inr a => outcome (k a (world (m w)))
  end.
Proof.
  unfold bind. destruct (m w) as [[e|a] w1 t1]; [reflexivity|].
  cbn. destruct (k a w1). reflexivity.
Qed.

Lemma world_bind {A B} (m : M W A) (k : A -> M W B) (w : W) :
  world (bind m k w) =
  match outcome (m w) with
  | inl e => world (m w)
  | inr a => world (k a (world (m w)))
  end.
Proof.
  unfold bind. destruct (m w) as [[e|a] w1 t1]; [reflexivity|].
  cbn. destruct (k a w1). reflexivity.
Qed.

Lemma sent_bind {A B} (m : M W A) (k : A -> M W B) (w : W) :
  sent (bind m k w) =
  sent (m w) ++
  match outcome (m w) with
  | inl e => []
  | inr a => sent (k a (world (m w)))
  end.
Proof.
  unfold bind. destruct (m w) as [[e|a] w1 t1]; cbn.
  - by rewrite app_nil_r.
  - by destruct (k a w1).
Qed.

Lemma sent_lift {A} (r : error + A) (w : W) : sent (lift r w) = [].
Proof. by destruct r. Qed.

Lemma outcome_lift {A} (r : error + A) (w : W) : outcome (lift r w) = r.
Proof. by destruct r. Qed.

Lemma world_lift {A} (r : error + A) (w : W) : world (lift r w) = w.
Proof. by destruct r. Qed.

Variable respond : request -> W -> option Response.t * W.

Lemma sent_remoteExecute (sql : string) (params : list value) (w : W) :
  sent (remoteExecute respond sql params w) = [Execute sql params].
Proof. unfold remoteExecute. by destruct (respond _ w). Qed.

Lemma sent_uploadCSV (file : File) (table : string) (mode : UploadMode) (w : W) :
  sent (uploadCSV respond file table mode w) = [Upload file table mode].
Proof. unfold uploadCSV. by destruct (respond _ w). Qed.

(** [remoteExecute] throws nothing but what a request can throw. *)
Lemma remoteExecute_not_RecordNotFound sql params w id resource :
  outcome (remoteExecute respond sql params w) <> inl (RecordNotFound id resource).
Proof.
  unfold remoteExecute. destruct (respond _ w) as [[response|] w']; cbn; [|done].
  destruct (negb (Response.ok response)); [done|].
  by destruct (Response.json response).
Qed.
End RunLemmas.

(** ** Normalisation of a response body *)

(** Whatever the body, the executor returns an array. *)
Lemma normalize_isArray (data : value) : isArray (normalize data) = true.
Proof.
  destruct data as [| | | | |items|props]; try reflexivity.
  cbn [normalize].
  set (finalData := orElse _ _).
  destruct (isArray finalData) eqn:Harr; cbn [negb andb]; [exact Harr|].
  destruct props as [|p props]; [|reflexivity].
  cbn in finalData. subst finalData. discriminate Harr.
Qed.

(** An array is returned as it is, and so is the array of the first
    wrapper key with a truthy value. *)
Lemma normalize_array (items : list value) :
  normalize (VArray items) = VArray items.
Proof. reflexivity. Qed.

Lemma normalize_results (props : list (string * value)) (rows : list value) :
  lookupProp "results" props = VArray rows ->
  normalize (VObject props) = VArray rows.
Proof. intros H. cbn [normalize getProp]. by rewrite H. Qed.

(** C8. At the body [{id: 1}], an object with a property and with none of
    the wrapper keys, the executor returns the empty sequence: the default
    [[]] of the wrapper lookup is an array already, so the single-row
    branch is not taken.  The specification gives the one-element sequence
    of the object there. *)
Theorem normalize_drops_plain_object :
  let body := VObject [("id", VNumber 1)] in
  normalize body = VArray [] /\
  normalizeAsSpecified body = VArray [body].
Proof. split; reflexivity. Qed.

(** The single-row branch is reached only through a wrapper key whose
    value is truthy and no array. *)
Lemma normalize_wraps_on_odd_wrapper :
  let body := VObject [("data", VString "x")] in
  normalize body = VArray [body].
Proof. reflexivity. Qed.

(** ** Single-record operations *)

Section DataProviderProperties.
Context {W : Type}.
Variable respond : request -> W -> option Response.t * W.

Lemma join_placeholders_nil : join ", " (map (fun _ : value => "?") []) = EmptyString.
Proof. reflexivity. Qed.

(** C10. With the empty sequence of ids [deleteMany] sends one request all
    the same: the statement [DELETE FROM quoted-resource WHERE id IN ()]
    with the empty parameter list; nothing guards the empty set. *)
Theorem deleteMany_empty_sends_one_delete (resource : string) (w : W) :
  sent (sqlDataProvider.deleteMany respond resource [] w) =
  [Execute ("DELETE FROM " +:+ quote resource +:+ " WHERE id IN ()") []].
Proof.
  unfold sqlDataProvider.deleteMany, execQuery.
  rewrite sent_bind, sent_remoteExecute, join_placeholders_nil.
  destruct (outcome _) as [e|rows]; reflexivity.
Qed.

(** When the request succeeds the result is the empty sequence. *)
Lemma deleteMany_empty_outcome (resource : string) (w : W) :
  outcome (sqlDataProvider.deleteMany respond resource [] w) =
  match outcome (execQuery respond
                   ("DELETE FROM " +:+ quote resource +:+ " WHERE id IN ()") [] w)
  with
  | inl e => inl e
  | inr _ => inr []
  end.
Proof.
  unfold sqlDataProvider.deleteMany. rewrite outcome_bind, join_placeholders_nil.
  destruct (outcome _); reflexivity.
Qed.

(** C7. [getOne] sends the one SELECT by id.  It fails with the not-found
    error exactly when that SELECT returns no row; when the SELECT returns
    rows it returns the first; an error of the SELECT itself is passed
    on, and is never the not-found error. *)
Theorem getOne_not_found_iff_no_row (resource : string) (id : value) (w : W) :
  let select :=
    execQuery respond ("SELECT * FROM " +:+ quote resource +:+ " WHERE id = ?")
      [id] w in
  sent (sqlDataProvider.getOne respond resource id w) = sent select /\
  outcome (sqlDataProvider.getOne respond resource id w) =
    match outcome select with
    | inl e => inl e
    | inr [] => inl (RecordNotFound id resource)
    | inr (first :: _) => inr first
    end /\
  (outcome (sqlDataProvider.getOne respond resource id w)
     = inl (RecordNotFound id resource)
   <-> outcome select = inr []).
Proof.
  cbn zeta. unfold sqlDataProvider.getOne, execQuery.
  rewrite sent_bind, outcome_bind.
  pose proof (remoteExecute_not_RecordNotFound respond
                ("SELECT * FROM " +:+ quote resource +:+ " WHERE id = ?")
                [id] w id resource) as Hne.
  destruct (outcome (remoteExecute respond _ [id] w)) as [e|[|first rest]];
    cbn [throw ret sent outcome]; rewrite app_nil_r;
    (split; [reflexivity|]); (split; [reflexivity|]).
  - split; [intros [= ->]; by destruct Hne | discriminate].
  - split; reflexivity.
  - split; discriminate.
Qed.
End DataProviderProperties.

(** ** The importer *)

Lemma outcome_tryCatch_ret {W A} (body : M W A) (f : error -> A) (w : W) :
  outcome (tryCatch body (fun err => ret (f err)) w)
  = inr (match outcome (body w) with inl e => f e | inr a => a end).
Proof. unfold tryCatch. by destruct (body w) as [[e|a] w1 t1]. Qed.

Section ImportProperties.
Context {W : Type}.
Variable respond : request -> W -> option Response.t * W.

Lemma sent_tryCatch_ret {A} (body : M W A) (f : error -> A) (w : W) :
  sent (tryCatch body (fun err => ret (f err)) w) = sent (body w).
Proof.
  unfold tryCatch. destruct (body w) as [[e|a] w1 t1]; cbn; [|reflexivity].
  by rewrite app_nil_r.
Qed.

Lemma sent_upload_then (file : File) (resource : string)
    (k : value -> M W ImportResult) (w : W) :
  (forall v w', sent (k v w') = []) ->
  sent (bind (uploadCSV respond file resource UploadAppend) k w)
  = [Upload file resource UploadAppend].
Proof.
  intros Hk. rewrite sent_bind, sent_uploadCSV.
  destruct (outcome _); [reflexivity|]. by rewrite Hk.
Qed.

(** C9 (amended). An import in replace mode first sends one DELETE of all
    the rows of the table; once that request has succeeded, the upload of
    the file in append mode is the second request; when the DELETE fails
    the import ends there, the file is not sent, and the import ends with
    the alert of the error of the DELETE.  After a DELETE that succeeded,
    and in append mode, where the upload is the only request and no
    DELETE is sent, the import ends with the alert of the error of the
    upload when the upload fails, and otherwise calls [onSuccess] with the
    [rows_inserted] of the answer (reading it off [null] is a
    [TypeError], which is alerted as well). *)
Theorem import_replace_deletes_then_uploads (resource : string) (file : File)
    (fileData : ParsedCSV.t) (w : W) :
  let delete := Execute ("DELETE FROM " +:+ quote resource) [] in
  let deleted := execQuery respond ("DELETE FROM " +:+ quote resource) [] w in
  let ending (uploaded : run W value) :=
    match outcome uploaded with
    | inl e => Alert e
    | inr VNull | inr VUndefined => Alert TypeError
    | inr result => OnSuccess (getProp "rows_inserted" result)
    end in
  let replace := validateAndImport respond resource (Some file) (Some fileData)
                   ImportReplace w in
  let append := validateAndImport respond resource (Some file) (Some fileData)
                  ImportAppend w in
  sent replace
  = delete ::
    match outcome deleted with
    | inr _ => [Upload file resource UploadAppend]
    | inl _ => []
    end /\
  outcome replace
  = inr match outcome deleted with
        | inl e => Alert e
        | inr _ => ending (uploadCSV respond file resource UploadAppend
                             (world deleted))
        end /\
  sent append = [Upload file resource UploadAppend] /\
  outcome append
  = inr (ending (uploadCSV respond file resource UploadAppend w)).
Proof.
  assert (Hk : forall (v : value) (w' : W),
             sent (match v with
                   | VNull | VUndefined => throw TypeError
                   | _ => ret (OnSuccess (getProp "rows_inserted" v))
                   end w') = []).
  { intros v w'. by destruct v. }
  assert (Ho : forall (v : value) (w' : W),
             outcome (match v with
                      | VNull | VUndefined => throw TypeError
                      | _ => ret (OnSuccess (getProp "rows_inserted" v))
                      end w')
             = match v with
               | VNull | VUndefined => inl TypeError
               | _ => inr (OnSuccess (getProp "rows_inserted" v))
               end).
  { intros v w'. by destruct v. }
  cbn zeta. unfold validateAndImport.
  rewrite !sent_tryCatch_ret, !outcome_tryCatch_ret.
  split; [|split; [|split]].
  - rewrite sent_bind, sent_bind, sent_remoteExecute.
    rewrite outcome_bind. unfold execQuery, quote.
    destruct (outcome (remoteExecute respond _ [] w)) as [e|rows]; [reflexivity|].
    cbn [app]. f_equal. rewrite world_bind.
    apply (sent_upload_then file resource _ _ Hk).
  - f_equal. rewrite outcome_bind, outcome_bind, world_bind.
    unfold execQuery, quote.
    destruct (outcome (remoteExecute respond _ [] w)) as [e|rows]; [reflexivity|].
    cbn [ret outcome world]. rewrite outcome_bind.
    destruct (outcome (uploadCSV respond file resource UploadAppend _))
      as [e|result]; [reflexivity|].
    rewrite Ho. by destruct result.
  - rewrite sent_bind. cbn [ret sent outcome world app].
    apply (sent_upload_then file resource _ _ Hk).
  - f_equal. rewrite outcome_bind. cbn [ret outcome world].
    rewrite outcome_bind.
    destruct (outcome (uploadCSV respond file resource UploadAppend w))
      as [e|result]; [reflexivity|].
    rewrite Ho. by destruct result.
Qed.

(** Without a file the importer sends nothing. *)
Lemma import_without_file (resource : string) (fileData : option ParsedCSV.t)
    (mode : ImportMode) (w : W) :
  sent (validateAndImport respond resource None fileData mode w) = [].
Proof. reflexivity. Qed.
End ImportProperties.

(** C9 as stated fails when the service refuses the DELETE: the importer
    shows the error, and the file is not sent. *)
Lemma import_replace_stops_on_failed_delete :
  validateAndImport failingService "t" (Some (mkFile "rows.csv" "a,b"))
    (Some (parseCSV "a,b")) ImportReplace tt
  = Run (inr (Alert (DbError 500 "no such table"))) tt
      [Execute ("DELETE FROM " +:+ quote "t") []].
Proof. vm_compute. reflexivity. Qed.

(** ** The total of a list *)

Lemma totalOf_total (n : Z) (rest : list value) :
  totalOf (VObject [("total", VNumber n)] :: rest) = VNumber n.
Proof.
  unfold totalOf. cbn. unfold orElse. cbn.
  destruct (Z.eqb_spec n 0) as [->|Hn]; reflexivity.
Qed.

Lemma last_snoc {A} (l : list A) (x : A) : last (l ++ [x]) = Some x.
Proof. induction l as [|y [|z l] IH]; try reflexivity. exact IH. Qed.

Section ListProperties.
Context {W : Type}.
Variable respond : request -> W -> option Response.t * W.

(** [getList] is its WHERE phase, the COUNT query, and the main query. *)
Lemma getList_unfold resource filters sorters pagination :
  sqlDataProvider.getList respond resource filters sorters pagination =
  (acc <- whereOf respond resource filters ;;
   countResult <- execQuery respond
     ("SELECT COUNT(*) as total FROM " +:+ quote resource +:+ baseWhere (fst acc))
     (snd acc) ;;
   data <- execQuery respond
     ("SELECT * FROM " +:+ quote resource +:+ baseWhere (fst acc)
      +:+ orderClause sorters +:+ limitClause pagination) (snd acc) ;;
   ret (GetListResponse.mk data (totalOf countResult))).
Proof. reflexivity. Qed.

(** What a successful [getList] went through. *)
Lemma getList_success resource filters sorters pagination w l :
  outcome (sqlDataProvider.getList respond resource filters sorters pagination w)
    = inr l ->
  exists whereClauses params countResult,
    outcome (whereOf respond resource filters w) = inr (whereClauses, params) /\
    outcome (execQuery respond
               ("SELECT COUNT(*) as total FROM " +:+ quote resource
                +:+ baseWhere whereClauses) params
               (world (whereOf respond resource filters w))) = inr countResult /\
    GetListResponse.total l = totalOf countResult /\
    last (sent (sqlDataProvider.getList respond resource filters sorters
                  pagination w))
    = Some (Execute ("SELECT * FROM " +:+ quote resource +:+ baseWhere whereClauses
                     +:+ orderClause sorters +:+ limitClause pagination) params).
Proof.
  rewrite getList_unfold. rewrite outcome_bind, sent_bind.
  destruct (outcome (whereOf respond resource filters w))
    as [e|[whereClauses params]] eqn:Hwhere; [discriminate|].
  cbn [fst snd]. set (w1 := world (whereOf respond resource filters w)).
  rewrite outcome_bind, sent_bind.
  set (count := execQuery respond _ params w1).
  assert (Hsc : sent count = [Execute ("SELECT COUNT(*) as total FROM "
                +:+ quote resource +:+ baseWhere whereClauses) params])
    by apply sent_remoteExecute.
  destruct (outcome count) as [e|countResult] eqn:Hcount; [discriminate|].
  rewrite outcome_bind, sent_bind.
  set (final := execQuery respond _ params (world count)).
  assert (Hsf : sent final = [Execute ("SELECT * FROM " +:+ quote resource
                +:+ baseWhere whereClauses +:+ orderClause sorters
                +:+ limitClause pagination) params])
    by apply sent_remoteExecute.
  destruct (outcome final) as [e|data]; [discriminate|].
  cbn [ret outcome sent]. intros [= <-].
  exists whereClauses, params, countResult.
  split; [reflexivity|]. split; [exact Hcount|]. split; [reflexivity|].
  rewrite Hsf, app_nil_r, !app_assoc. apply last_snoc.
Qed.

(** C4. Two lists of the same resource, filters and sorters, asked from
    the same state of the service with any two paginations, have the same
    total.  The total is read off the answer to the COUNT query: when the
    service answers it with the row [{total: n}] that the query asks for,
    the total of both lists is [n].  The text of the COUNT query is
    [SELECT COUNT( * ) as total FROM] the quoted resource and the WHERE
    text, with no LIMIT or OFFSET, and it carries the WHERE text and the
    parameter list of the two main queries.  The filter values are values
    with an exact text, and the numbers of the paginations whole numbers
    of the safe range. *)
Theorem getList_total_ignores_pagination resource filters sorters p1 p2 w l1 l2 :
  Forall exactText (filterValues (default [] filters)) ->
  exactPagination p1 -> exactPagination p2 ->
  outcome (sqlDataProvider.getList respond resource filters sorters p1 w) = inr l1 ->
  outcome (sqlDataProvider.getList respond resource filters sorters p2 w) = inr l2 ->
  GetListResponse.total l1 = GetListResponse.total l2 /\
  exists whereClauses params countResult,
    outcome (whereOf respond resource filters w) = inr (whereClauses, params) /\
    outcome (execQuery respond
               ("SELECT COUNT(*) as total FROM " +:+ quote resource
                +:+ baseWhere whereClauses) params
               (world (whereOf respond resource filters w))) = inr countResult /\
    GetListResponse.total l1 = totalOf countResult /\
    (forall n rest,
       countResult = VObject [("total", VNumber n)] :: rest ->
       GetListResponse.total l1 = VNumber n /\
       GetListResponse.total l2 = VNumber n) /\
    last (sent (sqlDataProvider.getList respond resource filters sorters p1 w))
    = Some (Execute ("SELECT * FROM " +:+ quote resource +:+ baseWhere whereClauses
                     +:+ orderClause sorters +:+ limitClause p1) params) /\
    last (sent (sqlDataProvider.getList respond resource filters sorters p2 w))
    = Some (Execute ("SELECT * FROM " +:+ quote resource +:+ baseWhere whereClauses
                     +:+ orderClause sorters +:+ limitClause p2) params).
Proof.
  intros _ _ _ H1 H2.
  destruct (getList_success _ _ _ _ _ _ H1)
    as (wc1 & ps1 & cr1 & Hw1 & Hc1 & Ht1 & Hs1).
  destruct (getList_success _ _ _ _ _ _ H2)
    as (wc2 & ps2 & cr2 & Hw2 & Hc2 & Ht2 & Hs2).
  rewrite Hw1 in Hw2. injection Hw2 as <- <-.
  rewrite Hc1 in Hc2. injection Hc2 as <-.
  split; [congruence|].
  exists wc1, ps1, cr1.
  split; [exact Hw1|]. split; [exact Hc1|]. split; [exact Ht1|].
  split; [|by split].
  intros n rest ->. rewrite Ht1, Ht2. split; apply totalOf_total.
Qed.
End ListProperties.

Lemma getList_total_ignores_pagination_witness :
  let filters := Some [LogicalFilter "q" "contains" (VString "x")] in
  let p1 := Some (Pagination.mk (Some 1) (Some 25)) in
  let p2 := Some (Pagination.mk (Some 4) (Some 10)) in
  let l1 := GetListResponse.mk [VObject [("id", VNumber 1)]] (VNumber 3) in
  let l2 := GetListResponse.mk [] (VNumber 3) in
  GetListResponse.total l1 = GetListResponse.total l2 /\
  exists whereClauses params countResult,
    outcome (whereOf demoService "t" filters tt) = inr (whereClauses, params) /\
    outcome (execQuery demoService
               ("SELECT COUNT(*) as total FROM " +:+ quote "t"
                +:+ baseWhere whereClauses) params
               (world (whereOf demoService "t" filters tt))) = inr countResult /\
    GetListResponse.total l1 = totalOf countResult /\
    (forall n rest,
       countResult = VObject [("total", VNumber n)] :: rest ->
       GetListResponse.total l1 = VNumber n /\
       GetListResponse.total l2 = VNumber n) /\
    last (sent (sqlDataProvider.getList demoService "t" filters None p1 tt))
    = Some (Execute ("SELECT * FROM " +:+ quote "t" +:+ baseWhere whereClauses
                     +:+ orderClause None +:+ limitClause p1) params) /\
    last (sent (sqlDataProvider.getList demoService "t" filters None p2 tt))
    = Some (Execute ("SELECT * FROM " +:+ quote "t" +:+ baseWhere whereClauses
                     +:+ orderClause None +:+ limitClause p2) params).
Proof.
  apply (getList_total_ignores_pagination demoService "t"
           (Some [LogicalFilter "q" "contains" (VString "x")]) None
           (Some (Pagination.mk (Some 1) (Some 25)))
           (Some (Pagination.mk (Some 4) (Some 10))) tt
           (GetListResponse.mk [VObject [("id", VNumber 1)]] (VNumber 3))
           (GetListResponse.mk [] (VNumber 3))).
  - apply Forall_cons_2; [exact I|apply Forall_nil_2].
  - vm_compute. repeat split; reflexivity.
  - vm_compute. repeat split; reflexivity.
  - vm_compute. reflexivity.
  - vm_compute. reflexivity.
Defined.

(** ** The reserved key column *)

Lemma isWhite_lowerChar (c : ascii) : isWhite (lowerChar c) = isWhite c.
Proof. destruct c as [[] [] [] [] [] [] [] []]; reflexivity. Qed.

Lemma toLowerCase_id_inv (name : string) :
  namedId name ->
  exists a b, name = String a (String b EmptyString) /\
              isWhite a = false /\ isWhite b = false.
Proof.
  unfold namedId, toLowerCase.
  destruct name as [|a [|b [|c name]]]; cbn [mapChars]; intros H;
    try discriminate H.
  injection H as Ha Hb. exists a, b. split; [reflexivity|].
  rewrite <- (isWhite_lowerChar a), <- (isWhite_lowerChar b), Ha, Hb.
  split; reflexivity.
Qed.

(** A name that is [id] has no white space to trim. *)
Lemma namedId_trim (name : string) : namedId name -> trim name = name.
Proof.
  intros H. destruct (toLowerCase_id_inv name H) as (a & b & -> & Ha & Hb).
  unfold trim. cbn [trimStart]. rewrite Ha. cbn [trimEnd]. rewrite Ha, Hb.
  reflexivity.
Qed.

Lemma namedId_eqb (name : string) :
  String.eqb (toLowerCase name) "id" = bool_decide (namedId name).
Proof.
  unfold namedId. destruct (String.eqb_spec (toLowerCase name) "id") as [H|H].
  - by rewrite bool_decide_eq_true_2.
  - by rewrite bool_decide_eq_false_2.
Qed.

Lemma filter_namedId_none (names : list string) :
  Forall (fun name => ~ namedId name) names -> filter namedId names = [].
Proof.
  induction 1 as [|name names Hname _ IH]; [reflexivity|].
  rewrite filter_cons_False by exact Hname. exact IH.
Qed.

Lemma processedCols_not_id (columns : list ColumnDefinition.t) :
  Forall (fun name => ~ namedId name)
    (map ColumnDefinition.name (processedCols columns)).
Proof.
  unfold processedCols. rewrite List.map_map. apply Forall_map, Forall_forall.
  intros c _. cbn beta zeta. rewrite namedId_eqb. case_bool_decide as Hid.
  - cbn. unfold namedId. discriminate.
  - intros Hc. apply Hid. by rewrite (namedId_trim _ Hc).
Qed.

Lemma processedHeaders_not_id (headers : list string) :
  Forall (fun name => ~ namedId name) (processedHeaders headers).
Proof.
  unfold processedHeaders. apply Forall_map, Forall_forall.
  intros h _. cbn beta zeta. rewrite namedId_eqb. case_bool_decide as Hid.
  - unfold namedId. discriminate.
  - exact Hid.
Qed.

(** The statement of [createTable] declares the columns of
    [createTableColumns], each user column with its type. *)
Lemma createTableSql_columns (tableName : string)
    (columns : list ColumnDefinition.t) :
  createTableSql tableName columns =
  "CREATE TABLE " +:+ quote tableName
  +:+ " (id INTEGER PRIMARY KEY AUTOINCREMENT, "
  +:+ join ", "
        (zip_with (fun name type => quote name +:+ " " +:+ type)
           (tail (createTableColumns columns))
           (map ColumnDefinition.type columns))
  +:+ ")".
Proof.
  unfold createTableSql, colDefs, createTableColumns. cbn [tail].
  rewrite quote_append.
  assert (Hdefs :
    map (fun c => str DQ +:+ doubleQuotes (ColumnDefinition.name c) +:+ str DQ
                  +:+ " " +:+ ColumnDefinition.type c) (processedCols columns)
    = zip_with (fun name type => quote name +:+ " " +:+ type)
        (map ColumnDefinition.name (processedCols columns))
        (map ColumnDefinition.type columns)).
  { induction columns as [|c columns IH]; [reflexivity|].
    cbn [processedCols map zip_with]. fold (processedCols columns).
    rewrite <- IH, quote_append. f_equal.
    destruct (String.eqb _ "id"); reflexivity. }
  by rewrite Hdefs.
Qed.

(** The statement of [createTableFromCSV] declares the columns of
    [createTableFromCSVColumns], each user column as TEXT. *)
Lemma createQuery_columns (tableName : string) (headers : list string) :
  createQuery tableName headers =
  "CREATE TABLE " +:+ quote tableName
  +:+ " (id INTEGER PRIMARY KEY AUTOINCREMENT, "
  +:+ join ", "
        (map (fun name => quote name +:+ " TEXT")
           (tail (createTableFromCSVColumns headers)))
  +:+ ")".
Proof.
  unfold createQuery, safeHeaderNames, createTableFromCSVColumns. cbn [tail].
  by rewrite List.map_map.
Qed.

(** ** Reading the statement back *)

Lemma stripPrefix_append (prefix s : string) :
  stripPrefix prefix (prefix +:+ s) = Some s.
Proof.
  induction prefix as [|c prefix IH]; [by destruct s|].
  rewrite append_cons. cbn [stripPrefix]. by rewrite Ascii.eqb_refl.
Qed.

Lemma stripLast_append (c : ascii) (s : string) :
  stripLast c (s +:+ str c) = Some s.
Proof.
  induction s as [|d s IH].
  - rewrite append_nil. unfold str. cbn [stripLast].
    by rewrite Ascii.eqb_refl.
  - rewrite append_cons. cbn [stripLast]. rewrite IH.
    destruct s; reflexivity.
Qed.

Lemma readQuotedBody_doubleQuotes (name k : string) :
  startsWithDQ k = false ->
  readQuotedBody (doubleQuotes name +:+ str DQ +:+ k) = Some (name, k).
Proof.
  intros Hk. induction name as [|c name IH].
  - cbn [doubleQuotes]. rewrite append_nil, str_append.
    cbn [readQuotedBody]. rewrite Ascii.eqb_refl.
    destruct k as [|d k]; [reflexivity|].
    cbn [startsWithDQ] in Hk. by rewrite Hk.
  - cbn [doubleQuotes]. destruct (Ascii.eqb c DQ) eqn:Hc.
    + apply Ascii.eqb_eq in Hc. subst c. rewrite !append_cons.
      cbn [readQuotedBody]. rewrite !Ascii.eqb_refl. by rewrite IH.
    + rewrite append_cons. cbn [readQuotedBody]. by rewrite Hc, IH.
Qed.

Lemma readQuoted_quote (name k : string) :
  startsWithDQ k = false ->
  readQuoted (quote name +:+ k) = Some (name, k).
Proof.
  intros Hk. rewrite quote_append, str_append. cbn [readQuoted].
  rewrite Ascii.eqb_refl. by apply readQuotedBody_doubleQuotes.
Qed.

(** Inside quotes nothing is cut, whatever the name. *)
Lemma cutAtCommas_doubleQuotes (name rest cur : string) (depth : nat) :
  cutAtCommas (doubleQuotes name +:+ rest) cur true depth
  = cutAtCommas rest (cur +:+ doubleQuotes name) true depth.
Proof.
  revert cur. induction name as [|c name IH]; intros cur.
  - cbn [doubleQuotes]. by rewrite append_nil, append_nil_r.
  - cbn [doubleQuotes]. destruct (Ascii.eqb c DQ) eqn:Hc.
    + apply Ascii.eqb_eq in Hc. subst c. rewrite !append_cons.
      cbn [cutAtCommas]. rewrite !Ascii.eqb_refl. cbn [negb].
      rewrite IH. f_equal. by rewrite !append_assoc.
    + rewrite append_cons. cbn [cutAtCommas]. rewrite Hc, IH.
      f_equal. by rewrite append_assoc.
Qed.

Lemma cutAtCommas_quote (name rest cur : string) (depth : nat) :
  cutAtCommas (quote name +:+ rest) cur false depth
  = cutAtCommas rest (cur +:+ quote name) false depth.
Proof.
  rewrite quote_append, str_append. cbn [cutAtCommas].
  rewrite Ascii.eqb_refl. cbn [negb]. rewrite cutAtCommas_doubleQuotes.
  rewrite str_append. cbn [cutAtCommas]. rewrite Ascii.eqb_refl. cbn [negb].
  f_equal. unfold quote. by rewrite !append_assoc.
Qed.

Lemma plainChar_not_special (c : ascii) :
  isWordChar c || Ascii.eqb c " "%char = true ->
  Ascii.eqb c DQ = false /\ Ascii.eqb c "("%char = false /\
  Ascii.eqb c ")"%char = false /\ Ascii.eqb c COMMA = false.
Proof. destruct c as [[] [] [] [] [] [] [] []]; cbn; intros H; done. Qed.

(** Nor in the name of a type. *)
Lemma cutAtCommas_plain (type rest cur : string) (depth : nat) :
  plainType type ->
  cutAtCommas (type +:+ rest) cur false depth
  = cutAtCommas rest (cur +:+ type) false depth.
Proof.
  unfold plainType. revert cur. induction type as [|c type IH]; intros cur Hp.
  - by rewrite append_nil, append_nil_r.
  - cbn [allChars] in Hp. apply andb_true_iff in Hp as [Hc Hp].
    destruct (plainChar_not_special c Hc) as (H1 & H2 & H3 & H4).
    rewrite append_cons. cbn [cutAtCommas]. rewrite H1, H2, H3, H4.
    cbn [andb]. rewrite (IH _ Hp). f_equal. by rewrite append_assoc.
Qed.

Lemma cutAtCommas_columnDef (column : string * string) (rest cur : string) :
  plainType column.2 ->
  cutAtCommas (columnDef column +:+ rest) cur false 0
  = cutAtCommas rest (cur +:+ columnDef column) false 0.
Proof.
  intros Hp. unfold columnDef. rewrite !append_assoc.
  rewrite cutAtCommas_quote.
  rewrite (cutAtCommas_plain " " _ _ _ eq_refl).
  rewrite (cutAtCommas_plain _ _ _ _ Hp). by rewrite !append_assoc.
Qed.

Lemma join_cons2 (sep a b : string) (l : list string) :
  join sep (a :: b :: l) = a +:+ sep +:+ join sep (b :: l).
Proof. reflexivity. Qed.

Lemma cutAtCommas_columnDefs (column : string * string)
    (columns : list (string * string)) (cur : string) :
  Forall (fun column => plainType column.2) (column :: columns) ->
  cutAtCommas (join ", " (map columnDef (column :: columns))) cur false 0
  = (cur +:+ columnDef column)
    :: map (fun column => " " +:+ columnDef column) columns.
Proof.
  revert column cur. induction columns as [|next columns IH];
    intros column cur Hp.
  - apply Forall_cons_1 in Hp as [Hp _]. cbn [map join String.concat].
    rewrite <- (append_nil_r (columnDef column)) at 1.
    by rewrite (cutAtCommas_columnDef _ _ _ Hp).
  - apply Forall_cons_1 in Hp as [Hp Hps].
    change (map columnDef (column :: next :: columns))
      with (columnDef column :: map columnDef (next :: columns)).
    cbn [map]. rewrite join_cons2.
    rewrite (cutAtCommas_columnDef _ _ _ Hp).
    change (", " +:+ join ", " (columnDef next :: map columnDef columns))
      with (String COMMA (String " "%char
              (join ", " (map columnDef (next :: columns))))).
    cbn [cutAtCommas].
    change (Ascii.eqb COMMA DQ) with false.
    change (Ascii.eqb COMMA "(") with false.
    change (Ascii.eqb COMMA ")") with false.
    change (Ascii.eqb " " DQ) with false.
    change (Ascii.eqb " " "(") with false.
    change (Ascii.eqb " " ")") with false.
    change (Ascii.eqb " " COMMA) with false.
    rewrite Ascii.eqb_refl. cbn [andb Nat.eqb]. cbv iota.
    rewrite (IH _ _ Hps). reflexivity.
Qed.

Lemma columnNameOf_columnDef (column : string * string) :
  columnNameOf (" " +:+ columnDef column) = Some column.1.
Proof.
  unfold columnDef, columnNameOf.
  change (dropSpaces (" " +:+ quote column.1 +:+ " " +:+ column.2))
    with (dropSpaces (quote column.1 +:+ " " +:+ column.2)).
  rewrite quote_append, str_append. cbn [dropSpaces].
  change (Ascii.eqb DQ " ") with false. cbv iota.
  rewrite Ascii.eqb_refl.
  rewrite <- str_append, <- quote_append.
  by rewrite readQuoted_quote.
Qed.

Lemma columnNames_columnDefs (columns : list (string * string)) :
  columnNames (map (fun column => " " +:+ columnDef column) columns)
  = Some (map fst columns).
Proof.
  induction columns as [|column columns IH]; [reflexivity|].
  cbn [map columnNames]. by rewrite columnNameOf_columnDef, IH.
Qed.

(** The statement with the key column and the definitions of [columns]
    declares [id] and the names of [columns], whatever these names. *)
Lemma declaredColumns_statement (tableName : string)
    (columns : list (string * string)) :
  columns <> [] ->
  Forall (fun column => plainType column.2) columns ->
  declaredColumns
    ("CREATE TABLE " +:+ quote tableName
     +:+ " (id INTEGER PRIMARY KEY AUTOINCREMENT, "
     +:+ join ", " (map columnDef columns) +:+ ")")
  = Some ("id" :: map fst columns).
Proof.
  intros Hne Hp. destruct columns as [|column columns]; [done|].
  unfold declaredColumns. rewrite stripPrefix_append.
  rewrite readQuoted_quote by reflexivity.
  change (" (id INTEGER PRIMARY KEY AUTOINCREMENT, "
          +:+ join ", " (map columnDef (column :: columns)) +:+ ")")
    with (" (" +:+ "id INTEGER PRIMARY KEY AUTOINCREMENT, "
          +:+ join ", " (map columnDef (column :: columns)) +:+ ")").
  rewrite stripPrefix_append.
  change ("id INTEGER PRIMARY KEY AUTOINCREMENT, "
          +:+ join ", " (map columnDef (column :: columns)) +:+ ")")
    with (("id INTEGER PRIMARY KEY AUTOINCREMENT, "
           +:+ join ", " (map columnDef (column :: columns))) +:+ str ")").
  rewrite stripLast_append.
  change ("id INTEGER PRIMARY KEY AUTOINCREMENT, "
          +:+ join ", " (map columnDef (column :: columns)))
    with ("id INTEGER PRIMARY KEY AUTOINCREMENT"
          +:+ String COMMA (String " "%char
                (join ", " (map columnDef (column :: columns))))).
  rewrite (cutAtCommas_plain "id INTEGER PRIMARY KEY AUTOINCREMENT" _ _ _ eq_refl).
  cbn [cutAtCommas].
  change (Ascii.eqb COMMA DQ) with false.
  change (Ascii.eqb COMMA "(") with false.
  change (Ascii.eqb COMMA ")") with false.
  change (Ascii.eqb " " DQ) with false.
  change (Ascii.eqb " " "(") with false.
  change (Ascii.eqb " " ")") with false.
  change (Ascii.eqb " " COMMA) with false.
  rewrite Ascii.eqb_refl. cbn [andb Nat.eqb]. cbv iota.
  rewrite (cutAtCommas_columnDefs _ _ _ Hp).
  change ((EmptyString +:+ " ") +:+ columnDef column)
    with (" " +:+ columnDef column).
  change (EmptyString +:+ "id INTEGER PRIMARY KEY AUTOINCREMENT")
    with "id INTEGER PRIMARY KEY AUTOINCREMENT".
  cbn [columnNames]. rewrite columnNameOf_columnDef, columnNames_columnDefs.
  reflexivity.
Qed.

Lemma createTableSql_columnDefs (tableName : string)
    (columns : list ColumnDefinition.t) :
  createTableSql tableName columns
  = "CREATE TABLE " +:+ quote tableName
    +:+ " (id INTEGER PRIMARY KEY AUTOINCREMENT, "
    +:+ join ", "
          (map columnDef
             (map (fun c => (ColumnDefinition.name c, ColumnDefinition.type c))
                (processedCols columns)))
    +:+ ")".
Proof.
  unfold createTableSql, colDefs. rewrite quote_append, List.map_map.
  assert (Hdefs :
    map (fun c => columnDef (ColumnDefinition.name c, ColumnDefinition.type c))
      (processedCols columns)
    = map (fun c => str DQ +:+ doubleQuotes (ColumnDefinition.name c)
                    +:+ str DQ +:+ " " +:+ ColumnDefinition.type c)
        (processedCols columns)).
  { apply map_ext. intros c. unfold columnDef. cbn [fst snd].
    by rewrite quote_append. }
  by rewrite Hdefs.
Qed.

Lemma createQuery_columnDefs (tableName : string) (headers : list string) :
  createQuery tableName headers
  = "CREATE TABLE " +:+ quote tableName
    +:+ " (id INTEGER PRIMARY KEY AUTOINCREMENT, "
    +:+ join ", "
          (map columnDef (map (fun h => (h, "TEXT")) (processedHeaders headers)))
    +:+ ")".
Proof.
  unfold createQuery, safeHeaderNames. rewrite quote_append, !List.map_map.
  assert (Hdefs :
    map (fun h => columnDef (h, "TEXT")) (processedHeaders headers)
    = map (fun h => (str DQ +:+ doubleQuotes h +:+ str DQ) +:+ " TEXT")
        (processedHeaders headers)).
  { apply map_ext. intros h. unfold columnDef. cbn [fst snd].
    by rewrite quote_append, !append_assoc. }
  by rewrite Hdefs, !append_assoc.
Qed.

Lemma processedCols_names (columns : list ColumnDefinition.t) :
  map ColumnDefinition.name (processedCols columns)
  = map (fun c => if decide (namedId (trim (ColumnDefinition.name c)))
                  then "original_id" else ColumnDefinition.name c) columns.
Proof.
  unfold processedCols. rewrite List.map_map. apply map_ext. intros c.
  cbn zeta. rewrite namedId_eqb, decide_bool_decide.
  by case_bool_decide.
Qed.

Lemma processedHeaders_names (headers : list string) :
  processedHeaders headers
  = map (fun h => if decide (namedId (trim h)) then "id_original" else trim h)
      headers.
Proof.
  unfold processedHeaders. apply map_ext. intros h.
  cbn zeta. rewrite namedId_eqb, decide_bool_decide.
  by case_bool_decide.
Qed.

(** The statement of [createTable] declares the columns of
    [createTableColumns], when the types are plain type names. *)
Lemma declaredColumns_createTableSql (tableName : string)
    (columns : list ColumnDefinition.t) :
  columns <> [] ->
  Forall (fun c => plainType (ColumnDefinition.type c)) columns ->
  declaredColumns (createTableSql tableName columns)
  = Some (createTableColumns columns).
Proof.
  intros Hne Hp. unfold createTableColumns.
  rewrite createTableSql_columnDefs, declaredColumns_statement.
  - by rewrite List.map_map.
  - destruct columns; [done|discriminate].
  - apply Forall_map. unfold processedCols. apply Forall_map.
    eapply Forall_impl; [exact Hp|]. intros c Hc. cbn beta zeta.
    by destruct (String.eqb _ "id").
Qed.

(** The statement of [createTableFromCSV] declares the columns of
    [createTableFromCSVColumns]. *)
Lemma declaredColumns_createQuery (tableName : string) (headers : list string) :
  headers <> [] ->
  declaredColumns (createQuery tableName headers)
  = Some (createTableFromCSVColumns headers).
Proof.
  intros Hne. unfold createTableFromCSVColumns.
  rewrite createQuery_columnDefs, declaredColumns_statement.
  - rewrite List.map_map. cbn [fst]. by rewrite map_id.
  - destruct headers; [done|discriminate].
  - apply Forall_map, Forall_forall. by intros h _.
Qed.




(** The two statements are what the operations send first. *)
Lemma createTable_sends {W} (respond : request -> W -> option Response.t * W)
    (tableName : string) (columns : list ColumnDefinition.t) (w : W) :
  sent (createTable respond tableName columns w)
  = [Execute (createTableSql tableName columns) []].
Proof.
  unfold createTable. rewrite sent_bind, sent_remoteExecute.
  by destruct (outcome _).
Qed.

Lemma createTableFromCSV_sends_first {W}
    (respond : request -> W -> option Response.t * W)
    (tableName : string) (headers : list string)
    (rows : list (gmap string value)) (w : W) :
  head (sent (createTableFromCSV respond tableName headers rows w))
  = Some (Execute (createQuery tableName headers) []).
Proof.
  unfold createTableFromCSV. by rewrite sent_bind, sent_remoteExecute.
Qed.

(** ** The free-text search *)

Lemma filterE_isSearchable_rows (rows : list value)
    (cols : list ColumnMetadata.t) :
  Forall2 describes rows cols ->
  exists rows', filterE isSearchable rows = inr rows' /\
                Forall2 describes rows' (textColumns cols).
Proof.
  induction 1 as [|row c rows cols [Hname Htype] _ (rows' & IH & Hrows')].
  - exists []. split; [reflexivity|constructor].
  - cbn [filterE textColumns List.filter]. fold (textColumns cols).
    unfold isSearchable at 1. rewrite Htype. cbn [asString]. rewrite IH.
    destruct (isTextType (ColumnMetadata.type c)).
    + exists (row :: rows'). split; [reflexivity|]. by constructor.
    + by exists rows'.
Qed.

Lemma names_of_rows (rows : list value) (cols : list ColumnMetadata.t) :
  Forall2 describes rows cols ->
  map (getProp "name") rows = map (fun c => VString (ColumnMetadata.name c)) cols.
Proof.
  induction 1 as [|row c rows cols [Hname _] _ IH]; [reflexivity|].
  cbn [map]. by rewrite Hname, IH.
Qed.

Lemma mapE_likeClause_names (cols : list ColumnMetadata.t) :
  mapE likeClause (map (fun c => VString (ColumnMetadata.name c)) cols)
  = inr (map (fun c => quote (ColumnMetadata.name c) +:+ " LIKE ?") cols).
Proof.
  induction cols as [|c cols IH]; [reflexivity|].
  cbn [map mapE likeClause asString]. by rewrite IH.
Qed.

Section SearchProperties.
Context {W : Type}.
Variable respond : request -> W -> option Response.t * W.

Lemma sent_getTableColumns (resource : string) (w : W) :
  sent (getTableColumns respond resource w)
  = [Execute ("PRAGMA table_info(" +:+ quote resource +:+ ")") []].
Proof.
  unfold getTableColumns. rewrite sent_remoteExecute.
  by rewrite quote_append.
Qed.

(** The step of the filter loop on a free-text filter with a truthy value,
    for a table whose columns are [cols]. *)
Lemma filterStep_search resource operator v cols acc w :
  truthy v = true ->
  columnsOf respond resource w cols ->
  let r := sqlDataProvider.filterStep respond resource acc
             (LogicalFilter "q" operator v) w in
  outcome r = inr (match textColumns cols with
                   | [] => acc
                   | _ => (fst acc ++ ["(" +:+ join " OR " (likePredicates cols)
                                       +:+ ")"],
                           snd acc ++ searchParams cols v)
                   end) /\
  world r = world (getTableColumns respond resource w) /\
  sent r = [Execute ("PRAGMA table_info(" +:+ quote resource +:+ ")") []].
Proof.
  intros Hv (rows & Hcols & Hrows) r. subst r.
  unfold sqlDataProvider.filterStep.
  change (String.eqb "q" "q") with true. rewrite Hv. cbn [andb].
  rewrite outcome_bind, world_bind, sent_bind, Hcols, sent_getTableColumns.
  rewrite outcome_bind, world_bind, sent_bind.
  destruct (filterE_isSearchable_rows rows cols Hrows) as (rows' & -> & Hrows').
  rewrite outcome_lift, world_lift, sent_lift.
  rewrite (names_of_rows rows' _ Hrows'). unfold searchParams, likePredicates.
  destruct (textColumns cols) as [|c tcols] eqn:Htext.
  - cbn [map ret outcome world sent app]. done.
  - remember (map (fun c => VString (ColumnMetadata.name c)) (c :: tcols))
      as names eqn:Hnames.
    destruct names as [|n names]; [discriminate Hnames|].
    cbv match. rewrite Hnames.
    rewrite outcome_bind, world_bind, sent_bind.
    rewrite outcome_lift, world_lift, sent_lift, mapE_likeClause_names.
    cbn [ret outcome world sent app]. rewrite !List.map_map. done.
Qed.

Lemma bind_ret_run {A B} (a : A) (k : A -> M W B) (w : W) :
  bind (ret a) k w = k a w.
Proof. unfold bind, ret. by destruct (k a w). Qed.

(** The loop over filters that are not a free-text search with a truthy
    value keeps its accumulator and sends nothing. *)
Lemma foldM_filterStep_skip (resource : string) (filters : list CrudFilter)
    (acc : list string * list value) (w : W) :
  Forall (fun f => match f with
                   | LogicalFilter field _ v => field <> "q" \/ truthy v = false
                   | ConditionalFilter _ _ => True
                   end) filters ->
  foldM (sqlDataProvider.filterStep respond resource) filters acc w
  = ret acc w.
Proof.
  induction 1 as [|f filters Hf _ IH]; [reflexivity|]. cbn [foldM].
  assert (Hstep : sqlDataProvider.filterStep respond resource acc f = ret acc).
  { destruct f as [field operator v|]; [|reflexivity].
    unfold sqlDataProvider.filterStep. destruct Hf as [Hf|Hf].
    - apply String.eqb_neq in Hf. by rewrite Hf.
    - by rewrite Hf, andb_false_r. }
  by rewrite Hstep, bind_ret_run.
Qed.

End SearchProperties.

Section SearchTheorem.
Context {W : Type}.
Variable respond : request -> W -> option Response.t * W.

(** The WHERE phase of a list with the free-text filter alone. *)
Lemma whereOf_search resource operator v cols w :
  truthy v = true ->
  columnsOf respond resource w cols ->
  let r := whereOf respond resource (Some [LogicalFilter "q" operator v]) w in
  (exists clauses,
     outcome r = inr (clauses, searchParams cols v) /\
     baseWhere clauses = searchWhere cols) /\
  world r = world (getTableColumns respond resource w) /\
  sent r = [Execute ("PRAGMA table_info(" +:+ quote resource +:+ ")") []].
Proof.
  intros Hv Hcols r. subst r. unfold whereOf.
  cbn [default from_option id foldM].
  destruct (filterStep_search respond resource operator v cols ([], []) w Hv Hcols)
    as (Hout & Hworld & Hsent).
  split; [|split].
  - exists (match textColumns cols with
            | [] => []
            | _ => ["(" +:+ join " OR " (likePredicates cols) +:+ ")"]
            end).
    split.
    + rewrite outcome_bind, Hout. cbn [ret outcome]. unfold searchParams.
      by destruct (textColumns cols).
    + unfold searchWhere. by destruct (textColumns cols).
  - rewrite world_bind, Hout. exact Hworld.
  - by rewrite sent_bind, Hout, Hsent.
Qed.

End SearchTheorem.



(** ** Parameterised statements *)

Lemma render_app (a b : list piece) : render (a ++ b) = render a +:+ render b.
Proof.
  induction a as [|p a IH]; [reflexivity|].
  cbn [app render]. by rewrite IH, append_assoc.
Qed.

Lemma render_joinPieces (sep : string) (groups : list (list piece)) :
  render (joinPieces sep groups) = join sep (map render groups).
Proof.
  induction groups as [|g [|g' groups] IH]; [reflexivity|reflexivity|].
  change (joinPieces sep (g :: g' :: groups))
    with (g ++ Keyword sep :: joinPieces sep (g' :: groups)).
  rewrite render_app. cbn [render renderPiece]. by rewrite IH.
Qed.

Lemma placeholders_app (a b : list piece) :
  placeholders (a ++ b) = (placeholders a + placeholders b)%nat.
Proof. unfold placeholders. by rewrite List.filter_app, List.length_app. Qed.

Lemma placeholders_joinPieces (sep : string) (groups : list (list piece)) :
  placeholders (joinPieces sep groups) = sum_list_with placeholders groups.
Proof.
  induction groups as [|g [|g' groups] IH]; [reflexivity| |].
  - cbn [joinPieces sum_list_with]. lia.
  - change (joinPieces sep (g :: g' :: groups))
      with (g ++ Keyword sep :: joinPieces sep (g' :: groups)).
    rewrite placeholders_app.
    change (placeholders (Keyword sep :: joinPieces sep (g' :: groups)))
      with (placeholders (joinPieces sep (g' :: groups))).
    rewrite IH. reflexivity.
Qed.

Lemma sum_list_with_map_const {A} (f : A -> list piece) (n : nat) (xs : list A) :
  (forall x, placeholders (f x) = n) ->
  sum_list_with placeholders (map f xs) = (n * length xs)%nat.
Proof.
  intros Hf. induction xs as [|x xs IH]; cbn [map sum_list_with length]; [lia|].
  rewrite Hf, IH. lia.
Qed.

Lemma Forall_joinPieces (P : piece -> Prop) (sep : string)
    (groups : list (list piece)) :
  P (Keyword sep) -> Forall (Forall P) groups -> Forall P (joinPieces sep groups).
Proof.
  intros Hsep Hgroups.
  induction Hgroups as [|g groups Hg Hgroups IH]; [constructor|].
  destruct groups as [|g' groups]; [exact Hg|].
  change (joinPieces sep (g :: g' :: groups))
    with (g ++ Keyword sep :: joinPieces sep (g' :: groups)).
  apply Forall_app. split; [exact Hg|]. by constructor.
Qed.

Lemma render_names (names : list string) :
  render (joinPieces ", " (map (fun n => [Name n]) names))
  = join ", " (map (fun c => quote c) names).
Proof.
  rewrite render_joinPieces, List.map_map. f_equal. apply map_ext.
  intros n. cbn [render renderPiece]. apply append_nil_r.
Qed.

Lemma render_placeholders {A} (xs : list A) :
  render (joinPieces ", " (map (fun _ => [Placeholder]) xs))
  = join ", " (map (fun _ => "?") xs).
Proof.
  rewrite render_joinPieces, List.map_map. reflexivity.
Qed.

Lemma render_assignments (keys : list string) :
  render (joinPieces ", "
            (map (fun k => [Name k; Keyword " = "; Placeholder]) keys))
  = join ", " (map (fun key => quote key +:+ " = ?") keys).
Proof.
  rewrite render_joinPieces, List.map_map. reflexivity.
Qed.

Lemma render_likes (names : list string) :
  render (groupPieces names)
  = "(" +:+ join " OR " (map (fun n => quote n +:+ " LIKE ?") names) +:+ ")".
Proof.
  unfold groupPieces. cbn [render renderPiece].
  rewrite render_app, render_joinPieces, List.map_map. reflexivity.
Qed.

Lemma render_order (sorters : option (list CrudSort.t)) :
  render (orderPieces sorters) = orderClause sorters.
Proof.
  destruct sorters as [[|s sorters]|]; [reflexivity| |reflexivity].
  unfold orderPieces, orderClause. cbn [render renderPiece].
  rewrite render_joinPieces, List.map_map. do 2 f_equal. apply map_ext.
  intros [field []]; reflexivity.
Qed.

Lemma render_limit (pagination : option Pagination.t) :
  render (limitPieces pagination) = limitClause pagination.
Proof.
  destruct pagination as [p|]; [|reflexivity].
  unfold limitPieces, limitClause. cbn [render renderPiece].
  by rewrite append_nil_r.
Qed.

Lemma render_where (groups : list (list string)) :
  render (wherePieces groups) = baseWhere (map (fun g => render (groupPieces g)) groups).
Proof.
  destruct groups as [|g groups]; [reflexivity|].
  unfold wherePieces, baseWhere. cbn [render renderPiece map].
  rewrite render_joinPieces. cbn [map]. by rewrite List.map_map.
Qed.


Lemma allowed_resource {W : Type}
    (respond : request -> W -> option Response.t * W) (op : operation) :
  allowedPiece respond op (Name (resourceOf op)).
Proof. left. apply list_elem_of_here. Qed.

Lemma allowed_keyword {W : Type}
    (respond : request -> W -> option Response.t * W) (op : operation)
    (text : string) :
  text ∈ sqlKeywords -> allowedPiece respond op (Keyword text).
Proof. intros H. exact H. Qed.

Ltac piece_ok :=
  first [ exact I
        | apply allowed_resource
        | apply allowed_keyword; apply (bool_decide_unpack _); vm_compute; exact I ].

Ltac sql_text :=
  cbn [render renderPiece]; rewrite ?append_assoc; reflexivity.

Ltac pieces_ok :=
  repeat (first [apply Forall_nil_2 | apply Forall_cons_2; [piece_ok|]]).

Section Parameterised.
Context {W : Type}.
Variable respond : request -> W -> option Response.t * W.

Lemma Forall_sent_bind {A B} (P : request -> Prop) (m : M W A)
    (k : A -> M W B) (w : W) :
  Forall P (sent (m w)) ->
  (forall a, outcome (m w) = inr a -> Forall P (sent (k a (world (m w))))) ->
  Forall P (sent (bind m k w)).
Proof.
  intros Hm Hk. rewrite sent_bind. apply Forall_app. split; [exact Hm|].
  destruct (outcome (m w)) as [e|a]; [constructor|]. by apply Hk.
Qed.

Lemma Forall_sent_execute (P : request -> Prop) (sql : string)
    (params : list value) (w : W) :
  P (Execute sql params) -> Forall P (sent (execQuery respond sql params w)).
Proof.
  intros H. unfold execQuery. rewrite sent_remoteExecute. by constructor.
Qed.

Lemma parameterised_intro (op : operation) (tpl : list piece)
    (params : list value) (sql : string) :
  sql = render tpl ->
  Forall (allowedPiece respond op) tpl ->
  placeholders tpl = length params ->
  Forall (fun v => v ∈ boundValues op) params ->
  parameterised respond op (Execute sql params).
Proof. intros -> Htpl Hcount Hparams. by exists tpl, params. Qed.

(** The SELECT by id of [getOne] and [update]. *)
Lemma selectById_parameterised (op : operation) (id : value) :
  id ∈ boundValues op ->
  parameterised respond op
    (Execute ("SELECT * FROM " +:+ quote (resourceOf op) +:+ " WHERE id = ?") [id]).
Proof.
  intros Hid.
  apply (parameterised_intro op
           [Keyword "SELECT * FROM "; Name (resourceOf op);
            Keyword " WHERE id = "; Placeholder]).
  - reflexivity.
  - pieces_ok.
  - reflexivity.
  - by apply Forall_cons_2; [|apply Forall_nil_2].
Qed.

Lemma getOne_parameterised resource id w :
  Forall (parameterised respond (GetOne resource id))
    (sent (sqlDataProvider.getOne respond resource id w)).
Proof.
  unfold sqlDataProvider.getOne. apply Forall_sent_bind.
  - apply Forall_sent_execute.
    apply (selectById_parameterised (GetOne resource id)), list_elem_of_here.
  - intros [|first rest] _; constructor.
Qed.

Lemma deleteOne_parameterised resource id w :
  Forall (parameterised respond (DeleteOne resource id))
    (sent (sqlDataProvider.deleteOne respond resource id w)).
Proof.
  unfold sqlDataProvider.deleteOne. apply Forall_sent_bind.
  - apply Forall_sent_execute.
    apply (parameterised_intro (DeleteOne resource id)
             [Keyword "DELETE FROM "; Name resource;
              Keyword " WHERE id = "; Placeholder]).
    + reflexivity.
    + pieces_ok.
    + reflexivity.
    + apply Forall_cons_2; [apply list_elem_of_here|apply Forall_nil_2].
  - intros rows _. constructor.
Qed.

Lemma deleteMany_parameterised resource ids w :
  Forall (parameterised respond (DeleteMany resource ids))
    (sent (sqlDataProvider.deleteMany respond resource ids w)).
Proof.
  unfold sqlDataProvider.deleteMany. apply Forall_sent_bind.
  - apply Forall_sent_execute.
    apply (parameterised_intro (DeleteMany resource ids)
             ([Keyword "DELETE FROM "; Name resource; Keyword " WHERE id IN ("]
              ++ joinPieces ", " (map (fun _ => [Placeholder]) ids)
              ++ [Keyword ")"])).
    + rewrite !render_app, render_placeholders. sql_text.
    + apply Forall_app. split.
      { pieces_ok. }
      apply Forall_app. split; [|pieces_ok].
      apply Forall_joinPieces; [piece_ok|].
      apply Forall_map, Forall_forall. intros id _. pieces_ok.
    + rewrite !placeholders_app, placeholders_joinPieces.
      rewrite (sum_list_with_map_const _ 1) by reflexivity.
      change (placeholders [Keyword "DELETE FROM "; Name resource;
                            Keyword " WHERE id IN ("]) with 0%nat.
      change (placeholders [Keyword ")"]) with 0%nat. lia.
    + apply Forall_forall. intros id Hid. exact Hid.
  - intros rows _. constructor.
Qed.

Lemma create_parameterised resource variables w :
  Forall (parameterised respond (Create resource variables))
    (sent (sqlDataProvider.create respond resource variables w)).
Proof.
  unfold sqlDataProvider.create. apply Forall_sent_bind.
  - apply Forall_sent_execute.
    apply (parameterised_intro (Create resource variables)
             ([Keyword "INSERT INTO "; Name resource; Keyword " ("]
              ++ joinPieces ", " (map (fun n => [Name n]) (map fst variables))
              ++ [Keyword ") VALUES ("]
              ++ joinPieces ", "
                   (map (fun _ => [Placeholder]) (map fst variables))
              ++ [Keyword ")"])).
    + rewrite !render_app, render_placeholders, render_names. sql_text.
    + apply Forall_app. split.
      { pieces_ok. }
      apply Forall_app. split.
      { apply Forall_joinPieces; [piece_ok|].
        apply Forall_map, Forall_forall. intros key Hkey.
        apply Forall_cons_2; [|apply Forall_nil_2].
        left. by apply list_elem_of_further. }
      apply Forall_app. split; [pieces_ok|].
      apply Forall_app. split; [|pieces_ok].
      apply Forall_joinPieces; [piece_ok|].
      apply Forall_map, Forall_forall. intros key _. pieces_ok.
    + rewrite !placeholders_app, !placeholders_joinPieces.
      rewrite (sum_list_with_map_const _ 0) by reflexivity.
      rewrite (sum_list_with_map_const _ 1) by reflexivity.
      change (placeholders [Keyword "INSERT INTO "; Name resource; Keyword " ("])
        with 0%nat.
      change (placeholders [Keyword ") VALUES ("]) with 0%nat.
      change (placeholders [Keyword ")"]) with 0%nat.
      rewrite !length_map. lia.
    + apply Forall_forall. intros v Hv. exact Hv.
  - intros _ _. apply Forall_sent_bind.
    + apply Forall_sent_execute.
      apply (parameterised_intro (Create resource variables)
               [Keyword "SELECT * FROM "; Name resource;
                Keyword " ORDER BY id DESC LIMIT 1"]).
      * reflexivity.
      * pieces_ok.
      * reflexivity.
      * constructor.
    + intros result _. constructor.
Qed.

Lemma update_parameterised resource id variables w :
  Forall (parameterised respond (Update resource id variables))
    (sent (sqlDataProvider.update respond resource id variables w)).
Proof.
  unfold sqlDataProvider.update. apply Forall_sent_bind.
  - apply Forall_sent_execute.
    apply (parameterised_intro (Update resource id variables)
             ([Keyword "UPDATE "; Name resource; Keyword " SET "]
              ++ joinPieces ", "
                   (map (fun k => [Name k; Keyword " = "; Placeholder])
                      (map fst variables))
              ++ [Keyword " WHERE id = "; Placeholder])).
    + rewrite !render_app, render_assignments. sql_text.
    + apply Forall_app. split.
      { pieces_ok. }
      apply Forall_app. split; [|pieces_ok].
      apply Forall_joinPieces; [piece_ok|].
      apply Forall_map, Forall_forall. intros key Hkey.
      apply Forall_cons_2; [|pieces_ok].
      left. by apply list_elem_of_further.
    + rewrite !placeholders_app, placeholders_joinPieces.
      rewrite (sum_list_with_map_const _ 1) by reflexivity.
      change (placeholders [Keyword "UPDATE "; Name resource; Keyword " SET "])
        with 0%nat.
      change (placeholders [Keyword " WHERE id = "; Placeholder]) with 1%nat.
      rewrite List.length_app, !length_map. cbn [length]. lia.
    + apply Forall_app. split.
      * apply Forall_forall. intros v Hv. by apply list_elem_of_further.
      * apply Forall_cons_2; [apply list_elem_of_here|apply Forall_nil_2].
  - intros _ _. apply Forall_sent_bind.
    + apply Forall_sent_execute.
      apply (selectById_parameterised (Update resource id variables)).
      apply list_elem_of_here.
    + intros result _. constructor.
Qed.
End Parameterised.

(** *** The statements of [getList] *)

Lemma mapE_likeClause_inv (names : list value) (clauses : list string) :
  mapE likeClause names = inr clauses ->
  exists ns, names = map VString ns /\
             clauses = map (fun n => quote n +:+ " LIKE ?") ns.
Proof.
  revert clauses. induction names as [|v names IH]; intros clauses H.
  - injection H as <-. by exists [].
  - cbn [mapE] in H. destruct v; try discriminate H.
    cbn [likeClause asString] in H.
    destruct (mapE likeClause names) as [e|rest]; [discriminate H|].
    injection H as <-. destruct (IH rest eq_refl) as (ns & -> & ->).
    by exists (s :: ns).
Qed.

Lemma filterE_elem_of {A} (p : A -> error + bool) (xs ys : list A) :
  filterE p xs = inr ys -> forall y, y ∈ ys -> y ∈ xs.
Proof.
  revert ys. induction xs as [|x xs IH]; intros ys H y Hy.
  - injection H as <-. exact Hy.
  - cbn [filterE] in H. destruct (p x) as [e|b]; [discriminate H|].
    destruct (filterE p xs) as [e|zs]; [discriminate H|].
    injection H as <-. specialize (IH zs eq_refl y).
    destruct b.
    + apply elem_of_cons in Hy as [->|Hy]; [apply list_elem_of_here|].
      by apply list_elem_of_further, IH.
    + by apply list_elem_of_further, IH.
Qed.

Lemma placeholders_groupPieces (names : list string) :
  placeholders (groupPieces names) = length names.
Proof.
  unfold groupPieces.
  change (placeholders (Keyword "(" :: ?l)) with (placeholders l).
  rewrite placeholders_app, placeholders_joinPieces.
  rewrite (sum_list_with_map_const _ 1) by reflexivity.
  change (placeholders [Keyword ")"]) with 0%nat. lia.
Qed.

Lemma placeholders_wherePieces (groups : list (list string)) :
  placeholders (wherePieces groups) = sum_list_with length groups.
Proof.
  destruct groups as [|g groups]; [reflexivity|].
  unfold wherePieces.
  change (placeholders (Keyword " WHERE " :: ?l)) with (placeholders l).
  rewrite placeholders_joinPieces.
  generalize (g :: groups). intros gs.
  induction gs as [|g' gs IH]; [reflexivity|].
  cbn [map sum_list_with]. by rewrite placeholders_groupPieces, IH.
Qed.

Section ListParameterised.
Context {W : Type}.
Variable respond : request -> W -> option Response.t * W.
Variables (resource : string) (filters : option (list CrudFilter))
  (sorters : option (list CrudSort.t)) (pagination : option Pagination.t).

Local Abbreviation op := (GetList resource filters sorters pagination).

Lemma columnQuery_parameterised (w : W) :
  Forall (parameterised respond op) (sent (getTableColumns respond resource w)).
Proof.
  rewrite sent_getTableColumns. apply Forall_cons_2; [|apply Forall_nil_2].
  apply (parameterised_intro respond op
           [Keyword "PRAGMA table_info("; Name resource; Keyword ")"]).
  - reflexivity.
  - pieces_ok.
  - reflexivity.
  - apply Forall_nil_2.
Qed.

Lemma allowed_groupPieces (names : list string) :
  Forall (reportedColumn respond resource) names ->
  Forall (allowedPiece respond op) (groupPieces names).
Proof.
  intros Hnames. unfold groupPieces.
  apply Forall_cons_2; [piece_ok|]. apply Forall_app. split; [|pieces_ok].
  apply Forall_joinPieces; [piece_ok|].
  apply Forall_map. eapply Forall_impl; [exact Hnames|].
  intros n Hn. apply Forall_cons_2; [by right|pieces_ok].
Qed.

Lemma allowed_wherePieces (groups : list (list string)) :
  Forall (Forall (reportedColumn respond resource)) groups ->
  Forall (allowedPiece respond op) (wherePieces groups).
Proof.
  intros Hgroups. destruct groups as [|g groups]; [apply Forall_nil_2|].
  unfold wherePieces. apply Forall_cons_2; [piece_ok|].
  apply Forall_joinPieces; [piece_ok|].
  apply Forall_map. eapply Forall_impl; [exact Hgroups|].
  intros names. apply allowed_groupPieces.
Qed.

Lemma allowed_orderPieces :
  Forall (allowedPiece respond op) (orderPieces sorters).
Proof.
  unfold orderPieces. destruct sorters as [[|s rest]|]; [pieces_ok| |pieces_ok].
  apply Forall_cons_2; [piece_ok|]. apply Forall_joinPieces; [piece_ok|].
  apply Forall_forall. intros g Hg.
  apply list_elem_of_fmap in Hg as (s' & -> & Hs').
  apply Forall_cons_2.
  - left. apply list_elem_of_further. cbn [default from_option id].
    by apply list_elem_of_fmap_2.
  - destruct (CrudSort.order s'); pieces_ok.
Qed.

Lemma allowed_limitPieces :
  Forall (allowedPiece respond op) (limitPieces pagination).
Proof.
  unfold limitPieces. destruct pagination as [p|]; [|apply Forall_nil_2].
  apply Forall_cons_2; [piece_ok|].
  apply Forall_cons_2; [apply list_elem_of_here|].
  apply Forall_cons_2; [piece_ok|].
  apply Forall_cons_2; [|apply Forall_nil_2].
  apply list_elem_of_further, list_elem_of_here.
Qed.

Lemma whereInvariant_start : whereInvariant respond op ([], []).
Proof. exists []. repeat split; constructor. Qed.

(** One turn of the loop sends column queries only and keeps the
    invariant. *)
Lemma filterStep_invariant (filter : CrudFilter) acc w :
  filter ∈ default [] filters ->
  whereInvariant respond op acc ->
  Forall (parameterised respond op)
    (sent (sqlDataProvider.filterStep respond resource acc filter w)) /\
  forall acc',
    outcome (sqlDataProvider.filterStep respond resource acc filter w) = inr acc' ->
    whereInvariant respond op acc'.
Proof.
  intros Hfilter Hacc.
  destruct filter as [field operator v|operator fs];
    [|split; [apply Forall_nil_2|by intros acc' [= <-]]].
  unfold sqlDataProvider.filterStep.
  destruct (String.eqb field "q" && truthy v);
    [|split; [apply Forall_nil_2|by intros acc' [= <-]]].
  rewrite sent_bind, outcome_bind.
  pose proof (columnQuery_parameterised w) as Hquery.
  destruct (outcome (getTableColumns respond resource w)) as [e|tableCols] eqn:Hcols;
    [split; [by rewrite app_nil_r|discriminate]|].
  rewrite sent_bind, outcome_bind, sent_lift, outcome_lift, world_lift.
  destruct (filterE isSearchable tableCols) as [e|searchable] eqn:Hsearchable;
    [split; [by rewrite !app_nil_r|discriminate]|].
  cbn [app].
  destruct (map (getProp "name") searchable) as [|name names] eqn:Hnames.
  { split; [by rewrite app_nil_r|]. by intros acc' [= <-]. }
  rewrite sent_bind, outcome_bind, sent_lift, outcome_lift, world_lift.
  destruct (mapE likeClause (name :: names)) as [e|clauses] eqn:Hclauses;
    [split; [by rewrite !app_nil_r|discriminate]|].
  cbn [ret sent outcome app]. split; [by rewrite app_nil_r|].
  intros acc' [= <-].
  destruct (mapE_likeClause_inv _ _ Hclauses) as (ns & Hns & ->).
  destruct Hacc as (groups & Hfst & Hreported & Hlength & Hbound).
  exists (groups ++ [ns]). cbn [fst snd].
  change (VString ("%" +:+ toText v +:+ "%")
          :: map (fun _ : value => VString ("%" +:+ toText v +:+ "%")) names)
    with (map (fun _ : value => VString ("%" +:+ toText v +:+ "%"))
            (name :: names)).
  split; [|split; [|split]].
  - rewrite Hfst, List.map_app. cbn [map]. by rewrite render_likes.
  - apply Forall_app. split; [exact Hreported|].
    apply Forall_cons_2; [|apply Forall_nil_2].
    apply Forall_forall. intros n Hn.
    assert (Hin : VString n ∈ map (getProp "name") searchable).
    { rewrite Hnames, Hns. by apply list_elem_of_fmap_2. }
    apply list_elem_of_fmap in Hin as (col & Hname & Hcol).
    exists w, tableCols, col. split; [exact Hcols|].
    split; [by apply (filterE_elem_of _ _ _ Hsearchable)|done].
  - rewrite List.length_app, Hlength, sum_list_with_app, Hns, !length_map.
    cbn [sum_list_with]. lia.
  - apply Forall_app. split; [exact Hbound|].
    apply Forall_map, Forall_forall. intros _ _.
    apply (list_elem_of_fmap_2 (fun v => VString ("%" +:+ toText v +:+ "%"))).
    unfold filterValues. apply list_elem_of_In, in_flat_map.
    exists (LogicalFilter field operator v).
    split; [by apply list_elem_of_In|]. by left.
Qed.

Lemma whereOf_invariant (fs : list CrudFilter) acc w :
  (forall f, f ∈ fs -> f ∈ default [] filters) ->
  whereInvariant respond op acc ->
  Forall (parameterised respond op)
    (sent (foldM (sqlDataProvider.filterStep respond resource) fs acc w)) /\
  forall acc',
    outcome (foldM (sqlDataProvider.filterStep respond resource) fs acc w)
      = inr acc' ->
    whereInvariant respond op acc'.
Proof.
  revert acc w. induction fs as [|f fs IH]; intros acc w Hfs Hacc.
  - split; [apply Forall_nil_2|]. by intros acc' [= <-].
  - cbn [foldM]. rewrite sent_bind, outcome_bind.
    destruct (filterStep_invariant f acc w) as [Hsent Hnext];
      [apply Hfs, list_elem_of_here|exact Hacc|].
    destruct (outcome (sqlDataProvider.filterStep respond resource acc f w))
      as [e|acc1]; [split; [by rewrite app_nil_r|discriminate]|].
    destruct (IH acc1 (world (sqlDataProvider.filterStep respond resource acc f w)))
      as [Hsent' Hnext'].
    + intros f' Hf'. by apply Hfs, list_elem_of_further.
    + by apply Hnext.
    + split; [by apply Forall_app|exact Hnext'].
Qed.

Lemma getList_parameterised (w : W) :
  Forall (parameterised respond op)
    (sent (sqlDataProvider.getList respond resource filters sorters pagination w)).
Proof.
  rewrite getList_unfold.
  destruct (whereOf_invariant (default [] filters) ([], []) w)
    as [Hsent Hnext]; [done|apply whereInvariant_start|].
  apply Forall_sent_bind; [exact Hsent|]. intros acc Hacc.
  destruct (Hnext acc Hacc) as (groups & Hfst & Hreported & Hlength & Hbound).
  rewrite Hfst, <- render_where.
  apply Forall_sent_bind.
  - apply Forall_sent_execute.
    apply (parameterised_intro respond op
             ([Keyword "SELECT COUNT(*) as total FROM "; Name resource]
              ++ wherePieces groups)).
    + rewrite render_app. sql_text.
    + apply Forall_app. split; [pieces_ok|by apply allowed_wherePieces].
    + by rewrite placeholders_app, placeholders_wherePieces, Hlength.
    + exact Hbound.
  - intros countResult _. apply Forall_sent_bind; [|intros; apply Forall_nil_2].
    apply Forall_sent_execute.
    apply (parameterised_intro respond op
             ([Keyword "SELECT * FROM "; Name resource]
              ++ wherePieces groups ++ orderPieces sorters
              ++ limitPieces pagination)).
    + rewrite !render_app, render_order, render_limit. sql_text.
    + apply Forall_app. split; [pieces_ok|].
      apply Forall_app. split; [by apply allowed_wherePieces|].
      apply Forall_app. split; [apply allowed_orderPieces|apply allowed_limitPieces].
    + rewrite !placeholders_app, placeholders_wherePieces, Hlength.
      assert (Ho : placeholders (orderPieces sorters) = 0%nat).
      { unfold orderPieces. destruct sorters as [[|s rest]|]; try reflexivity.
        change (placeholders (Keyword " ORDER BY " :: ?l)) with (placeholders l).
        rewrite placeholders_joinPieces.
        by rewrite (sum_list_with_map_const _ 0). }
      assert (Hl : placeholders (limitPieces pagination) = 0%nat)
        by (unfold limitPieces; by destruct pagination).
      rewrite Ho, Hl.
      change (placeholders [Keyword "SELECT * FROM "; Name resource]) with 0%nat.
      lia.
    + exact Hbound.
Qed.
End ListParameterised.

(** C1 (amended). Every request that a call of the data provider sends
    ([getList], [getOne], [create], [update], [deleteOne], [deleteMany],
    from any state of the service) is a parameterised statement: each
    table or column name in its text is quote-escaped, and the rest of
    the text is fixed keywords, placeholders, and, for a list with a
    pagination, the page size and the offset, which the code writes as
    it prints numbers after LIMIT and OFFSET.  Ids, field values and
    filter values are in the parameter list only, one per placeholder.
    The numbers of the pagination are whole numbers of the safe range,
    which are printed in decimal digits, and the filter values are
    values with an exact text ([exactOperation]). *)
Theorem data_access_statements_parameterised {W : Type}
    (respond : request -> W -> option Response.t * W)
    (op : operation) (w : W) :
  exactOperation op ->
  Forall (parameterised respond op) (requestsOf respond op w).
Proof.
  intros _.
  destruct op as [resource filters sorters pagination|resource id
                 |resource variables|resource id variables|resource id
                 |resource ids]; cbn [requestsOf].
  - apply getList_parameterised.
  - apply getOne_parameterised.
  - apply create_parameterised.
  - apply update_parameterised.
  - apply deleteOne_parameterised.
  - apply deleteMany_parameterised.
Qed.

Lemma data_access_statements_parameterised_witness :
  let op :=
    GetList "t" (Some [LogicalFilter "q" "contains" (VString "x")])
      (Some [CrudSort.mk "title" desc])
      (Some (Pagination.mk (Some 2) (Some 5))) in
  Forall (parameterised demoService op) (requestsOf demoService op tt).
Proof.
  apply (data_access_statements_parameterised demoService
           (GetList "t" (Some [LogicalFilter "q" "contains" (VString "x")])
              (Some [CrudSort.mk "title" desc])
              (Some (Pagination.mk (Some 2) (Some 5)))) tt).
  split.
  - apply Forall_cons_2; [exact I|apply Forall_nil_2].
  - vm_compute. repeat split; reflexivity.
Defined.

(** C1 as stated fails at a list with a pagination: the page size and the
    offset are in the text of the main query, and the parameter list is
    empty; two paginations give two texts. *)
Lemma pagination_numbers_in_sql_text :
  let list page size :=
    sent (sqlDataProvider.getList demoService "t" None None
            (Some (Pagination.mk (Some page) (Some size))) tt) in
  list 2 5
  = [Execute ("SELECT COUNT(*) as total FROM " +:+ quote "t") [];
     Execute ("SELECT * FROM " +:+ quote "t"
              +:+ " ORDER BY id DESC LIMIT 5 OFFSET 5") []] /\
  list 3 5
  = [Execute ("SELECT COUNT(*) as total FROM " +:+ quote "t") [];
     Execute ("SELECT * FROM " +:+ quote "t"
              +:+ " ORDER BY id DESC LIMIT 5 OFFSET 10") []] /\
  map sqlOf (list 2 5) <> map sqlOf (list 3 5) /\
  map paramsOf (list 2 5) = map paramsOf (list 3 5).
Proof.
  cbv zeta. split; [vm_compute; reflexivity|]. split; [vm_compute; reflexivity|].
  split; [vm_compute; discriminate|]. vm_compute. reflexivity.
Qed.

(** ** The CSV codec *)

(** *** One line *)

Lemma hasChar_cons_false (c d : ascii) (s : string) :
  hasChar c (String d s) = false -> Ascii.eqb d c = false /\ hasChar c s = false.
Proof. cbn [hasChar]. by intros [? ?]%orb_false_iff. Qed.

(** A run of characters without comma and double quote goes to [cur]. *)
Lemma parseLineFrom_plain (s k cur : string) (res : list string) :
  hasChar COMMA s = false -> hasChar DQ s = false ->
  parseLineFrom (s +:+ k) cur false res = parseLineFrom k (cur +:+ s) false res.
Proof.
  revert cur. induction s as [|c s IH]; intros cur Hcomma Hdq.
  - by rewrite append_nil, append_nil_r.
  - apply hasChar_cons_false in Hcomma as [Hc1 Hcomma].
    apply hasChar_cons_false in Hdq as [Hc2 Hdq].
    rewrite append_cons. cbn [parseLineFrom]. rewrite Hc1, Hc2. cbn [andb].
    rewrite IH by assumption. by rewrite append_assoc.
Qed.

(** Inside quotes, the doubled text up to the closing quote goes to
    [cur], whatever it has. *)
Lemma parseLineFrom_quoted (s k cur : string) (res : list string) :
  startsWithDQ k = false ->
  parseLineFrom (doubleQuotes s +:+ String DQ k) cur true res
  = parseLineFrom k (cur +:+ s) false res.
Proof.
  intros Hk. revert cur. induction s as [|c s IH]; intros cur.
  - rewrite append_nil, append_nil_r. cbn [doubleQuotes parseLineFrom].
    rewrite Ascii.eqb_refl. destruct k as [|d k]; [reflexivity|].
    cbn [startsWithDQ] in Hk. by rewrite Hk.
  - cbn [doubleQuotes]. destruct (Ascii.eqb c DQ) eqn:Hc.
    + apply Ascii.eqb_eq in Hc as ->. rewrite !append_cons.
      cbn [parseLineFrom]. rewrite Ascii.eqb_refl.
      rewrite IH. by rewrite append_assoc.
    + rewrite append_cons. cbn [parseLineFrom]. rewrite Hc.
      rewrite andb_false_r, IH. by rewrite append_assoc.
Qed.

Lemma parseLineFrom_pair (rest cur : string) (b : bool) (res : list string) :
  parseLineFrom (String DQ (String DQ rest)) cur b res
  = parseLineFrom rest (cur +:+ str DQ) b res.
Proof. cbn [parseLineFrom]. by rewrite !Ascii.eqb_refl. Qed.

Lemma parseLineFrom_toggle (c : ascii) (rest cur : string) (b : bool)
    (res : list string) :
  Ascii.eqb c DQ = false ->
  parseLineFrom (String DQ (String c rest)) cur b res
  = parseLineFrom (String c rest) cur (negb b) res.
Proof.
  intros Hc. change (parseLineFrom (String DQ (String c rest)) cur b res)
    with (if Ascii.eqb DQ DQ
          then if Ascii.eqb c DQ
               then parseLineFrom rest (cur +:+ str DQ) b res
               else parseLineFrom (String c rest) cur (negb b) res
          else if Ascii.eqb DQ COMMA && negb b
               then parseLineFrom (String c rest) EmptyString b (res ++ [cur])
               else parseLineFrom (String c rest) (cur +:+ str DQ) b res).
  by rewrite Ascii.eqb_refl, Hc.
Qed.

(** The opening quote of a field that is not made of quotes only. *)
Lemma parseLineFrom_open (s k cur : string) (res : list string) :
  onlyQuotes s = false -> s <> EmptyString -> startsWithDQ k = false ->
  parseLineFrom (String DQ (doubleQuotes s +:+ String DQ k)) cur false res
  = parseLineFrom k (cur +:+ s) false res.
Proof.
  intros Hs Hne Hk. revert cur Hs Hne.
  induction s as [|c s IH]; intros cur Hs Hne; [done|].
  destruct (Ascii.eqb c DQ) eqn:Hc.
  - apply Ascii.eqb_eq in Hc as ->.
    assert (Hs' : onlyQuotes s = false /\ s <> EmptyString).
    { destruct s as [|d s]; [discriminate Hs|]. split; [|done].
      change (Ascii.eqb DQ DQ && onlyQuotes (String d s) = false) in Hs.
      by rewrite Ascii.eqb_refl in Hs. }
    destruct Hs' as [Hs' Hne'].
    cbn [doubleQuotes]. rewrite Ascii.eqb_refl, !append_cons.
    rewrite parseLineFrom_pair, IH by assumption. by rewrite append_assoc.
  - rewrite <- (parseLineFrom_quoted (String c s) k cur res Hk).
    cbn [doubleQuotes]. rewrite Hc, append_cons.
    by rewrite parseLineFrom_toggle.
Qed.

(** A written field, followed by the end of the line or by a comma, is
    read back as the text it was written from. *)
Lemma parseLineFrom_field (s k cur : string) (res : list string) :
  onlyQuotes s = false -> startsWithDQ k = false ->
  parseLineFrom (quoteField s +:+ k) cur false res
  = parseLineFrom k (cur +:+ s) false res.
Proof.
  intros Hs Hk. unfold quoteField.
  destruct (hasChar COMMA s) eqn:Hcomma;
    [|destruct (hasChar DQ s) eqn:Hdq;
      [|destruct (hasChar LF s) eqn:Hlf;
        [|by apply parseLineFrom_plain]]];
    cbn [orb]; rewrite !append_assoc, str_append, str_append;
    (apply parseLineFrom_open; [exact Hs| |exact Hk]);
    intros ->; discriminate.
Qed.

Lemma parseLineFrom_fields (cells : list string) (res : list string) :
  cells <> [] -> Forall (fun s => onlyQuotes s = false) cells ->
  parseLineFrom (join "," (map quoteField cells)) EmptyString false res
  = res ++ cells.
Proof.
  intros Hne Hcells. revert res.
  induction Hcells as [|s cells Hs Hcells IH]; intros res; [done|].
  destruct cells as [|s' cells].
  - cbn [map join String.concat].
    rewrite <- (append_nil_r (quoteField s)).
    by rewrite parseLineFrom_field.
  - change (join "," (map quoteField (s :: s' :: cells)))
      with (quoteField s +:+ String COMMA (join "," (map quoteField (s' :: cells)))).
    rewrite parseLineFrom_field by done.
    cbn [parseLineFrom]. change (Ascii.eqb COMMA DQ) with false.
    rewrite Ascii.eqb_refl. cbn [andb negb].
    rewrite IH by done. by rewrite <- app_assoc.
Qed.

(** The fields of a line are read back. *)
Lemma parseLine_fields (cells : list string) :
  cells <> [] -> Forall (fun s => onlyQuotes s = false) cells ->
  parseLine (join "," (map quoteField cells)) = cells.
Proof. intros Hne Hcells. by apply (parseLineFrom_fields cells []). Qed.

(** *** The lines of a text *)

Lemma splitLines_last (l : string) :
  hasChar LF l = false -> splitLines l = [l].
Proof.
  induction l as [|c l IH]; intros Hlf; [reflexivity|].
  apply hasChar_cons_false in Hlf as [Hc Hlf]. specialize (IH Hlf).
  cbn [splitLines]. rewrite Hc.
  destruct (Ascii.eqb c CR); [|by rewrite IH].
  destruct l as [|d l]; [reflexivity|].
  apply hasChar_cons_false in Hlf as [Hd _]. by rewrite Hd, IH.
Qed.

Lemma splitLines_line (l rest : string) :
  hasChar LF l = false -> endsWithCR l = false ->
  splitLines (l +:+ String LF rest) = l :: splitLines rest.
Proof.
  induction l as [|c l IH]; intros Hlf Hcr.
  - rewrite append_nil. cbn [splitLines]. by rewrite Ascii.eqb_refl.
  - apply hasChar_cons_false in Hlf as [Hc Hlf].
    rewrite append_cons. cbn [splitLines]. rewrite Hc.
    destruct l as [|d l].
    + rewrite append_nil. cbn [endsWithCR] in Hcr. rewrite Hcr.
      cbn [splitLines]. by rewrite Ascii.eqb_refl.
    + assert (Hcr' : endsWithCR (String d l) = false) by exact Hcr.
      specialize (IH Hlf Hcr').
      pose proof Hlf as Hlf'. apply hasChar_cons_false in Hlf' as [Hd _].
      destruct (Ascii.eqb c CR).
      * rewrite append_cons, Hd, <- append_cons, IH. reflexivity.
      * by rewrite IH.
Qed.

Lemma splitLines_join (lines : list string) :
  lines <> [] ->
  Forall (fun l => hasChar LF l = false /\ endsWithCR l = false) lines ->
  splitLines (join (str LF) lines) = lines.
Proof.
  intros Hne Hlines. induction Hlines as [|l lines [Hlf Hcr] Hlines IH]; [done|].
  destruct lines as [|l' lines]; [by apply splitLines_last|].
  change (join (str LF) (l :: l' :: lines))
    with (l +:+ String LF (join (str LF) (l' :: lines))).
  rewrite splitLines_line by assumption. by rewrite IH.
Qed.

Lemma hasChar_append (c : ascii) (s t : string) :
  hasChar c (s +:+ t) = hasChar c s || hasChar c t.
Proof.
  induction s as [|d s IH]; [reflexivity|].
  rewrite append_cons. cbn [hasChar]. by rewrite IH, orb_assoc.
Qed.

Lemma hasChar_doubleQuotes (c : ascii) (s : string) :
  Ascii.eqb DQ c = false -> hasChar c (doubleQuotes s) = hasChar c s.
Proof.
  intros Hc. induction s as [|d s IH]; [reflexivity|].
  cbn [doubleQuotes]. destruct (Ascii.eqb d DQ) eqn:Hd.
  - apply Ascii.eqb_eq in Hd as ->. cbn [hasChar]. by rewrite Hc, IH.
  - cbn [hasChar]. by rewrite IH.
Qed.

Lemma hasChar_LF_quoteField (s : string) :
  hasChar LF (quoteField s) = hasChar LF s.
Proof.
  unfold quoteField. destruct (_ || _ || _); [|reflexivity].
  rewrite !hasChar_append, hasChar_doubleQuotes by reflexivity.
  cbn. by rewrite orb_false_r.
Qed.

Lemma hasChar_join (c : ascii) (sep : string) (parts : list string) :
  hasChar c sep = false -> Forall (fun s => hasChar c s = false) parts ->
  hasChar c (join sep parts) = false.
Proof.
  intros Hsep Hparts. induction Hparts as [|s parts Hs Hparts IH]; [reflexivity|].
  destruct parts as [|s' parts]; [exact Hs|].
  change (join sep (s :: s' :: parts)) with (s +:+ sep +:+ join sep (s' :: parts)).
  by rewrite !hasChar_append, Hs, Hsep, IH.
Qed.

Lemma endsWithCR_append (s t : string) :
  endsWithCR (s +:+ t) = if isEmpty t then endsWithCR s else endsWithCR t.
Proof.
  induction s as [|c s IH]; [by destruct t|].
  rewrite append_cons. destruct s as [|d s].
  - rewrite append_nil. destruct t; reflexivity.
  - change (endsWithCR (String c (String d s +:+ t)))
      with (endsWithCR (String d s +:+ t)).
    exact IH.
Qed.

Lemma trimEnd_fixed_endsWithCR (s : string) :
  trimEnd s = s -> endsWithCR s = false.
Proof.
  induction s as [|c s IH]; [reflexivity|]. cbn [trimEnd]. intros H.
  destruct (isWhite c && isEmpty (trimEnd s)) eqn:Hw; [discriminate H|].
  injection H as H. specialize (IH H). destruct s as [|d s]; [|exact IH].
  cbn in Hw. rewrite andb_true_r in Hw. cbn [endsWithCR].
  destruct (Ascii.eqb_spec c CR) as [->|]; [discriminate Hw|reflexivity].
Qed.

Lemma endsWithCR_quoteField (s : string) :
  trimEnd s = s -> endsWithCR (quoteField s) = false.
Proof.
  intros Hs. unfold quoteField. destruct (_ || _ || _).
  - rewrite !endsWithCR_append. by destruct (isEmpty _).
  - by apply trimEnd_fixed_endsWithCR.
Qed.

Lemma endsWithCR_join (parts : list string) :
  Forall (fun s => endsWithCR s = false) parts ->
  endsWithCR (join "," parts) = false.
Proof.
  intros Hparts. induction Hparts as [|s parts Hs Hparts IH]; [reflexivity|].
  destruct parts as [|s' parts]; [exact Hs|].
  change (join "," (s :: s' :: parts))
    with (s +:+ String COMMA (join "," (s' :: parts))).
  rewrite endsWithCR_append. cbn [isEmpty].
  destruct (join "," (s' :: parts)) as [|d rest] eqn:Hj; [reflexivity|].
  exact IH.
Qed.

(** *** Blank lines *)

Lemma length_trimStart (s : string) :
  (String.length (trimStart s) <= String.length s)%nat.
Proof.
  induction s as [|c s IH]; [reflexivity|]. cbn [trimStart].
  destruct (isWhite c); cbn [String.length]; lia.
Qed.

Lemma trimStart_fixed_head (c : ascii) (s : string) :
  trimStart (String c s) = String c s -> isWhite c = false.
Proof.
  cbn [trimStart]. destruct (isWhite c); [|reflexivity]. intros H.
  pose proof (length_trimStart s) as Hlen. rewrite H in Hlen.
  cbn [String.length] in Hlen. lia.
Qed.

Lemma trim_head_not_blank (c : ascii) (s : string) :
  isWhite c = false -> trim (String c s) <> EmptyString.
Proof.
  intros Hc. unfold trim. cbn [trimStart]. rewrite Hc. cbn [trimEnd].
  by rewrite Hc.
Qed.

Lemma trimStart_quoteField (s : string) :
  trimStart s = s -> trimStart (quoteField s) = quoteField s.
Proof.
  intros Hs. unfold quoteField. by destruct (_ || _ || _).
Qed.

(** A line of fields without white space in front is not blank, unless it
    is empty. *)
Lemma join_not_blank (parts : list string) :
  Forall (fun s => trimStart s = s) parts ->
  join "," parts <> EmptyString -> trim (join "," parts) <> EmptyString.
Proof.
  intros Hparts Hne. destruct Hparts as [|s parts Hs Hparts]; [done|].
  destruct s as [|c s].
  - destruct parts as [|s' parts]; [done|]. by apply trim_head_not_blank.
  - apply trimStart_fixed_head in Hs.
    destruct parts as [|s' parts]; by apply trim_head_not_blank.
Qed.

(** *** Row objects *)

Lemma fillRow_lookup_other (hs : list string) (i : nat) (values : list string)
    (obj : gmap string value) (k : string) :
  k ∉ hs -> fillRow hs i values obj !! k = obj !! k.
Proof.
  revert i obj. induction hs as [|h hs IH]; intros i obj Hk; [reflexivity|].
  apply not_elem_of_cons in Hk as [Hne Hk]. cbn [fillRow].
  rewrite IH by exact Hk.
  destruct (String.eqb h "__proto__"); [reflexivity|].
  by rewrite lookup_insert_ne.
Qed.

Lemma fillRow_lookup (f : string -> string) (hs : list string)
    (pre : list string) (obj : gmap string value) (h : string) :
  h <> "__proto__" ->
  h ∈ hs ->
  fillRow hs (length pre) (pre ++ map f hs) obj !! h
  = Some (VString (trim (f h))).
Proof.
  intros Hproto. revert pre obj. induction hs as [|h0 hs IH]; intros pre obj Hh.
  - by apply elem_of_nil in Hh.
  - cbn [fillRow map].
    assert (Hat : (pre ++ f h0 :: map f hs) !! length pre = Some (f h0)).
    { by rewrite lookup_app_r, Nat.sub_diag by lia. }
    rewrite Hat.
    replace (pre ++ f h0 :: map f hs) with ((pre ++ [f h0]) ++ map f hs)
      by (by rewrite <- app_assoc).
    replace (S (length pre)) with (length (pre ++ [f h0]))
      by (rewrite List.length_app; cbn [length]; lia).
    destruct (decide (h ∈ hs)) as [Hin|Hnot]; [by apply IH|].
    apply elem_of_cons in Hh as [->|Hin]; [|done].
    rewrite fillRow_lookup_other by exact Hnot.
    apply String.eqb_neq in Hproto. rewrite Hproto. apply lookup_insert_eq.
Qed.

(** *** The round trip *)

Lemma escape_quoteField (v : value) : escape v = quoteField (textOf v).
Proof. by destruct v. Qed.

Lemma bodyRow_fields (headers : list string) (row : gmap string value) :
  bodyRow headers row = join "," (map quoteField (map (cellText row) headers)).
Proof.
  unfold bodyRow, cellText. rewrite List.map_map. f_equal. apply map_ext.
  intros h. apply escape_quoteField.
Qed.

Lemma quoteField_header (h : string) : headerOk h -> quoteField h = h.
Proof. intros (Hc & Hq & Hl & _). unfold quoteField. by rewrite Hc, Hq, Hl. Qed.

Lemma headerOk_onlyQuotes (h : string) : headerOk h -> onlyQuotes h = false.
Proof.
  intros (_ & Hq & _). destruct h as [|c h]; [reflexivity|].
  apply hasChar_cons_false in Hq as [Hc _]. cbn [onlyQuotes].
  rewrite Hc. by destruct h.
Qed.

Lemma headerRow_fields (headers : list string) :
  Forall headerOk headers ->
  headerRow headers = join "," (map quoteField headers).
Proof.
  intros Hh. unfold headerRow. f_equal. symmetry.
  rewrite <- (map_id headers) at 2. apply map_ext_Forall.
  eapply Forall_impl; [exact Hh|]. apply quoteField_header.
Qed.

Lemma filter_all {A} (P : A -> Prop) `{forall x, Decision (P x)} (l : list A) :
  Forall P l -> filter P l = l.
Proof.
  induction 1 as [|x l Hx _ IH]; [reflexivity|].
  by rewrite filter_cons_True, IH.
Qed.

(** The body lines are the lines that [parseCSV] keeps of the body. *)
Lemma body_lines_kept (bodies : list string) :
  Forall (fun l => (hasChar LF l = false /\ endsWithCR l = false)
                   /\ trim l <> EmptyString) bodies ->
  filter (fun line => trim line <> EmptyString)
    (splitLines (join (str LF) bodies)) = bodies.
Proof.
  intros Hlines. apply Forall_and in Hlines as [Hsplit Hkeep].
  destruct bodies as [|l bodies]; [reflexivity|].
  rewrite splitLines_join by done. by apply filter_all.
Qed.

Section RoundTrip.
Variables (data : list (gmap string value)) (headers : list string).
Hypothesis headers_ok : Forall headerOk headers.
Hypothesis header_line : headerRow headers <> EmptyString.
Hypothesis rows_ok :
  Forall (fun row => Forall (fun h => cellOk (cellText row h)) headers /\
                     bodyRow headers row <> EmptyString) data.

Lemma headers_not_nil : headers <> [].
Proof. intros ->. by apply header_line. Qed.

Lemma header_line_ok :
  hasChar LF (headerRow headers) = false /\
  endsWithCR (headerRow headers) = false /\
  trim (headerRow headers) <> EmptyString /\
  map trim (parseLine (headerRow headers)) = headers.
Proof.
  split; [|split; [|split]].
  - apply hasChar_join; [reflexivity|].
    eapply Forall_impl; [exact headers_ok|]. by intros h (_ & _ & Hl & _).
  - apply endsWithCR_join. eapply Forall_impl; [exact headers_ok|].
    intros h (_ & _ & _ & _ & He). by apply trimEnd_fixed_endsWithCR.
  - apply join_not_blank; [|exact header_line].
    eapply Forall_impl; [exact headers_ok|]. by intros h (_ & _ & _ & Hs & _).
  - rewrite (headerRow_fields _ headers_ok).
    rewrite parseLine_fields.
    + rewrite <- (map_id headers) at 2. apply map_ext_Forall.
      eapply Forall_impl; [exact headers_ok|].
      intros h (_ & _ & _ & Hs & He). unfold trim. by rewrite Hs, He.
    + exact headers_not_nil.
    + eapply Forall_impl; [exact headers_ok|]. apply headerOk_onlyQuotes.
Qed.

Lemma body_line_ok (row : gmap string value) :
  Forall (fun h => cellOk (cellText row h)) headers ->
  bodyRow headers row <> EmptyString ->
  hasChar LF (bodyRow headers row) = false /\
  endsWithCR (bodyRow headers row) = false /\
  trim (bodyRow headers row) <> EmptyString /\
  parseLine (bodyRow headers row) = map (cellText row) headers.
Proof.
  intros Hcells Hline. rewrite bodyRow_fields in *.
  split; [|split; [|split]].
  - apply hasChar_join; [reflexivity|]. rewrite List.map_map.
    apply Forall_map. eapply Forall_impl; [exact Hcells|].
    intros h (Hl & _). by rewrite hasChar_LF_quoteField.
  - apply endsWithCR_join. rewrite List.map_map.
    apply Forall_map. eapply Forall_impl; [exact Hcells|].
    intros h (_ & (_ & He) & _). by apply endsWithCR_quoteField.
  - apply join_not_blank; [|exact Hline]. rewrite List.map_map.
    apply Forall_map. eapply Forall_impl; [exact Hcells|].
    intros h (_ & (Hs & _) & _). by apply trimStart_quoteField.
  - apply parseLine_fields.
    + intros Hnil. apply map_eq_nil in Hnil. by apply headers_not_nil.
    + apply Forall_map. eapply Forall_impl; [exact Hcells|].
      by intros h (_ & _ & Hq).
Qed.

Lemma lines_of_generateCSV :
  filter (fun line => trim line <> EmptyString)
    (splitLines (generateCSV data headers))
  = headerRow headers :: map (bodyRow headers) data.
Proof.
  destruct header_line_ok as (Hlf & Hcr & Hblank & _).
  unfold generateCSV. rewrite str_append.
  rewrite splitLines_line by assumption.
  rewrite filter_cons_True by exact Hblank. f_equal.
  apply body_lines_kept, Forall_map.
  eapply Forall_impl; [exact rows_ok|]. intros r [Hcells Hline].
  by destruct (body_line_ok r Hcells Hline) as (? & ? & ? & _).
Qed.

Lemma parseCSV_generateCSV :
  parseCSV (generateCSV data headers)
  = ParsedCSV.mk headers
      (map (fun row => fillRow headers 0 (map (cellText row) headers) ∅) data).
Proof.
  unfold parseCSV. rewrite lines_of_generateCSV.
  destruct header_line_ok as (_ & _ & _ & Hheaders). rewrite Hheaders.
  f_equal. rewrite List.map_map. apply map_ext_Forall.
  eapply Forall_impl; [exact rows_ok|]. intros row [Hcells Hline].
  cbn beta. by destruct (body_line_ok row Hcells Hline) as (_ & _ & _ & ->).
Qed.
End RoundTrip.




(** Apart from that, a cell with a line feed in it is not read back,
    although [generateCSV] writes it between quotes for that: [parseCSV]
    cuts the text into lines before it looks at the quotes, and one row
    comes back as two. *)
Lemma csv_line_feed_cell_is_cut :
  let row := rowOf [("a", VString ("x" +:+ str LF +:+ "y"))] in
  let parsed := parseCSV (generateCSV [row] ["a"]) in
  generateCSV [row] ["a"]
  = "a" +:+ str LF +:+ str DQ +:+ "x" +:+ str LF +:+ "y" +:+ str DQ /\
  ParsedCSV.headers parsed = ["a"] /\
  map (fun r => r !! "a") (ParsedCSV.rows parsed)
  = [Some (VString "x"); Some (VString "y")].
Proof. cbv zeta. repeat split; vm_compute; reflexivity. Qed.

(** A cell that is one double quote comes back as two: it is written as
    four quotes, which the parser reads as two escaped quotes. *)
Lemma csv_lone_quote_cell_doubles :
  let row := rowOf [("a", VString (str DQ)); ("b", VString "x")] in
  let parsed := parseCSV (generateCSV [row] ["a"; "b"]) in
  map (fun r => r !! "a") (ParsedCSV.rows parsed)
  = [Some (VString (str DQ +:+ str DQ))].
Proof. vm_compute. reflexivity. Qed.

(** A header is written as it is: one with a comma comes back as two. *)
Lemma csv_header_comma_splits :
  ParsedCSV.headers (parseCSV (generateCSV [] ["a,b"])) = ["a"; "b"].
Proof. vm_compute. reflexivity. Qed.

(** A line that would be empty is not kept: with one header, a row whose
    cell is empty is lost. *)
Lemma csv_empty_line_is_dropped :
  ParsedCSV.rows
    (parseCSV (generateCSV [rowOf [("a", VString EmptyString)];
                            rowOf [("a", VString "x")]] ["a"]))
  = [rowOf [("a", VString "x")]].
Proof. vm_compute. reflexivity. Qed.

(** A cell comes back as a string. *)
Lemma csv_number_comes_back_as_text :
  map (fun r => r !! "a")
    (ParsedCSV.rows (parseCSV (generateCSV [rowOf [("a", VNumber 12)]] ["a"])))
  = [Some (VString "12")].
Proof. vm_compute. reflexivity. Qed.

(* ================================================================== *)
(** * Further properties of the code *)

(** ** The response body and the list of tables *)

(** X1. Whatever the body of a response is, its normalisation is an
    array: [remoteExecute] resolves to an array or throws, and the guard
    of [getTableNames] against a result that is no array is never taken:
    the names are read off the rows. *)
Theorem normalize_always_array {W : Type}
    (respond : request -> W -> option Response.t * W) :
  (forall data, normalize data = VArray (arrayItems (normalize data))) /\
  (forall w,
     getTableNames respond w
     = (results <- remoteExecute respond tableNamesSql [] ;;
        lift (mapE (member "name") results)) w).
Proof.
  split.
  - intros data. pose proof (normalize_isArray data) as H.
    by destruct (normalize data).
  - reflexivity.
Qed.

Lemma isArray_truthy (v : value) : isArray v = true -> truthy v = true.
Proof. by destruct v. Qed.

(** X2. In an object body the wrapper keys are tried in the order
    [results], [data], [rows]: the first of them that is truthy decides,
    and when it holds an array that array is the result, whatever the
    other keys hold.  When none of the three is truthy the result is the
    empty array. *)
Theorem normalize_wrapper_precedence (props : list (string * value)) :
  let data := VObject props in
  (isArray (getProp "results" data) = true ->
   normalize data = getProp "results" data) /\
  (truthy (getProp "results" data) = false ->
   isArray (getProp "data" data) = true ->
   normalize data = getProp "data" data) /\
  (truthy (getProp "results" data) = false ->
   truthy (getProp "data" data) = false ->
   isArray (getProp "rows" data) = true ->
   normalize data = getProp "rows" data) /\
  (truthy (getProp "results" data) = false ->
   truthy (getProp "data" data) = false ->
   truthy (getProp "rows" data) = false ->
   normalize data = VArray []).
Proof.
  intros data. unfold normalize, orElse. subst data. repeat split.
  - intros H. by rewrite (isArray_truthy _ H), H.
  - intros H1 H2. by rewrite H1, (isArray_truthy _ H2), H2.
  - intros H1 H2 H3. by rewrite H1, H2, (isArray_truthy _ H3), H3.
  - intros H1 H2 H3. by rewrite H1, H2, H3.
Qed.

Lemma normalize_wrapper_precedence_witness :
  normalize (VObject [("count", VNumber 1); ("data", VArray [VNumber 1]);
                      ("rows", VArray [])])
  = VArray [VNumber 1].
Proof.
  apply (proj1 (proj2 (normalize_wrapper_precedence
                         [("count", VNumber 1); ("data", VArray [VNumber 1]);
                          ("rows", VArray [])]))); reflexivity.
Defined.

(** ** The total of a list, once more *)

(** X3. The total that [getList] reports is never a falsy value other
    than the number 0: a missing row, a missing key, [null], an empty
    text or [false] all give 0. *)
Theorem totalOf_truthy_or_zero (countResult : list value) :
  truthy (totalOf countResult) = true \/ totalOf countResult = VNumber 0.
Proof.
  unfold totalOf, orElse.
  destruct (truthy (getProp "total" _)) eqn:H1; [by left|].
  destruct (truthy (getProp "count" _)) eqn:H2; [by left|].
  destruct (truthy (getProp "COUNT(*)" _)) eqn:H3; [by left|].
  by right.
Qed.

(** ** Written fields *)

Lemma hasChar_DQ_quote (s : string) : hasChar DQ (quote s) = true.
Proof. reflexivity. Qed.

Lemma quoteField_inj (s t : string) : quoteField s = quoteField t -> s = t.
Proof.
  unfold quoteField.
  destruct (hasChar COMMA s || hasChar DQ s || hasChar LF s) eqn:Hs;
    destruct (hasChar COMMA t || hasChar DQ t || hasChar LF t) eqn:Ht.
  - apply quote_inj.
  - intros H. apply orb_false_iff in Ht as [Ht _].
    apply orb_false_iff in Ht as [_ Ht].
    rewrite <- H in Ht. change (hasChar DQ (quote s) = false) in Ht.
    by rewrite hasChar_DQ_quote in Ht.
  - intros H. apply orb_false_iff in Hs as [Hs _].
    apply orb_false_iff in Hs as [_ Hs].
    rewrite H in Hs. change (hasChar DQ (quote t) = false) in Hs.
    by rewrite hasChar_DQ_quote in Hs.
  - done.
Qed.

(** X4. [escape] tells cell texts apart: two values that are written as
    the same field have the same text ([null] and [undefined] having the
    empty text). *)
Theorem escape_separates_texts (v1 v2 : value) :
  escape v1 = escape v2 -> textOf v1 = textOf v2.
Proof. rewrite !escape_quoteField. apply quoteField_inj. Qed.

Lemma escape_separates_texts_witness :
  textOf (VNumber 12) = textOf (VString "12").
Proof. apply (escape_separates_texts (VNumber 12) (VString "12")). reflexivity. Defined.

(** ** The sorters of the list screen *)

Lemma find_none_field (field : string) (prev : list CrudSort.t) :
  Forall (fun s => CrudSort.field s <> field) prev ->
  List.find (fun s => String.eqb (CrudSort.field s) field) prev = None.
Proof.
  induction 1 as [|s prev Hs _ IH]; [reflexivity|]. cbn [List.find].
  apply String.eqb_neq in Hs. by rewrite Hs.
Qed.

(** X5. Clicks on the header of a column that is not sorted by go through
    ascending, descending and unsorted, and the first click drops the
    sort on any other column. *)
Theorem handleSort_cycle (field : string) (prev : list CrudSort.t) :
  Forall (fun s => CrudSort.field s <> field) prev ->
  let once := ResourceList.handleSort field prev in
  let twice := ResourceList.handleSort field once in
  let thrice := ResourceList.handleSort field twice in
  once = [CrudSort.mk field asc] /\
  twice = [CrudSort.mk field desc] /\
  thrice = [].
Proof.
  intros Hprev once twice thrice.
  assert (H1 : once = [CrudSort.mk field asc]).
  { subst once. unfold ResourceList.handleSort.
    by rewrite (find_none_field _ _ Hprev). }
  assert (H2 : twice = [CrudSort.mk field desc]).
  { subst twice. rewrite H1. unfold ResourceList.handleSort.
    cbn [List.find CrudSort.field]. by rewrite String.eqb_refl. }
  repeat split; [exact H1|exact H2|].
  subst thrice. rewrite H2. unfold ResourceList.handleSort.
  cbn [List.find CrudSort.field]. by rewrite String.eqb_refl.
Qed.

Lemma handleSort_cycle_witness :
  let once := ResourceList.handleSort "name" [CrudSort.mk "price" desc] in
  let twice := ResourceList.handleSort "name" once in
  let thrice := ResourceList.handleSort "name" twice in
  once = [CrudSort.mk "name" asc] /\
  twice = [CrudSort.mk "name" desc] /\
  thrice = [].
Proof.
  apply (handleSort_cycle "name" [CrudSort.mk "price" desc]).
  apply Forall_cons_2; [discriminate|apply Forall_nil_2].
Defined.

(** X6. Whatever the sorters were, after a click on the header of a
    column the list is ordered by that column alone, ascending or
    descending, with its name quoted, or by the default [id DESC]. *)
Theorem handleSort_orders_by_one_column (field : string) (prev : list CrudSort.t) :
  orderClause (Some (ResourceList.handleSort field prev))
  ∈ [" ORDER BY id DESC";
     " ORDER BY " +:+ quote field +:+ " ASC";
     " ORDER BY " +:+ quote field +:+ " DESC"].
Proof.
  unfold ResourceList.handleSort.
  destruct (List.find _ prev) as [[f []]|]; cbn [option_map CrudSort.order].
  - apply list_elem_of_further, list_elem_of_further, list_elem_of_here.
  - apply list_elem_of_here.
  - apply list_elem_of_further, list_elem_of_here.
Qed.

(** ** The dialog that creates a table *)

Lemma isWordChar_lowerChar (c : ascii) :
  isWordChar c = true -> isWordChar (lowerChar c) = true.
Proof. destruct c as [[] [] [] [] [] [] [] []]; vm_compute; done. Qed.

Lemma nameStart_lowerChar (c : ascii) :
  isLetter c || isUnderscore c = true ->
  isLetter (lowerChar c) || isUnderscore (lowerChar c) = true.
Proof. destruct c as [[] [] [] [] [] [] [] []]; vm_compute; done. Qed.

Lemma isWordChar_not_white (c : ascii) : isWordChar c = true -> isWhite c = false.
Proof. destruct c as [[] [] [] [] [] [] [] []]; vm_compute; done. Qed.

Lemma isWordChar_not_DQ (c : ascii) : isWordChar c = true -> Ascii.eqb c DQ = false.
Proof. destruct c as [[] [] [] [] [] [] [] []]; vm_compute; done. Qed.

Lemma lowerChar_idem (c : ascii) : lowerChar (lowerChar c) = lowerChar c.
Proof. destruct c as [[] [] [] [] [] [] [] []]; vm_compute; done. Qed.

Lemma toLowerCase_idem (s : string) : toLowerCase (toLowerCase s) = toLowerCase s.
Proof.
  induction s as [|c s IH]; [reflexivity|].
  cbn [toLowerCase mapChars] in *. by rewrite lowerChar_idem, IH.
Qed.

Lemma allChars_word_lower (s : string) :
  allChars isWordChar s = true -> allChars isWordChar (toLowerCase s) = true.
Proof.
  induction s as [|c s IH]; [done|]. cbn [toLowerCase mapChars allChars] in *.
  intros [Hc Hs]%andb_true_iff. by rewrite isWordChar_lowerChar, IH.
Qed.

Lemma isIdentifier_word (s : string) :
  isIdentifier s = true -> allChars isWordChar s = true.
Proof.
  destruct s as [|c s]; [done|]. cbn [isIdentifier allChars].
  intros [Hc Hs]%andb_true_iff. rewrite Hs, andb_true_r.
  unfold isWordChar. destruct (isLetter c); [done|].
  cbn in Hc |- *. rewrite Hc. apply orb_true_r.
Qed.

Lemma isIdentifier_toLowerCase (s : string) :
  isIdentifier s = true -> isIdentifier (toLowerCase s) = true.
Proof.
  destruct s as [|c s]; [done|].
  cbn [isIdentifier toLowerCase mapChars].
  intros [Hc Hs]%andb_true_iff.
  rewrite (nameStart_lowerChar _ Hc). by apply allChars_word_lower.
Qed.

Lemma trimEnd_word (s : string) : allChars isWordChar s = true -> trimEnd s = s.
Proof.
  induction s as [|c s IH]; [done|]. cbn [allChars trimEnd].
  intros [Hc Hs]%andb_true_iff.
  by rewrite (isWordChar_not_white _ Hc), (IH Hs).
Qed.

Lemma trim_word (s : string) : allChars isWordChar s = true -> trim s = s.
Proof.
  intros Hs. unfold trim.
  assert (Hstart : trimStart s = s).
  { destruct s as [|c s]; [done|]. cbn [allChars] in Hs.
    apply andb_true_iff in Hs as [Hc _]. cbn [trimStart].
    by rewrite (isWordChar_not_white _ Hc). }
  rewrite Hstart. by apply trimEnd_word.
Qed.

Lemma doubleQuotes_word (s : string) :
  allChars isWordChar s = true -> doubleQuotes s = s.
Proof.
  induction s as [|c s IH]; [done|]. cbn [allChars doubleQuotes].
  intros [Hc Hs]%andb_true_iff.
  by rewrite (isWordChar_not_DQ _ Hc), (IH Hs).
Qed.

Lemma allChars_sanitized (s : string) :
  allChars isWordChar
    (mapChars (fun c => if isWordChar c then c else "_"%char) s) = true.
Proof.
  induction s as [|c s IH]; [done|]. cbn [mapChars allChars]. rewrite IH.
  by destruct (isWordChar c) eqn:Hc; rewrite ?Hc.
Qed.

Lemma allChars_prefixDigit (s : string) :
  allChars isWordChar s = true -> allChars isWordChar (prefixDigit s) = true.
Proof.
  destruct s as [|c s]; [done|]. cbn [prefixDigit].
  by destruct (isDigit c).
Qed.

Lemma isIdentifier_prefixDigit (s : string) :
  allChars isWordChar s = true -> s <> EmptyString ->
  isIdentifier (prefixDigit s) = true.
Proof.
  destruct s as [|c s]; [done|]. intros Hs _. cbn [prefixDigit].
  destruct (isDigit c) eqn:Hd; [exact Hs|].
  cbn [allChars] in Hs. apply andb_true_iff in Hs as [Hc Hs].
  cbn [isIdentifier]. rewrite Hs, andb_true_r.
  unfold isWordChar in Hc. rewrite Hd, orb_false_r in Hc. exact Hc.
Qed.

Lemma mapChars_empty (f : ascii -> ascii) (s : string) :
  mapChars f s = EmptyString <-> s = EmptyString.
Proof. by destruct s. Qed.

Lemma prefixDigit_empty (s : string) :
  prefixDigit s = EmptyString <-> s = EmptyString.
Proof. destruct s as [|c s]; [done|]. cbn [prefixDigit]. by destruct (isDigit c). Qed.

(** X7. The table name that the dialog suggests for an uploaded file is
    empty exactly when the file name has nothing before its first dot;
    otherwise it passes the two syntax checks of [validateTableName] as
    it is, and trimming and lower-casing leave it unchanged: it is the
    name of the table that will be created. *)
Theorem suggestedName_passes_syntax (fileName : string) :
  let name := AddTableModal.suggestedName fileName in
  (name = EmptyString <-> beforeDot fileName = EmptyString) /\
  (name <> EmptyString ->
   isEmpty (trim name) = false /\ isIdentifier (trim name) = true) /\
  toLowerCase (trim name) = name.
Proof.
  intros name. unfold AddTableModal.suggestedName in name.
  set (s1 := mapChars _ (beforeDot fileName)) in name.
  assert (Hs1 : allChars isWordChar s1 = true) by apply allChars_sanitized.
  assert (Hword : allChars isWordChar name = true).
  { by apply allChars_word_lower, allChars_prefixDigit. }
  assert (Hempty : name = EmptyString <-> beforeDot fileName = EmptyString).
  { subst name. unfold toLowerCase.
    rewrite mapChars_empty, prefixDigit_empty. apply mapChars_empty. }
  rewrite (trim_word _ Hword). split; [exact Hempty|split].
  - intros Hne. split; [by destruct name|].
    apply isIdentifier_toLowerCase, isIdentifier_prefixDigit; [exact Hs1|].
    intros Hnil. apply Hne, Hempty. subst s1. by apply mapChars_empty in Hnil.
  - apply toLowerCase_idem.
Qed.

(** X8. The dialog never loses its last column row: removing a row takes
    one row away when there are two or more and the index is one of
    theirs, and nothing otherwise, and adding a row leaves none out. *)
Theorem handleRemoveColumn_keeps_a_column (index : nat)
    (columns : list ColumnDefinition.t) :
  length (AddTableModal.handleRemoveColumn index columns)
  = (if (1 <? length columns)%nat && (index <? length columns)%nat
     then length columns - 1 else length columns)%nat /\
  (columns <> [] -> AddTableModal.handleRemoveColumn index columns <> []) /\
  length (AddTableModal.handleAddColumn columns) = S (length columns).
Proof.
  assert (Hlen : length (AddTableModal.handleRemoveColumn index columns)
                 = (if (1 <? length columns)%nat && (index <? length columns)%nat
                    then length columns - 1 else length columns)%nat).
  { unfold AddTableModal.handleRemoveColumn.
    destruct (1 <? length columns)%nat eqn:H1; [|reflexivity]. cbn [andb].
    rewrite delete_take_drop, List.length_app, length_take, length_drop.
    destruct (index <? length columns)%nat eqn:H2.
    - apply Nat.ltb_lt in H2. lia.
    - apply Nat.ltb_ge in H2. lia. }
  split; [exact Hlen|split].
  - intros Hne Hnil. rewrite Hnil in Hlen. cbn [length] in Hlen.
    destruct columns as [|c columns]; [done|]. cbn [length] in Hlen.
    destruct (1 <? S (length columns))%nat eqn:H1; cbn [andb] in Hlen.
    + apply Nat.ltb_lt in H1.
      destruct (index <? S (length columns))%nat; lia.
    + lia.
  - unfold AddTableModal.handleAddColumn. rewrite List.length_app. cbn. lia.
Qed.
Lemma mapE_Forall2 {A B} (f : A -> error + B) (xs : list A) (ys : list B) :
  mapE f xs = inr ys -> Forall2 (fun x y => f x = inr y) xs ys.
Proof.
  revert ys. induction xs as [|x xs IH]; intros ys; cbn [mapE].
  - intros [= <-]. constructor.
  - destruct (f x) as [e|y] eqn:Hx; [done|].
    destruct (mapE f xs) as [e|ys'] eqn:Hxs; [done|].
    intros [= <-]. constructor; [exact Hx|by apply IH].
Qed.

Section TableDialog.
Context {W : Type}.
Variable respond : request -> W -> option Response.t * W.

Lemma sent_getTableNames (w : W) :
  sent (getTableNames respond w) = [Execute tableNamesSql []].
Proof.
  unfold getTableNames. rewrite sent_bind, sent_remoteExecute.
  destruct (outcome _) as [e|rows]; [reflexivity|].
  cbn [isArray negb]. by rewrite sent_lift.
Qed.

Lemma validateTableName_syntax (name : string) (w : W) :
  isIdentifier (trim name) = false ->
  AddTableModal.validateTableName respond name w
  = Run (inr (Some (if isEmpty (trim name) then "Table name is required"
                    else "Invalid name (use letters/numbers/underscores only)")))
      w [].
Proof.
  intros Hid. unfold AddTableModal.validateTableName.
  rewrite Hid. by destruct (isEmpty (trim name)).
Qed.

Lemma validateTableName_sent (name : string) (w : W) :
  isIdentifier (trim name) = true ->
  sent (AddTableModal.validateTableName respond name w)
  = [Execute tableNamesSql []].
Proof.
  intros Hid. unfold AddTableModal.validateTableName. rewrite Hid.
  destruct (trim name) as [|c s] eqn:Hname; [done|]. cbn [isEmpty negb].
  rewrite sent_bind, sent_getTableNames.
  destruct (outcome (getTableNames respond w)) as [e|tables]; [reflexivity|].
  rewrite sent_bind, sent_lift, outcome_lift.
  destruct (mapE _ tables) as [e|lowered]; [reflexivity|].
  by destruct (bool_decide _).
Qed.

(** X9. A name, a text of the ASCII range, that is blank or is no
    identifier once trimmed is turned down before anything is asked of the
    service: no request is sent, and the answer is the message of the
    check that failed. *)
Theorem validateTableName_checks_syntax_first (name : string) (w : W) :
  asciiText name ->
  isIdentifier (trim name) = false ->
  let r := AddTableModal.validateTableName respond name w in
  sent r = [] /\ world r = w /\
  outcome r
  = inr (Some (if isEmpty (trim name) then "Table name is required"
               else "Invalid name (use letters/numbers/underscores only)")).
Proof. intros _ Hid r. subst r. by rewrite validateTableName_syntax. Qed.

Lemma validateTableName_accepted (name : string) (w : W) :
  outcome (AddTableModal.validateTableName respond name w) = inr None ->
  isIdentifier (trim name) = true /\
  exists tables,
    outcome (getTableNames respond w) = inr tables /\
    Forall (fun t => exists s, t = VString s /\
                               toLowerCase s <> toLowerCase (trim name)) tables.
Proof.
  destruct (isIdentifier (trim name)) eqn:Hid;
    [|by rewrite validateTableName_syntax].
  unfold AddTableModal.validateTableName. rewrite Hid.
  destruct (isEmpty (trim name)); [done|]. cbn [negb].
  rewrite outcome_bind.
  destruct (outcome (getTableNames respond w)) as [e|tables]; [done|].
  rewrite outcome_bind, outcome_lift.
  destruct (mapE _ tables) as [e|lowered] eqn:Hm; [done|].
  case_bool_decide as Hin; [done|]. intros _. split; [reflexivity|].
  exists tables. split; [reflexivity|].
  apply mapE_Forall2 in Hm. clear -Hm Hin.
  induction Hm as [|t l tables lowered Ht _ IH]; [constructor|].
  apply not_elem_of_cons in Hin as [Hne Hin]. constructor; [|by apply IH].
  destruct t; try done. cbn in Ht. injection Ht as <-. by eexists.
Qed.

(** X10. A name that [validateTableName] accepts gives, trimmed and
    lower-cased, an identifier: the name of the new table has no
    character that quoting changes, and it differs, letter case
    aside, from the name of every table that the service lists, which
    are all texts. *)
Theorem validateTableName_accepts_new_identifier (name : string) (w : W) :
  outcome (AddTableModal.validateTableName respond name w) = inr None ->
  let finalName := toLowerCase (trim name) in
  isIdentifier finalName = true /\
  quote finalName = str DQ +:+ finalName +:+ str DQ /\
  exists tables,
    outcome (getTableNames respond w) = inr tables /\
    Forall (fun t => exists s, t = VString s /\ toLowerCase s <> finalName)
      tables.
Proof.
  intros Hok finalName.
  destruct (validateTableName_accepted name w Hok) as [Hid Htables].
  assert (Hfinal : isIdentifier finalName = true)
    by by apply isIdentifier_toLowerCase.
  split; [exact Hfinal|split; [|exact Htables]].
  unfold quote. by rewrite (doubleQuotes_word _ (isIdentifier_word _ Hfinal)).
Qed.

Lemma sent_createTableFromCSV_row (tableName : string) (headers : list string)
    (row : gmap string value) (w : W) :
  sent ((remoteExecute respond (insertQuery tableName headers)
           (map (fun h => cell row h) headers) ;;; ret tt) w)
  = [Execute (insertQuery tableName headers) (map (fun h => cell row h) headers)].
Proof. rewrite sent_bind, sent_remoteExecute. by destruct (outcome _). Qed.

Lemma forEach_sent {A} (body : A -> M W unit) (req : A -> request)
    (xs : list A) (w : W) :
  (forall x w', sent (body x w') = [req x]) ->
  sent (forEach body xs w) `prefix_of` map req xs /\
  (outcome (forEach body xs w) = inr tt -> sent (forEach body xs w) = map req xs).
Proof.
  intros Hbody. revert w. induction xs as [|x xs IH]; intros w.
  - split; [apply prefix_nil|done].
  - cbn [forEach map]. rewrite sent_bind, outcome_bind, Hbody.
    destruct (outcome (body x w)) as [e|[]].
    + split; [|done]. apply prefix_cons, prefix_nil.
    + destruct (IH (world (body x w))) as [Hp Hall]. split.
      * by apply prefix_cons.
      * intros Hok. cbn [app]. f_equal. by apply Hall.
Qed.

Lemma createTableFromCSV_run (tableName : string) (headers : list string)
    (rows : list (gmap string value)) (w : W) :
  let r := createTableFromCSV respond tableName headers rows w in
  sent r `prefix_of` createTableFromCSVStatements tableName headers rows /\
  sent r <> [] /\
  (outcome r = inr tt ->
   sent r = createTableFromCSVStatements tableName headers rows).
Proof.
  cbn zeta. unfold createTableFromCSV, createTableFromCSVStatements.
  rewrite sent_bind, outcome_bind, sent_remoteExecute.
  destruct (outcome (remoteExecute respond _ [] w)) as [e|first].
  - split; [apply prefix_cons, prefix_nil|done].
  - pose proof (forEach_sent
                  (fun row => remoteExecute respond (insertQuery tableName headers)
                                (map (fun h => cell row h) headers) ;;; ret tt)
                  (fun row => Execute (insertQuery tableName headers)
                                (map (fun h => cell row h) headers))
                  rows (world (remoteExecute respond (createQuery tableName headers) [] w))
                  (sent_createTableFromCSV_row tableName headers)) as [Hp Hall].
    split; [by apply prefix_cons|split; [done|]].
    intros Hok. cbn [app]. f_equal. by apply Hall.
Qed.

(** X11. For headers that are texts of the ASCII range and keys that no
    object inherits, [createTableFromCSV] sends the CREATE TABLE statement
    first and then one INSERT per row, in the order of the rows; every
    INSERT has the same text, which depends on the table and the headers
    only, and binds the cells of its row, one per header.  It stops at
    the first request that fails and sends nothing after it, so that what
    it has sent is always a beginning of that list, and the whole list
    when it returns. *)
Theorem createTableFromCSV_requests (tableName : string) (headers : list string)
    (rows : list (gmap string value)) (w : W) :
  Forall (fun h => asciiText h /\ ordinaryKey h) headers ->
  let r := createTableFromCSV respond tableName headers rows w in
  sent r `prefix_of` createTableFromCSVStatements tableName headers rows /\
  sent r <> [] /\
  (outcome r = inr tt ->
   sent r = createTableFromCSVStatements tableName headers rows) /\
  Forall (fun req => req = Execute (createQuery tableName headers) [] \/
                     sqlOf req = insertQuery tableName headers /\
                     length (paramsOf req) = length headers)
    (createTableFromCSVStatements tableName headers rows).
Proof.
  intros _.
  destruct (createTableFromCSV_run tableName headers rows w) as (Hp & Hne & Hall).
  cbn zeta. split; [exact Hp|split; [exact Hne|split; [exact Hall|]]].
  unfold createTableFromCSVStatements. apply Forall_cons_2; [by left|].
  apply Forall_map, Forall_forall. intros row _. right. cbn.
  split; [reflexivity|]. by rewrite length_map.
Qed.
End TableDialog.
Section TableDialogRequests.
Context {W : Type}.
Variable respond : request -> W -> option Response.t * W.

(** X12. For a table name and column names that are texts of the ASCII
    range, [handleManualCreate] sends at most two requests: the query for
    the table names, and after it the CREATE TABLE statement.  The latter
    is sent only for a name that passed the checks, under the trimmed and
    lower-cased name, which is an identifier, and with the columns whose
    name is not blank, of which there is one at least.  The dialog
    reports success only after both requests. *)
Theorem handleManualCreate_requests (tableName : string)
    (columns : list ColumnDefinition.t) (w : W) :
  asciiText tableName ->
  Forall (fun c => asciiText (ColumnDefinition.name c)) columns ->
  let finalName := toLowerCase (trim tableName) in
  let validCols :=
    filter (fun c => trim (ColumnDefinition.name c) <> EmptyString) columns in
  let create := Execute (createTableSql finalName validCols) [] in
  let r := AddTableModal.handleManualCreate respond tableName columns w in
  (sent r = [] \/
   sent r = [Execute tableNamesSql []] \/
   sent r = [Execute tableNamesSql []; create] /\
   isIdentifier finalName = true /\ validCols <> []) /\
  (forall n, outcome r = inr (AddTableModal.Created n) ->
             n = finalName /\ sent r = [Execute tableNamesSql []; create]).
Proof.
  intros _ _. cbn zeta. unfold AddTableModal.handleManualCreate.
  rewrite sent_bind, outcome_bind.
  destruct (isIdentifier (trim tableName)) eqn:Hid.
  2:{ rewrite (validateTableName_syntax respond _ _ Hid).
      cbn [sent outcome world ret app]. split; [by left|done]. }
  rewrite (validateTableName_sent respond _ _ Hid).
  destruct (outcome (AddTableModal.validateTableName respond tableName w))
    as [e|[message|]] eqn:Hv.
  - split; [by right; left|done].
  - cbn [sent ret app]. split; [by right; left|done].
  - destruct (filter _ columns) as [|c validCols] eqn:Hcols.
    + cbn [sent ret app]. split; [by right; left|done].
    + rewrite sent_tryCatch_ret, sent_bind, createTable_sends.
      assert (Hsent :
        [Execute tableNamesSql []] ++
        [Execute (createTableSql (toLowerCase (trim tableName)) (c :: validCols)) []] ++
        match outcome (createTable respond (toLowerCase (trim tableName))
                         (c :: validCols)
                         (world (AddTableModal.validateTableName respond tableName w)))
        with
        | inl _ => []
        | inr a => sent (ret (W:=W) (AddTableModal.Created (toLowerCase (trim tableName)))
                           (world (createTable respond (toLowerCase (trim tableName))
                                     (c :: validCols)
                                     (world (AddTableModal.validateTableName respond
                                               tableName w)))))
        end
        = [Execute tableNamesSql [];
           Execute (createTableSql (toLowerCase (trim tableName)) (c :: validCols)) []]).
      { by destruct (outcome (createTable _ _ _ _)). }
      rewrite Hsent. split.
      * right; right. split; [reflexivity|split; [|done]].
        by apply isIdentifier_toLowerCase.
      * intros n Hn. split; [|reflexivity].
        unfold tryCatch in Hn.
        destruct ((createTable respond _ _ ;;; ret _) _) as [[e|a] w1 t1] eqn:Hrun.
        -- done.
        -- cbn [outcome] in Hn. injection Hn as ->.
           pose proof (f_equal outcome Hrun) as Ho. rewrite outcome_bind in Ho.
           cbn [outcome] in Ho. destruct (outcome (createTable _ _ _ _)); [done|].
           cbn [ret outcome] in Ho. injection Ho as Heq. by subst n.
Qed.

(** X13. For a table name that is a text of the ASCII range, and a file
    whose headers are such texts and keys that no object inherits,
    [handleCsvCreate] sends the query for the table names first; what
    follows it, if anything, is a beginning of the statements of
    [createTableFromCSV] for the headers and rows of the file, under the
    trimmed and lower-cased name, which is an identifier.  Without a file
    nothing follows.  The dialog reports success only after the CREATE
    TABLE statement and the INSERT of every row. *)
Theorem handleCsvCreate_requests (tableName : string)
    (csvData : option ParsedCSV.t) (w : W) :
  asciiText tableName ->
  Forall (fun h => asciiText h /\ ordinaryKey h)
    (from_option ParsedCSV.headers [] csvData) ->
  let finalName := toLowerCase (trim tableName) in
  let r := AddTableModal.handleCsvCreate respond tableName csvData w in
  (sent r = [] \/
   sent r = [Execute tableNamesSql []] \/
   exists csv rest,
     csvData = Some csv /\ isIdentifier finalName = true /\
     sent r = Execute tableNamesSql [] :: rest /\ rest <> [] /\
     rest `prefix_of`
       createTableFromCSVStatements finalName (ParsedCSV.headers csv)
         (ParsedCSV.rows csv)) /\
  (forall n, outcome r = inr (AddTableModal.Created n) ->
             n = finalName /\
             exists csv,
               csvData = Some csv /\
               sent r = Execute tableNamesSql [] ::
                        createTableFromCSVStatements finalName
                          (ParsedCSV.headers csv) (ParsedCSV.rows csv)).
Proof.
  intros _ _. cbn zeta. unfold AddTableModal.handleCsvCreate.
  rewrite sent_bind, outcome_bind.
  destruct (isIdentifier (trim tableName)) eqn:Hid.
  2:{ rewrite (validateTableName_syntax respond _ _ Hid).
      cbn [sent outcome world ret app]. split; [by left|done]. }
  rewrite (validateTableName_sent respond _ _ Hid).
  destruct (outcome (AddTableModal.validateTableName respond tableName w))
    as [e|[message|]] eqn:Hv.
  - split; [by right; left|done].
  - cbn [sent ret app]. split; [by right; left|done].
  - destruct csvData as [csv|].
    2:{ cbn [sent ret app]. split; [by right; left|done]. }
    rewrite sent_tryCatch_ret, sent_bind.
    set (w1 := world (AddTableModal.validateTableName respond tableName w)).
    destruct (createTableFromCSV_run respond (toLowerCase (trim tableName))
                (ParsedCSV.headers csv) (ParsedCSV.rows csv) w1)
      as (Hp & Hne & Hall).
    cbn zeta in Hp, Hne, Hall.
    assert (Hsent :
      sent (createTableFromCSV respond (toLowerCase (trim tableName))
              (ParsedCSV.headers csv) (ParsedCSV.rows csv) w1) ++
      match outcome (createTableFromCSV respond (toLowerCase (trim tableName))
                       (ParsedCSV.headers csv) (ParsedCSV.rows csv) w1)
      with
      | inl _ => []
      | inr a => sent (ret (W:=W) (AddTableModal.Created (toLowerCase (trim tableName)))
                         (world (createTableFromCSV respond
                                   (toLowerCase (trim tableName))
                                   (ParsedCSV.headers csv) (ParsedCSV.rows csv) w1)))
      end
      = sent (createTableFromCSV respond (toLowerCase (trim tableName))
                (ParsedCSV.headers csv) (ParsedCSV.rows csv) w1)).
    { destruct (outcome (createTableFromCSV _ _ _ _ _)); apply app_nil_r. }
    rewrite Hsent. split.
    + right; right. exists csv, (sent (createTableFromCSV respond
                                        (toLowerCase (trim tableName))
                                        (ParsedCSV.headers csv)
                                        (ParsedCSV.rows csv) w1)).
      split; [reflexivity|split; [by apply isIdentifier_toLowerCase|]].
      split; [reflexivity|split; [exact Hne|exact Hp]].
    + intros n Hn. unfold tryCatch in Hn.
      destruct ((createTableFromCSV respond _ _ _ ;;; ret _) _)
        as [[e|a] w2 t2] eqn:Hrun.
      * done.
      * cbn [outcome] in Hn. injection Hn as ->.
        pose proof (f_equal outcome Hrun) as Ho. rewrite outcome_bind in Ho.
        cbn [outcome] in Ho.
        destruct (outcome (createTableFromCSV _ _ _ _ _)) as [e|[]] eqn:Hc; [done|].
        cbn [ret outcome] in Ho. injection Ho as Heq. subst n.
        split; [reflexivity|]. exists csv. split; [reflexivity|].
        by rewrite Hall.
Qed.
End TableDialogRequests.

Lemma validateTableName_checks_syntax_first_witness :
  let r := AddTableModal.validateTableName tablesService " 1st table " tt in
  sent r = [] /\ world r = tt /\
  outcome r = inr (Some "Invalid name (use letters/numbers/underscores only)").
Proof.
  apply (validateTableName_checks_syntax_first tablesService " 1st table " tt).
  - reflexivity.
  - reflexivity.
Defined.

Lemma validateTableName_accepts_new_identifier_witness :
  isIdentifier "items" = true /\
  quote "items" = str DQ +:+ "items" +:+ str DQ /\
  exists tables,
    outcome (getTableNames tablesService tt) = inr tables /\
    Forall (fun t => exists s, t = VString s /\ toLowerCase s <> "items") tables.
Proof.
  apply (validateTableName_accepts_new_identifier tablesService " Items " tt).
  reflexivity.
Defined.

Lemma createTableFromCSV_requests_witness :
  let headers := ["name"; "Id"] in
  let rows : list (gmap string value) :=
    [<["name" := VString "pen"]> (<["Id" := VString "7"]> ∅); ∅] in
  let r := createTableFromCSV tablesService "t" headers rows tt in
  sent r `prefix_of` createTableFromCSVStatements "t" headers rows /\
  sent r <> [] /\
  (outcome r = inr tt ->
   sent r = createTableFromCSVStatements "t" headers rows) /\
  Forall (fun req => req = Execute (createQuery "t" headers) [] \/
                     sqlOf req = insertQuery "t" headers /\
                     length (paramsOf req) = length headers)
    (createTableFromCSVStatements "t" headers rows).
Proof.
  apply (createTableFromCSV_requests tablesService "t" ["name"; "Id"]
           [<["name" := VString "pen"]> (<["Id" := VString "7"]> ∅); ∅] tt).
  repeat apply Forall_cons_2; try apply Forall_nil_2;
    (split; [reflexivity|apply (bool_decide_unpack _); vm_compute; exact I]).
Defined.

Lemma handleManualCreate_requests_witness :
  let tableName := " Items " in
  let columns := [ColumnDefinition.mk "title" "TEXT";
                  ColumnDefinition.mk " " "TEXT"] in
  let finalName := toLowerCase (trim tableName) in
  let validCols :=
    filter (fun c => trim (ColumnDefinition.name c) <> EmptyString) columns in
  let create := Execute (createTableSql finalName validCols) [] in
  let r := AddTableModal.handleManualCreate tablesService tableName columns tt in
  (sent r = [] \/
   sent r = [Execute tableNamesSql []] \/
   sent r = [Execute tableNamesSql []; create] /\
   isIdentifier finalName = true /\ validCols <> []) /\
  (forall n, outcome r = inr (AddTableModal.Created n) ->
             n = finalName /\ sent r = [Execute tableNamesSql []; create]).
Proof.
  apply (handleManualCreate_requests tablesService " Items "
           [ColumnDefinition.mk "title" "TEXT";
            ColumnDefinition.mk " " "TEXT"] tt).
  - reflexivity.
  - repeat apply Forall_cons_2; try apply Forall_nil_2; reflexivity.
Defined.

Lemma handleCsvCreate_requests_witness :
  let tableName := " Items " in
  let csvData := Some (parseCSV ("name,Id" +:+ str LF +:+ "pen,7")) in
  let finalName := toLowerCase (trim tableName) in
  let r := AddTableModal.handleCsvCreate tablesService tableName csvData tt in
  (sent r = [] \/
   sent r = [Execute tableNamesSql []] \/
   exists csv rest,
     csvData = Some csv /\ isIdentifier finalName = true /\
     sent r = Execute tableNamesSql [] :: rest /\ rest <> [] /\
     rest `prefix_of`
       createTableFromCSVStatements finalName (ParsedCSV.headers csv)
         (ParsedCSV.rows csv)) /\
  (forall n, outcome r = inr (AddTableModal.Created n) ->
             n = finalName /\
             exists csv,
               csvData = Some csv /\
               sent r = Execute tableNamesSql [] ::
                        createTableFromCSVStatements finalName
                          (ParsedCSV.headers csv) (ParsedCSV.rows csv)).
Proof.
  apply (handleCsvCreate_requests tablesService " Items "
           (Some (parseCSV ("name,Id" +:+ str LF +:+ "pen,7"))) tt).
  - reflexivity.
  - change (from_option ParsedCSV.headers [] (Some (parseCSV ("name,Id" +:+ str LF +:+ "pen,7")))) with ["name"; "Id"].
    repeat apply Forall_cons_2; try apply Forall_nil_2;
      (split; [reflexivity|apply (bool_decide_unpack _); vm_compute; exact I]).
Defined.

(** ** The CSV parser on any text *)

(** Induction on a text, two characters at a time. *)
Lemma string_ind2 (P : string -> Prop) :
  P EmptyString -> (forall c, P (String c EmptyString)) ->
  (forall c d s, P s -> P (String d s) -> P (String c (String d s))) ->
  forall s, P s.
Proof.
  intros H0 H1 H2 s.
  assert (H : P s /\ forall c, P (String c s)).
  { induction s as [|d s [IH1 IH2]]; [by split|].
    split; [apply IH2|]. intros c. apply H2; [exact IH1|apply IH2]. }
  apply H.
Qed.

Lemma trimStart_idem (s : string) : trimStart (trimStart s) = trimStart s.
Proof.
  induction s as [|c s IH]; [reflexivity|]. cbn [trimStart].
  destruct (isWhite c) eqn:Hc; [exact IH|]. cbn [trimStart]. by rewrite Hc.
Qed.

Lemma trimEnd_idem (s : string) : trimEnd (trimEnd s) = trimEnd s.
Proof.
  induction s as [|c s IH]; [reflexivity|]. cbn [trimEnd].
  destruct (isWhite c && isEmpty (trimEnd s)) eqn:Hc; [reflexivity|].
  cbn [trimEnd]. by rewrite IH, Hc.
Qed.

Lemma trimStart_trimEnd (s : string) :
  trimStart s = s -> trimStart (trimEnd s) = trimEnd s.
Proof.
  destruct s as [|c s]; [reflexivity|]. intros Hc%trimStart_fixed_head.
  cbn [trimEnd]. rewrite Hc. cbn [andb trimStart]. by rewrite Hc.
Qed.

Lemma trim_idem (s : string) : trim (trim s) = trim s.
Proof.
  unfold trim. rewrite (trimStart_trimEnd (trimStart s)) by apply trimStart_idem.
  apply trimEnd_idem.
Qed.

Lemma trimEnd_empty_iff (s : string) :
  trimEnd s = EmptyString <-> allChars isWhite s = true.
Proof.
  induction s as [|c s IH]; [done|]. cbn [trimEnd allChars].
  destruct (isWhite c); cbn [andb]; [|done].
  rewrite <- IH. by destruct (trimEnd s).
Qed.

Lemma allChars_isWhite_trimStart (s : string) :
  allChars isWhite (trimStart s) = allChars isWhite s.
Proof.
  induction s as [|c s IH]; [reflexivity|]. cbn [trimStart allChars].
  destruct (isWhite c) eqn:Hc; [exact IH|]. cbn [allChars]. by rewrite Hc.
Qed.

Lemma trim_empty_iff (s : string) :
  trim s = EmptyString <-> allChars isWhite s = true.
Proof.
  unfold trim. by rewrite trimEnd_empty_iff, allChars_isWhite_trimStart.
Qed.

Lemma blank_consLine (c : ascii) (lines : list string) :
  Forall (fun l => allChars isWhite l = true) (consLine c lines)
  <-> isWhite c = true /\ Forall (fun l => allChars isWhite l = true) lines.
Proof.
  destruct lines as [|l lines]; cbn [consLine].
  - rewrite Forall_singleton. cbn [str allChars]. rewrite andb_true_r.
    split; [by split|by intros []].
  - rewrite !Forall_cons. cbn [allChars]. rewrite andb_true_iff. tauto.
Qed.

Lemma splitLines_cons (c : ascii) (rest : string) :
  splitLines (String c rest)
  = if Ascii.eqb c LF then EmptyString :: splitLines rest
    else if Ascii.eqb c CR then
      match rest with
      | String d rest' =>
          if Ascii.eqb d LF then EmptyString :: splitLines rest'
          else consLine c (splitLines rest)
      | EmptyString => consLine c (splitLines rest)
      end
    else consLine c (splitLines rest).
Proof. by destruct rest. Qed.

(** A text is blank exactly when all its lines are. *)
Lemma blank_splitLines (text : string) :
  Forall (fun l => allChars isWhite l = true) (splitLines text)
  <-> allChars isWhite text = true.
Proof.
  induction text as [| |c d s IH1 IH2] using string_ind2.
  - cbn. by rewrite Forall_singleton.
  - rewrite splitLines_cons.
    destruct (Ascii.eqb_spec c LF) as [->|_].
    + cbn. rewrite !Forall_cons. by intuition.
    + assert (H : Forall (fun l => allChars isWhite l = true)
                    (consLine c (splitLines EmptyString))
                  <-> allChars isWhite (String c EmptyString) = true).
      { rewrite blank_consLine. cbn. rewrite Forall_singleton, andb_true_r.
        by intuition. }
      by destruct (Ascii.eqb c CR).
  - rewrite splitLines_cons.
    assert (Hcons : Forall (fun l => allChars isWhite l = true)
                      (consLine c (splitLines (String d s)))
                    <-> allChars isWhite (String c (String d s)) = true).
    { rewrite blank_consLine, IH2.
      change (allChars isWhite (String c (String d s)))
        with (isWhite c && allChars isWhite (String d s)).
      by rewrite andb_true_iff. }
    destruct (Ascii.eqb_spec c LF) as [->|_].
    + rewrite Forall_cons, IH2.
      change (allChars isWhite (String LF (String d s)))
        with (allChars isWhite (String d s)). by intuition.
    + destruct (Ascii.eqb_spec c CR) as [->|_]; [|exact Hcons].
      destruct (Ascii.eqb_spec d LF) as [->|_]; [|exact Hcons].
      rewrite Forall_cons, IH1.
      change (allChars isWhite (String CR (String LF s)))
        with (allChars isWhite s). by intuition.
Qed.

Lemma parseLineFrom_other (c : ascii) (rest cur : string) (q : bool)
    (res : list string) :
  Ascii.eqb c DQ = false ->
  parseLineFrom (String c rest) cur q res
  = if Ascii.eqb c COMMA && negb q
    then parseLineFrom rest EmptyString q (res ++ [cur])
    else parseLineFrom rest (cur +:+ str c) q res.
Proof. intros H. destruct rest; cbn [parseLineFrom]; by rewrite H. Qed.

Lemma snoc_not_nil {A} (l : list A) (x : A) : l ++ [x] <> [].
Proof. by destruct l. Qed.

(** A line has one field at least. *)
Lemma parseLineFrom_not_nil (line cur : string) (q : bool) (res : list string) :
  parseLineFrom line cur q res <> [].
Proof.
  revert cur q res.
  induction line as [| |c d s IH1 IH2] using string_ind2; intros cur q res.
  - cbn. apply snoc_not_nil.
  - destruct (Ascii.eqb c DQ) eqn:Hc.
    + apply Ascii.eqb_eq in Hc as ->. cbn [parseLineFrom].
      rewrite Ascii.eqb_refl. apply snoc_not_nil.
    + rewrite parseLineFrom_other by exact Hc.
      destruct (_ && _); cbn [parseLineFrom]; apply snoc_not_nil.
  - destruct (Ascii.eqb c DQ) eqn:Hc.
    + apply Ascii.eqb_eq in Hc as ->.
      destruct (Ascii.eqb d DQ) eqn:Hd.
      * apply Ascii.eqb_eq in Hd as ->. rewrite parseLineFrom_pair. apply IH1.
      * rewrite parseLineFrom_toggle by exact Hd. apply IH2.
    + rewrite parseLineFrom_other by exact Hc.
      destruct (_ && _); apply IH2.
Qed.

Lemma filter_nil_Forall {A} (P : A -> Prop) `{forall x, Decision (P x)}
    (l : list A) :
  filter P l = [] <-> Forall (fun x => ~ P x) l.
Proof.
  induction l as [|x l IH]; [by split; [constructor|]|].
  rewrite Forall_cons, <- IH. destruct (decide (P x)) as [Hx|Hx].
  - rewrite filter_cons_True by exact Hx. by intuition.
  - rewrite filter_cons_False by exact Hx. by intuition.
Qed.

Lemma parseCSV_blank (text : string) :
  ParsedCSV.headers (parseCSV text) = [] <-> allChars isWhite text = true.
Proof.
  rewrite <- blank_splitLines. unfold parseCSV.
  destruct (filter _ (splitLines text)) as [|first others] eqn:Hlines.
  - cbn [ParsedCSV.headers]. split; [intros _|done].
    apply filter_nil_Forall in Hlines.
    eapply Forall_impl; [exact Hlines|]. intros l Hl. cbn beta in Hl.
    apply trim_empty_iff. by destruct (decide (trim l = EmptyString)).
  - cbn [ParsedCSV.headers]. split.
    + intros Hnil%fmap_nil_inv. by apply parseLineFrom_not_nil in Hnil.
    + intros Hall.
      assert (Hnil : filter (fun line => trim line <> EmptyString)
                       (splitLines text) = []).
      { apply filter_nil_Forall. eapply Forall_impl; [exact Hall|].
        intros l Hl%trim_empty_iff. by intros []. }
      by rewrite Hnil in Hlines.
Qed.

(** X14. A text of the ASCII range has no header for [parseCSV] exactly
    when it is blank, that is made of white space and line breaks only,
    and then it has no row either; [handleFileChange] of the dialog turns
    down these files and no other, and takes any other file, whose name
    is of the ASCII range as well, with its parsed content and the name
    suggested for it. *)
Theorem parseCSV_no_header_iff_blank (file : File) :
  asciiText (fileText file) ->
  asciiText (fileName file) ->
  let text := fileText file in
  (ParsedCSV.headers (parseCSV text) = [] <-> allChars isWhite text = true) /\
  (allChars isWhite text = true -> parseCSV text = ParsedCSV.mk [] []) /\
  AddTableModal.handleFileChange (Some file)
  = Some (if allChars isWhite text
          then AddTableModal.FileRefused "Invalid CSV: No headers found"
          else AddTableModal.FileLoaded (parseCSV text)
                 (AddTableModal.suggestedName (fileName file))).
Proof.
  intros _ _ text. split; [apply parseCSV_blank|split].
  - intros Hb%parseCSV_blank. unfold parseCSV in *.
    destruct (filter _ (splitLines text)) as [|first others]; [reflexivity|].
    cbn [ParsedCSV.headers] in Hb. apply fmap_nil_inv in Hb.
    by apply parseLineFrom_not_nil in Hb.
  - unfold AddTableModal.handleFileChange. fold text.
    pose proof (parseCSV_blank text) as Hb.
    destruct (ParsedCSV.headers (parseCSV text)) as [|h hs].
    + by rewrite (proj1 Hb eq_refl).
    + destruct (allChars isWhite text); [|reflexivity].
      discriminate (proj2 Hb eq_refl).
Qed.

Lemma parseCSV_no_header_iff_blank_witness :
  let file := mkFile "2024 sales.csv" ("a,b" +:+ str LF +:+ "1,2") in
  let text := fileText file in
  (ParsedCSV.headers (parseCSV text) = [] <-> allChars isWhite text = true) /\
  (allChars isWhite text = true -> parseCSV text = ParsedCSV.mk [] []) /\
  AddTableModal.handleFileChange (Some file)
  = Some (if allChars isWhite text
          then AddTableModal.FileRefused "Invalid CSV: No headers found"
          else AddTableModal.FileLoaded (parseCSV text)
                 (AddTableModal.suggestedName (fileName file))).
Proof.
  apply (parseCSV_no_header_iff_blank (mkFile "2024 sales.csv" ("a,b" +:+ str LF +:+ "1,2"))).
  - reflexivity.
  - reflexivity.
Defined.

(** *** The rows that come out *)

Lemma fillRow_is_Some (hs : list string) (i : nat) (values : list string)
    (obj : gmap string value) (k : string) :
  is_Some (fillRow hs i values obj !! k)
  <-> (k ∈ hs /\ k <> "__proto__") \/ is_Some (obj !! k).
Proof.
  revert i obj. induction hs as [|h hs IH]; intros i obj; cbn [fillRow].
  - rewrite elem_of_nil. tauto.
  - rewrite IH, elem_of_cons.
    destruct (String.eqb_spec h "__proto__") as [Hp|Hp].
    + split; [tauto|]. intros [[[Hk|Hk] Hne]|Hobj]; [congruence|tauto|tauto].
    + rewrite lookup_insert_is_Some. destruct (decide (h = k)) as [Hk|Hk].
      * split; [|tauto]. intros _. left. split; [by left|congruence].
      * split; [tauto|]. intros [[[Heq|Hin] Hne]|Hobj]; [congruence|tauto|tauto].
Qed.

Lemma fillRow_value (hs : list string) (i : nat) (values : list string)
    (obj : gmap string value) (k : string) (v : value) :
  fillRow hs i values obj !! k = Some v ->
  obj !! k = Some v \/ v = VUndefined \/ exists s, v = VString (trim s).
Proof.
  revert i obj. induction hs as [|h hs IH]; intros i obj; cbn [fillRow].
  - by left.
  - intros [Hv|Hv]%IH; [|by right].
    destruct (String.eqb h "__proto__"); [by left|].
    destruct (decide (h = k)) as [->|Hne].
    + rewrite lookup_insert_eq in Hv. injection Hv as <-. right.
      destruct (values !! i) as [s|]; [right; by exists s|by left].
    + rewrite lookup_insert_ne in Hv by exact Hne. by left.
Qed.

(** X15. Whatever the text of the ASCII range, what [parseCSV] returns is
    trimmed and rectangular: no header and no cell has white space around
    it, and every row has the headers as its keys, no more and no fewer,
    but for the header [__proto__], under which a row stores nothing; a
    cell is a text, or [undefined] where the line is too short. *)
Theorem parseCSV_rows_are_rectangular (text : string) :
  asciiText text ->
  let parsed := parseCSV text in
  Forall (fun h => trim h = h) (ParsedCSV.headers parsed) /\
  Forall (fun row =>
            forall h,
              (is_Some (row !! h)
               <-> h ∈ ParsedCSV.headers parsed /\ h <> "__proto__") /\
              (forall v, row !! h = Some v ->
                         v = VUndefined \/
                         exists s, v = VString s /\ trim s = s))
    (ParsedCSV.rows parsed).
Proof.
  intros _. cbn zeta. unfold parseCSV.
  destruct (filter _ (splitLines text)) as [|first others];
    cbn [ParsedCSV.headers ParsedCSV.rows]; [by split|].
  split.
  - apply Forall_fmap, Forall_forall. intros h _. apply trim_idem.
  - apply Forall_fmap, Forall_forall. intros line _ h. cbn beta. split.
    + rewrite fillRow_is_Some, lookup_empty. split; [|by left].
      intros [?|[? [=]]]. done.
    + intros v [Hv|[->|[s ->]]]%fillRow_value.
      * by rewrite lookup_empty in Hv.
      * by left.
      * right. exists (trim s). split; [reflexivity|apply trim_idem].
Qed.

Lemma parseCSV_rows_are_rectangular_witness :
  let parsed := parseCSV ("a,__proto__, b" +:+ str LF +:+ "1,2") in
  Forall (fun h => trim h = h) (ParsedCSV.headers parsed) /\
  Forall (fun row =>
            forall h,
              (is_Some (row !! h)
               <-> h ∈ ParsedCSV.headers parsed /\ h <> "__proto__") /\
              (forall v, row !! h = Some v ->
                         v = VUndefined \/
                         exists s, v = VString s /\ trim s = s))
    (ParsedCSV.rows parsed).
Proof.
  apply (parseCSV_rows_are_rectangular ("a,__proto__, b" +:+ str LF +:+ "1,2")).
  reflexivity.
Defined.

(** *** A line without quotes *)

Lemma join_cons (sep x : string) (l : list string) :
  l <> [] -> join sep (x :: l) = x +:+ sep +:+ join sep l.
Proof. by destruct l. Qed.

Lemma join_snoc (sep x : string) (l : list string) :
  l <> [] -> join sep (l ++ [x]) = join sep l +:+ sep +:+ x.
Proof.
  induction l as [|y l IH]; [done|]. intros _.
  destruct l as [|z l]; [reflexivity|].
  change ((y :: z :: l) ++ [x]) with (y :: ((z :: l) ++ [x])).
  rewrite join_cons by by destruct l.
  rewrite IH by done. rewrite (join_cons sep y (z :: l)) by done.
  by rewrite !append_assoc.
Qed.

Lemma join_snoc_append (sep a b : string) (l : list string) :
  join sep (l ++ [a +:+ b]) = join sep (l ++ [a]) +:+ b.
Proof.
  destruct l as [|y l]; [reflexivity|].
  rewrite !join_snoc by done. by rewrite !append_assoc.
Qed.

Lemma parseLineFrom_unquoted (line cur : string) (res : list string) :
  hasChar DQ line = false ->
  join "," (parseLineFrom line cur false res) = join "," (res ++ [cur]) +:+ line /\
  length (parseLineFrom line cur false res)
  = (length res + S (countChar COMMA line))%nat.
Proof.
  revert cur res. induction line as [|c line IH]; intros cur res Hq.
  - cbn [parseLineFrom countChar]. rewrite append_nil_r, List.length_app.
    cbn [length]. split; [reflexivity|lia].
  - apply hasChar_cons_false in Hq as [Hc Hq].
    rewrite parseLineFrom_other by exact Hc. cbn [negb countChar].
    rewrite andb_true_r. destruct (Ascii.eqb_spec c COMMA) as [->|Hne].
    + destruct (IH EmptyString (res ++ [cur]) Hq) as [Hj Hl].
      rewrite Hj, Hl, List.length_app. cbn [length].
      split; [|lia]. rewrite join_snoc by by destruct res.
      by rewrite !append_assoc.
    + destruct (IH (cur +:+ str c) res Hq) as [Hj Hl].
      rewrite Hj, Hl. split; [|lia].
      rewrite join_snoc_append. by rewrite !append_assoc.
Qed.

(** X16. A line without a double quote is cut at its commas and nowhere
    else: it has one field more than it has commas, and the fields joined
    with commas are the line again. *)
Theorem parseLine_cuts_at_commas (line : string) :
  hasChar DQ line = false ->
  join "," (parseLine line) = line /\
  length (parseLine line) = S (countChar COMMA line).
Proof.
  intros Hq. unfold parseLine.
  destruct (parseLineFrom_unquoted line EmptyString [] Hq) as [Hj Hl].
  split; [|exact Hl]. rewrite Hj. cbn [app join String.concat].
  apply append_nil.
Qed.

Lemma parseLine_cuts_at_commas_witness :
  join "," (parseLine "a, b,,c ") = "a, b,,c " /\
  length (parseLine "a, b,,c ") = S (countChar COMMA "a, b,,c ").
Proof. apply (parseLine_cuts_at_commas "a, b,,c "). reflexivity. Defined.

(** *** From the file to the table *)

Lemma processedHeaders_trimmed (headers : list string) :
  Forall (fun h => trim h = h) headers ->
  processedHeaders headers
  = map (fun h => if String.eqb (toLowerCase h) "id" then "id_original" else h)
      headers.
Proof.
  intros Hh. unfold processedHeaders. apply map_ext_Forall.
  eapply Forall_impl; [exact Hh|]. intros h Heq. cbn beta. by rewrite Heq.
Qed.

(** X17. The columns of a table that is created from a file are the
    headers that [parseCSV] read, as they are, after the key column; only
    a header that reads [id], in any letter case, is declared as
    [id_original]. *)
Theorem parsed_headers_are_the_columns (text : string) :
  let headers := ParsedCSV.headers (parseCSV text) in
  createTableFromCSVColumns headers
  = "id" :: map (fun h => if String.eqb (toLowerCase h) "id"
                          then "id_original" else h) headers.
Proof.
  cbn zeta. unfold createTableFromCSVColumns. f_equal.
  apply processedHeaders_trimmed.
  unfold parseCSV. destruct (filter _ (splitLines text)) as [|first others];
    cbn [ParsedCSV.headers]; [constructor|].
  apply Forall_fmap, Forall_forall. intros h _. apply trim_idem.
Qed.

(** ** The data provider, once more *)

Section ProviderMore.
Context {W : Type}.
Variable respond : request -> W -> option Response.t * W.

(** X18. [getList] looks at the free-text filter only: with filters that
    are on another field than [q], that have a falsy value, or that are
    conditional, it behaves as without any filter: the same requests,
    with no WHERE, and the same result. *)
Theorem getList_ignores_other_filters (resource : string)
    (filters : list CrudFilter) (sorters : option (list CrudSort.t))
    (pagination : option Pagination.t) (w : W) :
  Forall (fun f => match f with
                   | LogicalFilter field _ v => field <> "q" \/ truthy v = false
                   | ConditionalFilter _ _ => True
                   end) filters ->
  sqlDataProvider.getList respond resource (Some filters) sorters pagination w
  = sqlDataProvider.getList respond resource None sorters pagination w /\
  head (sent (sqlDataProvider.getList respond resource (Some filters) sorters
                pagination w))
  = Some (Execute ("SELECT COUNT(*) as total FROM " +:+ quote resource) []).
Proof.
  intros Hf.
  assert (Heq : sqlDataProvider.getList respond resource (Some filters) sorters
                  pagination w
                = sqlDataProvider.getList respond resource None sorters
                    pagination w).
  { unfold sqlDataProvider.getList. cbn [default from_option id foldM].
    unfold bind at 1 3. by rewrite (foldM_filterStep_skip _ _ _ _ _ Hf). }
  split; [exact Heq|]. rewrite Heq.
  unfold sqlDataProvider.getList. cbn [default from_option id foldM].
  rewrite bind_ret_run. cbn [fst snd baseWhere].
  rewrite sent_bind. unfold execQuery at 1. rewrite sent_remoteExecute.
  by rewrite append_nil_r.
Qed.

(** X19. The filters that the search box of the list screen sets: for an
    empty box there is none, and the list is asked without a WHERE; for
    any other text there is the one free-text filter, whose value is
    truthy, and [getList] begins with the query for the columns of the
    table. *)
Theorem searchFilters_drive_getList (resource searchValue : string)
    (sorters : option (list CrudSort.t)) (pagination : option Pagination.t)
    (w : W) :
  let r := sqlDataProvider.getList respond resource
             (Some (ResourceList.searchFilters searchValue)) sorters
             pagination w in
  (searchValue = EmptyString ->
   r = sqlDataProvider.getList respond resource None sorters pagination w) /\
  (searchValue <> EmptyString ->
   ResourceList.searchFilters searchValue
   = [LogicalFilter "q" "contains" (VString searchValue)] /\
   truthy (VString searchValue) = true /\
   head (sent r)
   = Some (Execute ("PRAGMA table_info(" +:+ quote resource +:+ ")") [])).
Proof.
  cbn zeta. split.
  - intros ->. reflexivity.
  - intros Hne. destruct searchValue as [|c s]; [done|].
    split; [reflexivity|split; [reflexivity|]].
    unfold ResourceList.searchFilters. cbn [truthy isEmpty negb].
    unfold sqlDataProvider.getList. cbn [default from_option id foldM].
    rewrite !sent_bind. unfold sqlDataProvider.filterStep at 1.
    change (String.eqb "q" "q") with true. cbn [truthy isEmpty negb andb].
    rewrite sent_bind, sent_getTableColumns. reflexivity.
Qed.

(** X20. [update] sends the UPDATE statement and, when that succeeded,
    reads the record back by its id.  It returns the first row that comes
    back, and [undefined] when none does: other than [getOne], it does
    not throw for a record that is not there. *)
Theorem update_reads_the_record_back (resource : string) (id : value)
    (variables : list (string * value)) (w : W) :
  let upd :=
    "UPDATE " +:+ quote resource +:+ " SET "
    +:+ join ", " (map (fun key => quote key +:+ " = ?") (map fst variables))
    +:+ " WHERE id = ?" in
  let sel := "SELECT * FROM " +:+ quote resource +:+ " WHERE id = ?" in
  let first := execQuery respond upd (map snd variables ++ [id]) w in
  let r := sqlDataProvider.update respond resource id variables w in
  sent r = Execute upd (map snd variables ++ [id])
           :: match outcome first with
              | inr _ => [Execute sel [id]]
              | inl _ => []
              end /\
  (forall e, outcome first = inl e -> outcome r = inl e) /\
  (forall x rows,
     outcome first = inr x ->
     outcome (execQuery respond sel [id] (world first)) = inr rows ->
     outcome r = inr (default VUndefined (head rows)) /\
     (rows = [] -> outcome r = inr VUndefined)).
Proof.
  cbn zeta. unfold sqlDataProvider.update.
  rewrite sent_bind, outcome_bind. unfold execQuery at 1 3.
  rewrite sent_remoteExecute. unfold execQuery.
  destruct (outcome (remoteExecute respond _ (map snd variables ++ [id]) w))
    as [e|x] eqn:Hfirst.
  - split; [reflexivity|split]; [by intros ? [= <-]|done].
  - split; [|split]; [|done|].
    + cbn [app]. f_equal. rewrite sent_bind, sent_remoteExecute.
      by destruct (outcome (remoteExecute respond _ [id] _)).
    + intros _ rows _ Hrows. rewrite outcome_bind, Hrows. cbn [ret outcome].
      split; [reflexivity|]. by intros ->.
Qed.
End ProviderMore.

Lemma getList_ignores_other_filters_witness :
  sqlDataProvider.getList demoService "t"
    (Some [LogicalFilter "title" "eq" (VString "x");
           LogicalFilter "q" "contains" (VString EmptyString);
           ConditionalFilter "or" []]) None None tt
  = sqlDataProvider.getList demoService "t" None None None tt /\
  head (sent (sqlDataProvider.getList demoService "t"
                (Some [LogicalFilter "title" "eq" (VString "x");
                       LogicalFilter "q" "contains" (VString EmptyString);
                       ConditionalFilter "or" []]) None None tt))
  = Some (Execute ("SELECT COUNT(*) as total FROM " +:+ quote "t") []).
Proof.
  apply (getList_ignores_other_filters demoService "t").
  repeat first [apply Forall_nil_2 | apply Forall_cons_2].
  - left. discriminate.
  - right. reflexivity.
  - exact I.
Defined.

Lemma update_reads_the_record_back_witness :
  outcome (sqlDataProvider.update demoService "t" (VNumber 9)
             [("title", VString "x")] tt)
  = inr VUndefined.
Proof.
  destruct (update_reads_the_record_back demoService "t" (VNumber 9)
              [("title", VString "x")] tt) as (_ & _ & H).
  destruct (H [] [] eq_refl eq_refl) as [_ H']. by apply H'.
Defined.

(** ** The statements on tables *)

Lemma append_inj_l (s a b : string) : s +:+ a = s +:+ b -> a = b.
Proof.
  induction s as [|c s IH]; [by rewrite !append_nil|].
  rewrite !append_cons. intros [= H]. by apply IH.
Qed.

Lemma append_inj_r (a b s : string) : a +:+ s = b +:+ s -> a = b.
Proof.
  revert b. induction a as [|c a IH]; intros [|d b] H; [done| | |].
  - rewrite append_nil, append_cons in H.
    apply (f_equal String.length) in H. cbn [String.length] in H.
    rewrite length_append in H. lia.
  - rewrite append_nil, append_cons in H.
    apply (f_equal String.length) in H. cbn [String.length] in H.
    rewrite length_append in H. lia.
  - rewrite !append_cons in H. injection H as -> H. f_equal. by apply IH.
Qed.

Section TableStatements.
Context {W : Type}.
Variable respond : request -> W -> option Response.t * W.

Lemma sent_dropTable (tableName : string) (w : W) :
  sent (dropTable respond tableName w)
  = [Execute ("DROP TABLE IF EXISTS " +:+ quote tableName) []].
Proof.
  unfold dropTable. rewrite sent_bind, sent_remoteExecute.
  by destruct (outcome (remoteExecute respond _ [] w)).
Qed.

(** X21. [dropTable] and [getTableColumns] send one statement each, in
    which the name of the table stands between quotes with its quotes
    doubled; the statements for two names are the same only when the
    names are: no name can make the statement mean another table. *)
Theorem table_statements_name_one_table (t1 t2 : string) (w1 w2 : W) :
  sent (dropTable respond t1 w1)
  = [Execute ("DROP TABLE IF EXISTS " +:+ quote t1) []] /\
  sent (getTableColumns respond t1 w1)
  = [Execute ("PRAGMA table_info(" +:+ quote t1 +:+ ")") []] /\
  (sent (dropTable respond t1 w1) = sent (dropTable respond t2 w2) -> t1 = t2) /\
  (sent (getTableColumns respond t1 w1) = sent (getTableColumns respond t2 w2) ->
   t1 = t2).
Proof.
  rewrite !sent_dropTable, !sent_getTableColumns.
  split; [reflexivity|split; [reflexivity|split]].
  - intros H.
    assert (H' : "DROP TABLE IF EXISTS " +:+ quote t1
                 = "DROP TABLE IF EXISTS " +:+ quote t2) by congruence.
    by apply append_inj_l, quote_inj in H'.
  - intros H.
    assert (H' : "PRAGMA table_info(" +:+ quote t1 +:+ ")"
                 = "PRAGMA table_info(" +:+ quote t2 +:+ ")") by congruence.
    by apply append_inj_l, append_inj_r, quote_inj in H'.
Qed.
End TableStatements.

(** ** What the handlers catch *)

Section Handlers.
Context {W : Type}.
Variable respond : request -> W -> option Response.t * W.

(** X22. The importer catches every exception: it always ends with a
    result, which is an alert when a request failed.  The two handlers of
    the dialog that creates a table catch the exceptions of the creation
    only: they throw exactly when [validateTableName] does, that is
    when the query for the table names fails or a table has a name that
    is no text. *)
Theorem handlers_catch_errors :
  (forall resource file fileData mode w,
     exists result,
       outcome (validateAndImport respond resource file fileData mode w)
       = inr result) /\
  (forall tableName columns w e,
     outcome (AddTableModal.handleManualCreate respond tableName columns w)
     = inl e
     <-> outcome (AddTableModal.validateTableName respond tableName w) = inl e) /\
  (forall tableName csvData w e,
     outcome (AddTableModal.handleCsvCreate respond tableName csvData w) = inl e
     <-> outcome (AddTableModal.validateTableName respond tableName w) = inl e).
Proof.
  split; [|split].
  - intros resource [file|] [fileData|] mode w;
      try (by eexists); unfold validateAndImport.
    rewrite outcome_tryCatch_ret. by eexists.
  - intros tableName columns w e. unfold AddTableModal.handleManualCreate.
    rewrite outcome_bind.
    destruct (outcome (AddTableModal.validateTableName respond tableName w))
      as [e'|[message|]]; [split; by intros [= ->]|by split|].
    destruct (filter _ columns); [by split|].
    rewrite outcome_tryCatch_ret. by split.
  - intros tableName csvData w e. unfold AddTableModal.handleCsvCreate.
    rewrite outcome_bind.
    destruct (outcome (AddTableModal.validateTableName respond tableName w))
      as [e'|[message|]]; [split; by intros [= ->]|by split|].
    destruct csvData; [|by split].
    rewrite outcome_tryCatch_ret. by split.
Qed.
End Handlers.

(** ** Distinct columns *)

Lemma NoDup_fmap_elem_inj {A B} (f : A -> B) (l : list A) (x y : A) :
  NoDup (f <$> l) -> x ∈ l -> y ∈ l -> f x = f y -> x = y.
Proof.
  induction l as [|a l IH]; [by intros _ ?%elem_of_nil|].
  rewrite fmap_cons, NoDup_cons. intros [Ha Hl].
  rewrite !elem_of_cons. intros [->|Hx] [->|Hy] Heq; [done| | |by apply IH].
  - destruct Ha. rewrite Heq. by apply list_elem_of_fmap_2.
  - destruct Ha. rewrite <- Heq. by apply list_elem_of_fmap_2.
Qed.

Lemma isEmpty_mapChars (f : ascii -> ascii) (s : string) :
  isEmpty (mapChars f s) = isEmpty s.
Proof. by destruct s. Qed.

Lemma trimStart_toLowerCase (s : string) :
  trimStart (toLowerCase s) = toLowerCase (trimStart s).
Proof.
  unfold toLowerCase. induction s as [|c s IH]; [reflexivity|].
  cbn [mapChars trimStart]. rewrite isWhite_lowerChar.
  by destruct (isWhite c).
Qed.

Lemma trimEnd_toLowerCase (s : string) :
  trimEnd (toLowerCase s) = toLowerCase (trimEnd s).
Proof.
  unfold toLowerCase. induction s as [|c s IH]; [reflexivity|].
  cbn [mapChars trimEnd]. rewrite isWhite_lowerChar, IH, isEmpty_mapChars.
  by destruct (isWhite c && isEmpty (trimEnd s)).
Qed.

Lemma trim_toLowerCase (s : string) : trim (toLowerCase s) = toLowerCase (trim s).
Proof. unfold trim. by rewrite trimStart_toLowerCase, trimEnd_toLowerCase. Qed.

(** The names after the renaming are pairwise distinct, letter case
    aside, under these conditions. *)
Lemma created_names_are_distinct (headers : list string)
    (columns : list ColumnDefinition.t) :
  let key := fun name => toLowerCase (trim name) in
  (NoDup (map key headers) -> "id_original" ∉ map key headers ->
   NoDup (map toLowerCase (createTableFromCSVColumns headers))) /\
  (NoDup (map (fun c => key (ColumnDefinition.name c)) columns) ->
   "original_id" ∉ map (fun c => key (ColumnDefinition.name c)) columns ->
   NoDup (map toLowerCase (createTableColumns columns))).
Proof.
  intros key. split.
  - intros Hnd Hfree. unfold createTableFromCSVColumns, processedHeaders.
    rewrite map_cons, List.map_map.
    set (g := fun x : string => if String.eqb x "id" then "id_original" else x).
    assert (Hmap : map (fun h => toLowerCase
                                   (if String.eqb (toLowerCase (trim h)) "id"
                                    then "id_original" else trim h)) headers
                   = g <$> map key headers).
    { rewrite <- list_fmap_compose. apply map_ext. intros h. unfold g, key.
      cbn [compose]. by destruct (String.eqb _ "id"). }
    rewrite Hmap. apply NoDup_cons. split.
    + intros Hin. apply list_elem_of_fmap in Hin as (x & Hx & _).
      unfold g in Hx. change (toLowerCase "id") with "id" in Hx.
      destruct (String.eqb x "id") eqn:Heq; [discriminate Hx|].
      apply String.eqb_neq in Heq. by apply Heq.
    + apply NoDup_fmap_2_strong; [|exact Hnd]. intros x y Hx Hy. unfold g.
      destruct (String.eqb_spec x "id") as [->|Hx'];
        destruct (String.eqb_spec y "id") as [->|Hy']; try done.
      * intros <-. by destruct Hfree.
      * intros ->. by destruct Hfree.
  - intros Hnd Hfree. unfold createTableColumns, processedCols.
    rewrite map_cons, !List.map_map.
    set (f := fun c => toLowerCase
                         (ColumnDefinition.name
                            (if String.eqb
                                  (toLowerCase (trim (ColumnDefinition.name c))) "id"
                             then ColumnDefinition.mk "original_id"
                                    (ColumnDefinition.type c)
                             else c))).
    assert (Hkey : forall c, c ∈ columns ->
              f c = "original_id" /\ key (ColumnDefinition.name c) = "id" \/
              f c = toLowerCase (ColumnDefinition.name c) /\
              key (ColumnDefinition.name c) <> "id" /\
              key (ColumnDefinition.name c) = trim (f c)).
    { intros c _. unfold f, key.
      destruct (String.eqb_spec (toLowerCase (trim (ColumnDefinition.name c))) "id")
        as [Heq|Hne]; [by left|right].
      split; [reflexivity|split; [exact Hne|]]. by rewrite trim_toLowerCase. }
    apply NoDup_cons. split.
    + intros Hin. apply list_elem_of_fmap in Hin as (c & Hc & Hin).
      change (toLowerCase "id") with "id" in Hc.
      destruct (Hkey c Hin) as [[Hf _]|(Hf & Hne & Hk)].
      * by rewrite Hf in Hc.
      * apply Hne. rewrite Hk, <- Hc. reflexivity.
    + apply NoDup_fmap_2_strong; [|by apply NoDup_fmap_1 in Hnd].
      intros c d Hc Hd Heq.
      apply (NoDup_fmap_elem_inj _ _ _ _ Hnd Hc Hd).
      destruct (Hkey c Hc) as [[Hfc Hkc]|(Hfc & Hnc & Hkc)];
        destruct (Hkey d Hd) as [[Hfd Hkd]|(Hfd & Hnd' & Hkd)].
      * by rewrite Hkc, Hkd.
      * destruct Hfree. apply list_elem_of_fmap. exists d. split; [|exact Hd].
        cbn beta. fold (key (ColumnDefinition.name d)).
        by rewrite Hkd, <- Heq, Hfc.
      * destruct Hfree. apply list_elem_of_fmap. exists c. split; [|exact Hc].
        cbn beta. fold (key (ColumnDefinition.name c)).
        by rewrite Hkc, Heq, Hfd.
      * by rewrite Hkc, Hkd, Heq.
Qed.

(** X23. The columns that the statement of a created table declares,
    read back as SQL reads it, are pairwise distinct, also when letter
    case is left aside as SQL does, as soon as the names given are
    distinct once trimmed and lower-cased and none of them is the name
    that the one reading [id] is given: [id_original] for a table from a
    file, [original_id] for a table from the dialog.  The names are texts
    of the ASCII range, there is one at least, and the column types of
    the dialog are plain type names. *)
Theorem created_columns_are_distinct (tableName : string)
    (headers : list string) (columns : list ColumnDefinition.t) :
  let key := fun name => toLowerCase (trim name) in
  headers <> [] ->
  columns <> [] ->
  Forall asciiText headers ->
  Forall (fun c => asciiText (ColumnDefinition.name c) /\
                   plainType (ColumnDefinition.type c)) columns ->
  NoDup (map key headers) ->
  "id_original" ∉ map key headers ->
  NoDup (map (fun c => key (ColumnDefinition.name c)) columns) ->
  "original_id" ∉ map (fun c => key (ColumnDefinition.name c)) columns ->
  (exists names,
     declaredColumns (createQuery tableName headers) = Some names /\
     NoDup (map toLowerCase names)) /\
  (exists names,
     declaredColumns (createTableSql tableName columns) = Some names /\
     NoDup (map toLowerCase names)).
Proof.
  intros key Hheaders Hcolumns _ Hc Hnd1 Hfree1 Hnd2 Hfree2.
  destruct (created_names_are_distinct headers columns) as [H1 H2].
  split.
  - exists (createTableFromCSVColumns headers).
    split; [by apply declaredColumns_createQuery|by apply H1].
  - exists (createTableColumns columns). split; [|by apply H2].
    apply declaredColumns_createTableSql; [exact Hcolumns|].
    eapply Forall_impl; [exact Hc|]. by intros c [_ Hp].
Qed.

Lemma created_columns_are_distinct_witness :
  (exists names,
     declaredColumns (createQuery "t" [" Name"; "ID "; "note"]) = Some names /\
     NoDup (map toLowerCase names)) /\
  (exists names,
     declaredColumns
       (createTableSql "t" [ColumnDefinition.mk "Id" "INTEGER";
                            ColumnDefinition.mk "Title" "TEXT"]) = Some names /\
     NoDup (map toLowerCase names)).
Proof.
  apply (created_columns_are_distinct "t" [" Name"; "ID "; "note"]
           [ColumnDefinition.mk "Id" "INTEGER";
            ColumnDefinition.mk "Title" "TEXT"]).
  - discriminate.
  - discriminate.
  - repeat apply Forall_cons_2; try apply Forall_nil_2; reflexivity.
  - repeat apply Forall_cons_2; try apply Forall_nil_2; by split.
  - apply (bool_decide_unpack _); vm_compute; exact I.
  - apply (bool_decide_unpack _); vm_compute; exact I.
  - apply (bool_decide_unpack _); vm_compute; exact I.
  - apply (bool_decide_unpack _); vm_compute; exact I.
Defined.

(** ** Line endings *)

Lemma splitLines_line_crlf (l rest : string) :
  hasChar LF l = false -> hasChar CR l = false ->
  splitLines (l +:+ String CR (String LF rest)) = l :: splitLines rest.
Proof.
  induction l as [|c l IH]; intros Hlf Hcr.
  - rewrite append_nil, splitLines_cons. by rewrite Ascii.eqb_refl.
  - apply hasChar_cons_false in Hlf as [Hc1 Hlf].
    apply hasChar_cons_false in Hcr as [Hc2 Hcr].
    rewrite append_cons, splitLines_cons, Hc1, Hc2, IH by assumption.
    reflexivity.
Qed.

Lemma splitLines_join_crlf (lines : list string) :
  lines <> [] ->
  Forall (fun l => hasChar LF l = false /\ hasChar CR l = false) lines ->
  splitLines (join (String CR (str LF)) lines) = lines.
Proof.
  intros Hne Hlines. induction Hlines as [|l lines [Hlf Hcr] Hlines IH]; [done|].
  destruct lines as [|l' lines]; [by apply splitLines_last|].
  change (join (String CR (str LF)) (l :: l' :: lines))
    with (l +:+ String CR (String LF (join (String CR (str LF)) (l' :: lines)))).
  rewrite splitLines_line_crlf by assumption. by rewrite IH.
Qed.

Lemma no_CR_endsWithCR (l : string) : hasChar CR l = false -> endsWithCR l = false.
Proof.
  induction l as [|c l IH]; [reflexivity|].
  intros [Hc Hl]%hasChar_cons_false. destruct l as [|d l]; [exact Hc|].
  by apply IH.
Qed.

(** X24. A text whose lines end with a carriage return and a line feed
    is read as the same text with line feeds alone: for lines without
    carriage return and line feed in them, [parseCSV] gives the same
    headers and rows for both, and before that the lines as they are. *)
Theorem parseCSV_ignores_line_ending (lines : list string) :
  lines <> [] ->
  Forall (fun l => hasChar LF l = false /\ hasChar CR l = false) lines ->
  splitLines (join (String CR (str LF)) lines) = lines /\
  parseCSV (join (String CR (str LF)) lines) = parseCSV (join (str LF) lines).
Proof.
  intros Hne Hlines.
  assert (Hcrlf := splitLines_join_crlf lines Hne Hlines).
  assert (Hlf : splitLines (join (str LF) lines) = lines).
  { apply splitLines_join; [exact Hne|].
    eapply Forall_impl; [exact Hlines|]. intros l [? ?].
    split; [done|]. by apply no_CR_endsWithCR. }
  split; [exact Hcrlf|]. unfold parseCSV. by rewrite Hcrlf, Hlf.
Qed.

Lemma parseCSV_ignores_line_ending_witness :
  splitLines (join (String CR (str LF)) ["a,b"; "1,2"; ""]) = ["a,b"; "1,2"; ""] /\
  parseCSV (join (String CR (str LF)) ["a,b"; "1,2"; ""])
  = parseCSV (join (str LF) ["a,b"; "1,2"; ""]).
Proof.
  apply (parseCSV_ignores_line_ending ["a,b"; "1,2"; ""]); [done|].
  repeat first [apply Forall_nil_2 | apply Forall_cons_2]; by split.
Defined.

(** ** Creating a record *)

Section CreateRecord.
Context {W : Type}.
Variable respond : request -> W -> option Response.t * W.

(** X25. [create] sends the INSERT statement and, when that succeeded,
    asks for the row with the greatest id.  It returns the row that comes
    back, and [undefined] when none does; it does not look for the row
    that it inserted.  Without any field the INSERT has empty lists of
    columns and of values. *)
Theorem create_reads_the_last_row (resource : string)
    (variables : list (string * value)) (w : W) :
  let ins :=
    "INSERT INTO " +:+ quote resource +:+ " ("
    +:+ join ", " (map (fun c => quote c) (map fst variables))
    +:+ ") VALUES (" +:+ join ", " (map (fun _ => "?") (map fst variables))
    +:+ ")" in
  let sel := "SELECT * FROM " +:+ quote resource +:+ " ORDER BY id DESC LIMIT 1" in
  let first := execQuery respond ins (map snd variables) w in
  let r := sqlDataProvider.create respond resource variables w in
  sent r = Execute ins (map snd variables)
           :: match outcome first with
              | inr _ => [Execute sel []]
              | inl _ => []
              end /\
  (forall e, outcome first = inl e -> outcome r = inl e) /\
  (forall x rows,
     outcome first = inr x ->
     outcome (execQuery respond sel [] (world first)) = inr rows ->
     outcome r = inr (default VUndefined (head rows))) /\
  (variables = [] ->
   ins = "INSERT INTO " +:+ quote resource +:+ " () VALUES ()").
Proof.
  cbn zeta. unfold sqlDataProvider.create.
  rewrite sent_bind, outcome_bind. unfold execQuery at 1 3.
  rewrite sent_remoteExecute. unfold execQuery.
  split; [|split; [|split]].
  - destruct (outcome (remoteExecute respond _ (map snd variables) w));
      [reflexivity|].
    cbn [app]. f_equal. rewrite sent_bind, sent_remoteExecute.
    by destruct (outcome (remoteExecute respond _ [] _)).
  - by intros e ->.
  - intros x rows -> Hrows. by rewrite outcome_bind, Hrows.
  - by intros ->.
Qed.
End CreateRecord.

Lemma create_reads_the_last_row_witness :
  outcome (sqlDataProvider.create demoService "t" [("title", VString "x")] tt)
  = inr VUndefined.
Proof.
  destruct (create_reads_the_last_row demoService "t" [("title", VString "x")] tt)
    as (_ & _ & H & _).
  by apply (H [] []).
Defined.

(** *** The cell under a header *)

Lemma fillRow_lookup_proto (hs : list string) (i : nat) (values : list string)
    (obj : gmap string value) :
  fillRow hs i values obj !! "__proto__" = obj !! "__proto__".
Proof.
  revert i obj. induction hs as [|h hs IH]; intros i obj; [reflexivity|].
  cbn [fillRow]. rewrite IH.
  destruct (String.eqb_spec h "__proto__") as [Hp|Hp]; [reflexivity|].
  by rewrite lookup_insert_ne.
Qed.

Lemma fillRow_lookup_last (pre post : list string) (h : string) (i : nat)
    (values : list string) (obj : gmap string value) :
  h ∉ post -> h <> "__proto__" ->
  fillRow (pre ++ h :: post) i values obj !! h
  = Some (match values !! (i + length pre)%nat with
          | Some s => VString (trim s)
          | None => VUndefined
          end).
Proof.
  intros Hpost Hproto. revert i obj. induction pre as [|p pre IH]; intros i obj.
  - cbn [app fillRow length]. rewrite Nat.add_0_r.
    rewrite fillRow_lookup_other by exact Hpost.
    apply String.eqb_neq in Hproto. rewrite Hproto. apply lookup_insert_eq.
  - cbn [app fillRow length]. rewrite IH. by rewrite Nat.add_succ_r.
Qed.

(** X26. For a text of the ASCII range, the cell that a row has under a
    header is the field of its line at the position of that header,
    trimmed, and [undefined] when the line has no field there; when a
    header occurs more than once, it is the position of its last
    occurrence that counts.  Under the header [__proto__] a row has no
    cell. *)
Theorem parseCSV_cell_by_position (text first : string) (others : list string) :
  asciiText text ->
  filter (fun line => trim line <> EmptyString) (splitLines text)
  = first :: others ->
  let parsed := parseCSV text in
  ParsedCSV.headers parsed = map trim (parseLine first) /\
  Forall2 (fun line row =>
             row !! "__proto__" = None /\
             forall pre h post,
               ParsedCSV.headers parsed = pre ++ h :: post -> h ∉ post ->
               h <> "__proto__" ->
               row !! h = Some (match parseLine line !! length pre with
                                | Some s => VString (trim s)
                                | None => VUndefined
                                end))
    others (ParsedCSV.rows parsed).
Proof.
  intros _ Hlines. cbn zeta. unfold parseCSV. rewrite Hlines.
  cbn [ParsedCSV.headers ParsedCSV.rows]. split; [reflexivity|].
  apply Forall2_fmap_r, Forall_Forall2_diag, Forall_forall.
  intros line _. split; [by rewrite fillRow_lookup_proto|].
  intros pre h post Hh Hpost Hproto. rewrite Hh.
  by rewrite (fillRow_lookup_last pre post h 0 _ ∅ Hpost Hproto).
Qed.

Lemma parseCSV_cell_by_position_witness :
  let text := "a,__proto__,a" +:+ str LF +:+ "1, 2 ,3" +:+ str LF +:+ "4" in
  let parsed := parseCSV text in
  ParsedCSV.headers parsed = map trim (parseLine "a,__proto__,a") /\
  Forall2 (fun line row =>
             row !! "__proto__" = None /\
             forall pre h post,
               ParsedCSV.headers parsed = pre ++ h :: post -> h ∉ post ->
               h <> "__proto__" ->
               row !! h = Some (match parseLine line !! length pre with
                                | Some s => VString (trim s)
                                | None => VUndefined
                                end))
    ["1, 2 ,3"; "4"] (ParsedCSV.rows parsed).
Proof.
  apply (parseCSV_cell_by_position
           ("a,__proto__,a" +:+ str LF +:+ "1, 2 ,3" +:+ str LF +:+ "4")
           "a,__proto__,a" ["1, 2 ,3"; "4"]).
  - reflexivity.
  - vm_compute. reflexivity.
Defined.
